(** * mp3player: markers, segments and the undo/redo log

    A shallow embedding of [mp3player/segment.py] and of the marker
    operations of [mp3player/marker_manager.py].

    Times are Python floats in the source.  They are only compared,
    subtracted and passed through [abs] there, so they are modelled as
    exact rationals ([Q]); the comparisons [==], [<=] and [<] of the source
    are the boolean tests [Qeqb], [Qleb] and [Qltb] below.  Marker dicts
    are records, the tagged operation dicts of the undo log are an
    inductive type, and every method is a function from the manager state
    (and the widget inputs it reads) to the new manager state.

    The file has three parts: the embedding of the source, the
    predicates and example data of the statements, and the properties.
    The statements that carry a claim of the specification are named
    [C1_...] to [C10_...]. *)

From Stdlib Require Import QArith Qabs List String Ascii Bool Arith Lia Lqa.
From Stdlib Require Import Permutation Sorted DecimalString DecimalNat.
Import ListNotations.

Local Open Scope string_scope.
Local Open Scope Q_scope.

(* ------------------------------------------------------------------ *)
(** ** Comparisons on times *)

Definition Qeqb (x y : Q) : bool := Qeq_bool x y.
Definition Qleb (x y : Q) : bool := Qle_bool x y.
Definition Qltb (x y : Q) : bool := negb (Qle_bool y x).

(** [constants.py]: [END_TOLERANCE = 0.5]. *)
Definition END_TOLERANCE : Q := 1 # 2.

(* ------------------------------------------------------------------ *)
(** ** Exceptions *)

Inductive Exn : Type :=
| ValueError
| IndexError.

Inductive Result (A : Type) : Type :=
| Ok (a : A)
| Raise (e : Exn).

Arguments Ok {A} a.
Arguments Raise {A} e.

(* ------------------------------------------------------------------ *)
(** ** Markers

    A marker is the dict [{'time', 'name', 'comment', 'content'}].  The
    two text keys may be missing from a dict that was not built by the
    add operations (the source reads them with [.get(key, "")]), hence
    the options. *)

Record Marker : Type := mkMarker {
  time : Q;
  name : string;
  comment : option string;
  content : option string
}.

(** [start_marker.get("comment", "")] *)
Definition get_comment (m : Marker) : string :=
  match comment m with Some c => c | None => "" end.

(** [sorted(markers, key=lambda m: m["time"])] and
    [markers.sort(key=lambda m: m["time"])]: Python's sort is stable, and
    a stable sort has one result, the one of this insertion sort (an
    element goes before the first later element whose key is not
    smaller).

    The sort and the renumbering are written once, over lists of marker
    objects: [A] is the type of the objects and [val] reads the dict of
    an object.  With [A := Marker] an object is its dict; the add
    operations, which keep a reference to the dict they append, use
    [A := Marker * bool], the dict with a flag that is set on the
    appended one. *)
Section Objects.

Variable A : Type.
Variable val : A -> Marker.
Variable set_name : string -> A -> A.

Fixpoint insert_obj (m : A) (l : list A) : list A :=
  match l with
  | [] => [m]
  | x :: tl =>
      if Qleb (time (val m)) (time (val x)) then m :: x :: tl
      else x :: insert_obj m tl
  end.

Definition sort_objs (l : list A) : list A :=
  fold_right insert_obj [] l.

(** [marker["name"] == "Marker0" or marker["name"] == "Marker500"] *)
Definition is_fixed_obj (m : A) : bool :=
  String.eqb (name (val m)) "Marker0" || String.eqb (name (val m)) "Marker500".

(** [f"Marker{i + 1}"] for [n = i + 1] *)
Definition marker_name (n : nat) : string :=
  "Marker" ++ NilEmpty.string_of_uint (Nat.to_uint n).

(** [for i, marker in enumerate(user_markers): marker["name"] = ...],
    from number [i] on. *)
Fixpoint rename_from (i : nat) (l : list A) : list A :=
  match l with
  | [] => []
  | m :: tl => set_name (marker_name (i + 1)) m :: rename_from (S i) tl
  end.

(** [MarkerManager._renumber_user_markers], as a function of
    [self.markers]. *)
Definition renumber_objs (l : list A) : list A :=
  let user_markers := filter (fun m => negb (is_fixed_obj m)) l in
  let fixed_markers := filter is_fixed_obj l in
  let user_markers := sort_objs user_markers in
  let user_markers := rename_from 0 user_markers in
  sort_objs (user_markers ++ fixed_markers)%list.

End Objects.

Arguments insert_obj {A} val m l.
Arguments sort_objs {A} val l.
Arguments is_fixed_obj {A} val m.
Arguments rename_from {A} set_name i l.
Arguments renumber_objs {A} val set_name l.

Definition with_name (n : string) (m : Marker) : Marker :=
  {| time := time m; name := n; comment := comment m; content := content m |}.

Definition with_time (t : Q) (m : Marker) : Marker :=
  {| time := t; name := name m; comment := comment m; content := content m |}.

Definition sort_by_time (l : list Marker) : list Marker :=
  sort_objs (fun m => m) l.

Definition is_fixed (m : Marker) : bool := is_fixed_obj (fun m => m) m.

Definition _renumber_user_markers (l : list Marker) : list Marker :=
  renumber_objs (fun m => m) with_name l.

(* ------------------------------------------------------------------ *)
(** ** Segments ([segment.py]) *)

Record Segment : Type := mkSegment {
  index : nat;
  start_time : Q;
  end_time : Q;
  duration : Q;
  seg_comment : string;
  seg_content : string
}.

(** [Segment.__init__]; the test is [start_time > end_time]. *)
Definition Segment_init (i : nat) (start_t end_t : Q)
    (cmt cnt : string) : Result Segment :=
  if Qltb end_t start_t then Raise ValueError
  else Ok {| index := i;
             start_time := start_t;
             end_time := end_t;
             duration := end_t - start_t;
             seg_comment := cmt;
             seg_content := cnt |}.

(** [Segment.contains_time] *)
Definition contains_time (s : Segment) (t : Q) : bool :=
  Qleb (start_time s) t && Qleb t (end_time s).

(** [j in used_old_segments].  The set is kept as the list of the
    [add] calls, most recent first. *)
Definition in_used (j : nat) (used : list nat) : bool :=
  existsb (Nat.eqb j) used.

Definition newline : string := String (ascii_of_nat 10) EmptyString.

(** [if s:] on a string *)
Definition nonempty (s : string) : bool :=
  match s with EmptyString => false | _ => true end.

(** The merged content: the non-empty ones of the two contents, joined
    with a newline. *)
Definition merged_content (c1 c2 : string) : string :=
  String.concat newline
    ((if nonempty c1 then [c1] else []) ++ (if nonempty c2 then [c2] else [])).

(** First inner loop of [_calculate_segments] (exact match, then split),
    from old segment number [j] on: the content found and the number of
    the old segment it came from, or [None] when the loop ends without a
    [break]. *)
Fixpoint exact_or_split (j : nat) (olds : list Segment)
    (new_start_time new_end_time : Q) (used : list nat)
    : option (string * nat) :=
  match olds with
  | [] => None
  | old_seg :: tl =>
      if in_used j used then
        exact_or_split (S j) tl new_start_time new_end_time used
      else if Qeqb (start_time old_seg) new_start_time
              && Qeqb (end_time old_seg) new_end_time then
        Some (seg_content old_seg, j)
      else if Qleb (start_time old_seg) new_start_time
              && Qltb new_start_time new_end_time
              && Qleb new_end_time (end_time old_seg) then
        if Qeqb new_start_time (start_time old_seg) then
          Some (seg_content old_seg, j)
        else exact_or_split (S j) tl new_start_time new_end_time used
      else exact_or_split (S j) tl new_start_time new_end_time used
  end.

(** The [for k, old_seg2] loop, from old segment number [k] on: the
    merged content and [k] at the first match. *)
Fixpoint merge_partner (k : nat) (olds : list Segment) (j : nat)
    (old_seg : Segment) (new_end_time : Q) (used : list nat)
    : option (string * nat) :=
  match olds with
  | [] => None
  | old_seg2 :: tl =>
      if in_used k used || Nat.eqb k j then
        merge_partner (S k) tl j old_seg new_end_time used
      else if Qeqb (end_time old_seg2) new_end_time
              && Qeqb (end_time old_seg) (start_time old_seg2) then
        Some (merged_content (seg_content old_seg) (seg_content old_seg2), k)
      else merge_partner (S k) tl j old_seg new_end_time used
  end.

(** Second outer loop of [_calculate_segments] (merge), from old segment
    number [j] on.  The [break] of the source leaves the inner loop only,
    so the outer loop goes on with the updated content and set. *)
Fixpoint merge_pass (j : nat) (olds existing_segments : list Segment)
    (new_start_time new_end_time : Q) (preserved_content : string)
    (used : list nat) : string * list nat :=
  match olds with
  | [] => (preserved_content, used)
  | old_seg :: tl =>
      if in_used j used then
        merge_pass (S j) tl existing_segments new_start_time new_end_time
          preserved_content used
      else if Qeqb (start_time old_seg) new_start_time then
        match merge_partner 0 existing_segments j old_seg new_end_time used with
        | Some (c, k) =>
            merge_pass (S j) tl existing_segments new_start_time new_end_time
              c (k :: j :: used)
        | None =>
            merge_pass (S j) tl existing_segments new_start_time new_end_time
              preserved_content used
        end
      else
        merge_pass (S j) tl existing_segments new_start_time new_end_time
          preserved_content used
  end.

(** The content of one new segment and the updated set of used old
    segments: the two loops in sequence. *)
Definition migrate_content (existing_segments : list Segment)
    (new_start_time new_end_time : Q) (used : list nat)
    : string * list nat :=
  let '(preserved_content, used1) :=
    match exact_or_split 0 existing_segments new_start_time new_end_time used with
    | Some (c, j) => (c, j :: used)
    | None => ("", used)
    end in
  merge_pass 0 existing_segments existing_segments
    new_start_time new_end_time preserved_content used1.

(** The [for i in range(len(sorted_markers) - 1)] loop, from marker
    number [i] on; [ms] is the rest of the sorted marker list, starting at
    marker [i].  It returns the segments appended from [i] on and the
    final set of used old segments. *)
Fixpoint build_segments (i : nat) (ms : list Marker)
    (existing_segments : list Segment) (used : list nat)
    : Result (list Segment * list nat) :=
  match ms with
  | start_marker :: ((end_marker :: _) as rest) =>
      let cmt := get_comment start_marker in
      let new_start_time := time start_marker in
      let new_end_time := time end_marker in
      let '(preserved_content, used') :=
        migrate_content existing_segments new_start_time new_end_time used in
      match Segment_init i new_start_time new_end_time cmt preserved_content with
      | Raise e => Raise e
      | Ok segment =>
          match build_segments (S i) rest existing_segments used' with
          | Raise e => Raise e
          | Ok (segs, u) => Ok (segment :: segs, u)
          end
      end
  | _ => Ok ([], used)
  end.

(** [SegmentManager._calculate_segments]: the new segment list, with the
    set of old segments the matching rules used. *)
Definition calculate_segments_used (markers : list Marker)
    (existing_segments : list Segment) : Result (list Segment * list nat) :=
  let sorted_markers := sort_by_time markers in
  if (List.length sorted_markers <? 2)%nat then Ok ([], [])
  else build_segments 0 sorted_markers existing_segments [].

Definition _calculate_segments (markers : list Marker)
    (existing_segments : list Segment) : Result (list Segment) :=
  match calculate_segments_used markers existing_segments with
  | Ok (segs, _) => Ok segs
  | Raise e => Raise e
  end.

(** [max(containing_segments, key=lambda s: s.index)]: the first element
    of greatest key. *)
Fixpoint max_by_index (best : Segment) (l : list Segment) : Segment :=
  match l with
  | [] => best
  | s :: tl =>
      if (index best <? index s)%nat then max_by_index s tl
      else max_by_index best tl
  end.

(** [SegmentManager.get_segment_at_time] *)
Definition get_segment_at_time (segments : list Segment) (t : Q)
    : option Segment :=
  match filter (fun s => contains_time s t) segments with
  | [] => None
  | s :: tl => Some (max_by_index s tl)
  end.

(* ------------------------------------------------------------------ *)
(** ** The marker manager ([marker_manager.py])

    The state is the manager object with the fields of the player that
    its methods read and write.  What the user and the playback service
    can change between two calls (the three time entries, the preview
    time, the playback position, the list selection, the answer to a
    confirmation dialog) is an input of the call.  Redrawing, the list
    box, the change callbacks and saving do not touch the marker list or
    the two stacks and are left out. *)

(** The tagged dicts pushed on the undo and redo stacks. *)
Inductive Operation : Type :=
| Op_move_marker (idx : nat) (from_time to_time : Q)
| Op_add_marker (idx : nat) (marker_data : Marker)
| Op_delete_marker (idx : nat) (marker_data : Marker)
| Op_delete_markers (markers_data : list Marker)
| Op_delete_all_markers (markers_data : list Marker).

(** The texts written to [player.status_label]; a time stands for its
    formatted form. *)
Inductive Status : Type :=
| Ready
| NoFileLoaded
| MaximumMarkersReached (n : nat)
| TimeExceedsValidRange (max : Q)
| CannotAddWithin1Second (existing : Q)
| CannotUpdateWithin1Second (existing : Q)
| AddedMarkerAt (t : Q)
| InvalidTimeFormat
| PleaseSelectMarkerToDelete
| SelectedMarkersAreProtected
| DeletedMarkers (n : nat)
| NoUserMarkersToDelete
| AllUserMarkersDeleted
| NothingToUndo
| UndoMovedBack (t : Q)
| UndoRemovedMarker
| UndoRestoredMarker (t : Q)
| UndoRestoredMarkers (n : nat)
| NothingToRedo
| RedoMoved (t : Q)
| RedoAddedMarker
| RedoRemovedMarker
| RedoClearedAll
| NoFileOrNoMarkers
| CannotDeleteProtected (n : string)
| DeletedNearest (t : Q)
| NoMarkersToDelete
| PleaseSelectMarkerFirst
| UpdatedMarkerTo (t : Q)
| Editing (n : string) (t : Q).

Record MarkerManager : Type := mkManager {
  markers : list Marker;
  undo_stack : list Operation;      (* a Python list: the top is the last *)
  redo_stack : list Operation;
  selected_marker_index : option nat;
  current_file : bool;              (* [player.current_file] is set *)
  player_duration : Q;              (* [player.duration] *)
  status_label : Status             (* [player.status_label] *)
}.

Definition max_markers : nat := 100.
Definition max_history : nat := 50.

(** A time entry: its stripped text, and what [int(text)] gives
    ([None] when it raises [ValueError]). *)
Record Entry : Type := mkEntry {
  text : string;
  int_of_text : option Z
}.

Record Inputs : Type := mkInputs {
  _preview_marker_time : option Q;  (* [None]: attribute absent or None *)
  current_pos : Q;
  marker_minute_entry : Entry;
  marker_second_entry : Entry;
  marker_millisecond_entry : Entry;
  curselection : list nat;
  askyesno : bool
}.

Definition set_status (st : Status) (mm : MarkerManager) : MarkerManager :=
  {| markers := markers mm; undo_stack := undo_stack mm;
     redo_stack := redo_stack mm;
     selected_marker_index := selected_marker_index mm;
     current_file := current_file mm; player_duration := player_duration mm;
     status_label := st |}.

Definition set_markers (l : list Marker) (mm : MarkerManager) : MarkerManager :=
  {| markers := l; undo_stack := undo_stack mm;
     redo_stack := redo_stack mm;
     selected_marker_index := selected_marker_index mm;
     current_file := current_file mm; player_duration := player_duration mm;
     status_label := status_label mm |}.

Definition set_selected (i : option nat) (mm : MarkerManager) : MarkerManager :=
  {| markers := markers mm; undo_stack := undo_stack mm;
     redo_stack := redo_stack mm;
     selected_marker_index := i;
     current_file := current_file mm; player_duration := player_duration mm;
     status_label := status_label mm |}.

Definition set_stacks (u r : list Operation) (mm : MarkerManager) : MarkerManager :=
  {| markers := markers mm; undo_stack := u; redo_stack := r;
     selected_marker_index := selected_marker_index mm;
     current_file := current_file mm; player_duration := player_duration mm;
     status_label := status_label mm |}.

(** [int(s) if s else 0] *)
Definition entry_int (e : Entry) : option Z :=
  if nonempty (text e) then int_of_text e else Some 0%Z.

(** [minutes * 60 + seconds + centiseconds / 100.0], or [None] when one
    of the three [int] calls raises. *)
Definition total_seconds (inp : Inputs) : option Q :=
  match entry_int (marker_minute_entry inp),
        entry_int (marker_second_entry inp),
        entry_int (marker_millisecond_entry inp) with
  | Some minutes, Some seconds, Some centiseconds =>
      Some (inject_Z (minutes * 60 + seconds) + inject_Z centiseconds / 100)
  | _, _, _ => None
  end.

Definition has_meaningful_input (inp : Inputs) : bool :=
  let minute_str := text (marker_minute_entry inp) in
  let second_str := text (marker_second_entry inp) in
  let millisecond_str := text (marker_millisecond_entry inp) in
  (nonempty minute_str && negb (String.eqb minute_str "0"))
  || (nonempty second_str && negb (String.eqb second_str "0"))
  || (nonempty millisecond_str && negb (String.eqb millisecond_str "00")).

(** "Determine marker time" in [add_marker]. *)
Definition add_marker_time (inp : Inputs) : Q :=
  match _preview_marker_time inp with
  | Some t => t
  | None =>
      match total_seconds inp with
      | Some total =>
          if negb (has_meaningful_input inp) then current_pos inp else total
      | None => current_pos inp
      end
  end.

(** [player.duration > 0 and t > player.duration - END_TOLERANCE] *)
Definition beyond_duration (mm : MarkerManager) (t : Q) : bool :=
  Qltb 0 (player_duration mm) && Qltb (player_duration mm - END_TOLERANCE) t.

(** The 1-second loop of the two add operations: the first non-fixed
    marker within one second of [t]. *)
Fixpoint within_1_second (l : list Marker) (t : Q) : option Marker :=
  match l with
  | [] => None
  | existing_marker :: tl =>
      if is_fixed existing_marker then within_1_second tl t
      else if Qltb (Qabs (time existing_marker - t)) 1 then Some existing_marker
      else within_1_second tl t
  end.

(** [if abs(marker_time) < 0.001: marker_time = 0.001] *)
Definition clamp_at_zero (marker_time : Q) : Q :=
  if Qltb (Qabs marker_time) (1 # 1000) then 1 # 1000 else marker_time.

(** Equality of two marker dicts ([==] on dicts compares the values). *)
Definition option_string_eqb (a b : option string) : bool :=
  match a, b with
  | Some x, Some y => String.eqb x y
  | None, None => true
  | _, _ => false
  end.

Definition marker_eqb (a b : Marker) : bool :=
  Qeqb (time a) (time b) && String.eqb (name a) (name b)
  && option_string_eqb (comment a) (comment b)
  && option_string_eqb (content a) (content b).

(** [self.markers.index(m)]: the first position holding a dict equal to
    [m]; [ValueError] when there is none. *)
Fixpoint index_of (m : Marker) (l : list Marker) : option nat :=
  match l with
  | [] => None
  | x :: tl =>
      if marker_eqb x m then Some 0%nat
      else match index_of m tl with Some i => Some (S i) | None => None end
  end.

Definition new_marker_at (marker_time : Q) : Marker :=
  {| time := marker_time; name := "TempMarker";
     comment := Some ""; content := Some "" |}.

Definition flag_name (n : string) (o : Marker * bool) : Marker * bool :=
  (with_name n (fst o), snd o).

(** Append the new dict, sort, renumber: the marker list afterwards and
    the new dict as the renumbering left it. *)
Definition append_and_renumber (l : list Marker) (new_marker : Marker)
    : list Marker * Marker :=
  let objs := (map (fun m => (m, false)) l ++ [(new_marker, true)])%list in
  let objs := sort_objs fst objs in
  let objs := renumber_objs fst flag_name objs in
  (map fst objs,
   match find snd objs with Some o => fst o | None => new_marker end).

(** [push_to_undo_stack] *)
Definition push_to_undo_stack (operation : Operation) (mm : MarkerManager)
    : MarkerManager :=
  let u := (undo_stack mm ++ [operation])%list in
  let u := if (max_history <? List.length u)%nat then tl u else u in
  set_stacks u [] mm.

(** [MarkerManager.add_marker] *)
Definition add_marker (inp : Inputs) (mm : MarkerManager) : MarkerManager :=
  if negb (current_file mm) then set_status NoFileLoaded mm
  else if (max_markers <=? List.length (markers mm))%nat then
    set_status (MaximumMarkersReached max_markers) mm
  else
    let marker_time := add_marker_time inp in
    if beyond_duration mm marker_time then
      set_status (TimeExceedsValidRange (player_duration mm - END_TOLERANCE)) mm
    else
      match within_1_second (markers mm) marker_time with
      | Some existing_marker =>
          set_status (CannotAddWithin1Second (time existing_marker)) mm
      | None =>
          let marker_time := clamp_at_zero marker_time in
          let '(l, new_marker) :=
            append_and_renumber (markers mm) (new_marker_at marker_time) in
          let mm := set_markers l mm in
          match index_of new_marker l with
          | None => mm              (* [ValueError]: cannot happen *)
          | Some new_marker_index =>
              let mm := set_selected (Some new_marker_index) mm in
              set_status (AddedMarkerAt (time new_marker)) mm
          end
      end.

(** [MarkerManager.add_marker_at_time] *)
Definition add_marker_at_time (inp : Inputs) (mm : MarkerManager)
    : MarkerManager :=
  if negb (current_file mm) then set_status NoFileLoaded mm
  else if (max_markers <=? List.length (markers mm))%nat then
    set_status (MaximumMarkersReached max_markers) mm
  else
    match total_seconds inp with
    | None => set_status InvalidTimeFormat mm
    | Some total =>
        if beyond_duration mm total then
          set_status (TimeExceedsValidRange (player_duration mm - END_TOLERANCE)) mm
        else
          match within_1_second (markers mm) total with
          | Some existing_marker =>
              set_status (CannotAddWithin1Second (time existing_marker)) mm
          | None =>
              let marker_time := clamp_at_zero total in
              let '(l, new_marker) :=
                append_and_renumber (markers mm) (new_marker_at marker_time) in
              let mm := set_markers l mm in
              match index_of new_marker l with
              | None => set_status InvalidTimeFormat mm   (* [except ValueError] *)
              | Some i =>
                  let mm := set_selected (Some i) mm in
                  let mm := push_to_undo_stack (Op_add_marker i new_marker) mm in
                  set_status (AddedMarkerAt total) mm
              end
          end
    end.

(** [del l[idx]] for [idx < len(l)] *)
Definition remove_at (idx : nat) (l : list Marker) : list Marker :=
  (firstn idx l ++ skipn (S idx) l)%list.

(** [l.insert(idx, m)]: an index past the end appends. *)
Definition insert_at (idx : nat) (m : Marker) (l : list Marker) : list Marker :=
  (firstn idx l ++ m :: skipn idx l)%list.

(** [l[idx][key] = v] for [idx < len(l)] *)
Fixpoint update_at (idx : nat) (f : Marker -> Marker) (l : list Marker)
    : list Marker :=
  match l, idx with
  | [], _ => []
  | x :: tl, O => f x :: tl
  | x :: tl, S i => x :: update_at i f tl
  end.

(** [l.pop()]: the rest and the last element. *)
Definition pop {A : Type} (l : list A) : option (list A * A) :=
  match rev l with
  | [] => None
  | x :: r => Some (rev r, x)
  end.

(** "Collect markers to delete (excluding protected markers)" *)
Fixpoint collect_to_delete (selection : list nat) (l : list Marker)
    : list (nat * Marker) :=
  match selection with
  | [] => []
  | idx :: tl =>
      match nth_error l idx with
      | Some marker =>
          if negb (String.eqb (name marker) "Marker0")
             && negb (String.eqb (name marker) "Marker500")
          then (idx, marker) :: collect_to_delete tl l
          else collect_to_delete tl l
      | None => collect_to_delete tl l
      end
  end.

(** [markers_to_delete.sort(key=lambda x: x[0], reverse=True)]: stable,
    greatest index first. *)
Fixpoint insert_desc (x : nat * Marker) (l : list (nat * Marker))
    : list (nat * Marker) :=
  match l with
  | [] => [x]
  | y :: tl =>
      if (fst x <? fst y)%nat then y :: insert_desc x tl else x :: y :: tl
  end.

Definition sort_desc (l : list (nat * Marker)) : list (nat * Marker) :=
  fold_right insert_desc [] l.

(** [for idx, marker in markers_to_delete: del self.markers[idx]]; the
    flag tells that a [del] raised [IndexError], which ends the method
    with the list as it is then. *)
Fixpoint delete_each (to_delete : list (nat * Marker)) (l : list Marker)
    : list Marker * bool :=
  match to_delete with
  | [] => (l, false)
  | (idx, _) :: tl =>
      if (idx <? List.length l)%nat then delete_each tl (remove_at idx l)
      else (l, true)
  end.

(** [MarkerManager.delete_selected_marker] *)
Definition delete_selected_marker (inp : Inputs) (mm : MarkerManager)
    : MarkerManager :=
  match curselection inp with
  | [] => set_status PleaseSelectMarkerToDelete mm
  | selection =>
      match collect_to_delete selection (markers mm) with
      | [] => set_status SelectedMarkersAreProtected mm
      | markers_to_delete =>
          if negb (askyesno inp) then mm
          else
            let markers_to_delete := sort_desc markers_to_delete in
            let mm :=
              push_to_undo_stack
                (Op_delete_markers (map snd markers_to_delete)) mm in
            let '(l, raised) := delete_each markers_to_delete (markers mm) in
            if raised then set_markers l mm
            else
              let mm := set_markers (_renumber_user_markers l) mm in
              set_status (DeletedMarkers (List.length markers_to_delete)) mm
      end
  end.

(** [MarkerManager.delete_all_markers] *)
Definition delete_all_markers (inp : Inputs) (mm : MarkerManager)
    : MarkerManager :=
  let user_markers := filter (fun m => negb (is_fixed m)) (markers mm) in
  match user_markers with
  | [] => set_status NoUserMarkersToDelete mm
  | _ =>
      if negb (askyesno inp) then mm
      else
        let markers_backup := markers mm in
        let mm := push_to_undo_stack (Op_delete_all_markers markers_backup) mm in
        let fixed_markers := filter is_fixed (markers mm) in
        let mm := set_markers fixed_markers mm in
        set_status AllUserMarkersDeleted mm
  end.

(** The search of [undo_action] for the added marker: the list without
    the first marker of that time (up to a millisecond) and name. *)
Fixpoint remove_added (marker_to_remove : Marker) (l : list Marker)
    : list Marker :=
  match l with
  | [] => []
  | marker :: tl =>
      if Qltb (Qabs (time marker - time marker_to_remove)) (1 # 1000)
         && String.eqb (name marker) (name marker_to_remove)
      then tl
      else marker :: remove_added marker_to_remove tl
  end.

(** [MarkerManager.undo_action] *)
Definition undo_action (mm : MarkerManager) : MarkerManager :=
  match pop (undo_stack mm) with
  | None => set_status NothingToUndo mm
  | Some (rest, operation) =>
      let mm := set_stacks rest (redo_stack mm ++ [operation])%list mm in
      match operation with
      | Op_move_marker marker_idx original_time _ =>
          if (marker_idx <? List.length (markers mm))%nat then
            let l := update_at marker_idx (with_time original_time) (markers mm) in
            let mm := set_markers (sort_by_time l) mm in
            set_status (UndoMovedBack original_time) mm
          else mm
      | Op_add_marker _ marker_to_remove =>
          let l := remove_added marker_to_remove (markers mm) in
          let l := sort_by_time l in
          let mm := set_markers (_renumber_user_markers l) mm in
          set_status UndoRemovedMarker mm
      | Op_delete_marker idx marker_data =>
          let l := insert_at idx marker_data (markers mm) in
          let mm := set_markers (sort_by_time l) mm in
          set_status (UndoRestoredMarker (time marker_data)) mm
      | Op_delete_all_markers markers_data =>
          let mm := set_markers markers_data mm in
          set_status (UndoRestoredMarkers (List.length (markers mm))) mm
      | Op_delete_markers _ => mm      (* no branch of the source matches *)
      end
  end.

(** [MarkerManager.redo_action].  Redoing an addition appends the dict
    held by the record itself (and [undo_action] inserts the record's
    own dict when it undoes a "delete_marker"), so in the source a later
    renumbering or move also changes the dict inside the record.
    Records are values here: after such a step the marker held by a
    record of the model can differ from the one of the source, and a
    later undo that searches the list for that marker can then differ
    too.  The statements below about arbitrary sequences of calls (the
    bound on the history, the list staying sorted) are step invariants
    that hold from every state and read no record's marker; the other
    statements with an undo or a redo stop before a shared dict is
    changed, or state the marker list and the lengths of the stacks
    only. *)
Definition redo_action (mm : MarkerManager) : MarkerManager :=
  match pop (redo_stack mm) with
  | None => set_status NothingToRedo mm
  | Some (rest, operation) =>
      let mm := set_stacks (undo_stack mm ++ [operation])%list rest mm in
      match operation with
      | Op_move_marker marker_idx _ new_time =>
          if (marker_idx <? List.length (markers mm))%nat then
            let l := update_at marker_idx (with_time new_time) (markers mm) in
            let mm := set_markers (sort_by_time l) mm in
            set_status (RedoMoved new_time) mm
          else mm
      | Op_add_marker _ marker_data =>
          let l := (markers mm ++ [marker_data])%list in
          let l := sort_by_time l in
          let mm := set_markers (_renumber_user_markers l) mm in
          set_status RedoAddedMarker mm
      | Op_delete_marker marker_idx _ =>
          if (marker_idx <? List.length (markers mm))%nat then
            let l := remove_at marker_idx (markers mm) in
            let mm := set_markers (sort_by_time l) mm in
            set_status RedoRemovedMarker mm
          else mm
      | Op_delete_all_markers _ =>
          let mm := set_markers [] mm in
          set_status RedoClearedAll mm
      | Op_delete_markers _ => mm      (* no branch of the source matches *)
      end
  end.

(** The search of [delete_nearest_marker], from position [i] on; [best]
    is [(min_distance, nearest_marker)], [None] while the distance is
    still infinite. *)
Fixpoint nearest_from (i : nat) (l : list Marker) (pos : Q)
    (best : option (Q * (nat * Marker))) : option (nat * Marker) :=
  match l with
  | [] => option_map snd best
  | marker :: tl =>
      let distance := Qabs (time marker - pos) in
      match best with
      | None => nearest_from (S i) tl pos (Some (distance, (i, marker)))
      | Some (min_distance, _) =>
          if Qltb distance min_distance
          then nearest_from (S i) tl pos (Some (distance, (i, marker)))
          else nearest_from (S i) tl pos best
      end
  end.

(** [MarkerManager.delete_nearest_marker] *)
Definition delete_nearest_marker (inp : Inputs) (mm : MarkerManager)
    : MarkerManager :=
  if negb (current_file mm) || (List.length (markers mm) =? 0)%nat then
    set_status NoFileOrNoMarkers mm
  else
    match nearest_from 0 (markers mm) (current_pos inp) None with
    | None => set_status NoMarkersToDelete mm
    | Some (marker_idx, marker) =>
        if is_fixed marker then
          set_status (CannotDeleteProtected (name marker)) mm
        else if negb (askyesno inp) then mm
        else
          let mm := push_to_undo_stack (Op_delete_marker marker_idx marker) mm in
          let mm := set_markers (remove_at marker_idx (markers mm)) mm in
          set_status (DeletedNearest (time marker)) mm
    end.

(** The 1-second loop of [update_selected_marker_time]: it also skips
    every dict equal to the selected one. *)
Fixpoint within_1_second_except (selected : Marker) (l : list Marker) (t : Q)
    : option Marker :=
  match l with
  | [] => None
  | existing_marker :: tl =>
      if marker_eqb existing_marker selected || is_fixed existing_marker then
        within_1_second_except selected tl t
      else if Qltb (Qabs (time existing_marker - t)) 1 then Some existing_marker
      else within_1_second_except selected tl t
  end.

(** [MarkerManager.update_selected_marker_time] *)
Definition update_selected_marker_time (inp : Inputs) (mm : MarkerManager)
    : MarkerManager :=
  if negb (current_file mm) then set_status NoFileLoaded mm
  else
    match selected_marker_index mm with
    | None => set_status PleaseSelectMarkerFirst mm
    | Some selected =>
        match nth_error (markers mm) selected with
        | None => set_status PleaseSelectMarkerFirst mm
        | Some marker_to_update =>
            match total_seconds inp with
            | None => set_status InvalidTimeFormat mm
            | Some total =>
                if beyond_duration mm total then
                  set_status
                    (TimeExceedsValidRange (player_duration mm - END_TOLERANCE)) mm
                else
                  match within_1_second_except marker_to_update (markers mm) total with
                  | Some existing_marker =>
                      set_status
                        (CannotUpdateWithin1Second (time existing_marker)) mm
                  | None =>
                      let original_time := time marker_to_update in
                      let new_time :=
                        if Qltb total (1 # 1000) then 1 # 1000 else total in
                      let mm :=
                        push_to_undo_stack
                          (Op_move_marker selected original_time new_time) mm in
                      let l := update_at selected (with_time new_time) (markers mm) in
                      let l := sort_by_time l in
                      let mm := set_markers l mm in
                      match index_of (with_time new_time marker_to_update) l with
                      | None => set_status InvalidTimeFormat mm
                      | Some i =>
                          let mm := set_selected (Some i) mm in
                          set_status (UpdatedMarkerTo new_time) mm
                      end
                  end
            end
        end
    end.

(** [MarkerManager.edit_marker_by_index], for an index of the list box. *)
Definition edit_marker_by_index (idx : nat) (mm : MarkerManager)
    : MarkerManager :=
  match nth_error (markers mm) idx with
  | None => mm
  | Some marker =>
      set_status (Editing (name marker) (time marker))
        (set_selected (Some idx) mm)
  end.

(* ------------------------------------------------------------------ *)
(** ** The other queries of [segment.py] *)

(** [SegmentManager.get_segment_by_index]; the index is any Python
    integer. *)
Definition get_segment_by_index (segments : list Segment) (idx : Z)
    : option Segment :=
  if (0 <=? idx)%Z && (idx <? Z.of_nat (List.length segments))%Z
  then nth_error segments (Z.to_nat idx)
  else None.

(** [SegmentManager.get_current_segment_index] *)
Definition get_current_segment_index (segments : list Segment) (current_time : Q)
    : option nat :=
  match get_segment_at_time segments current_time with
  | Some segment => Some (index segment)
  | None => None
  end.




(** [get_segment_start_time], [get_segment_end_time],
    [get_segment_duration] *)
Definition get_segment_start_time (segments : list Segment) (idx : Z) : option Q :=
  option_map start_time (get_segment_by_index segments idx).

Definition get_segment_end_time (segments : list Segment) (idx : Z) : option Q :=
  option_map end_time (get_segment_by_index segments idx).

Definition get_segment_duration (segments : list Segment) (idx : Z) : option Q :=
  option_map duration (get_segment_by_index segments idx).

(* ------------------------------------------------------------------ *)
(** ** The other operations of [marker_manager.py] *)

(** The loop of [select_all_markers], from row [i] on: the rows it
    selects in the list box. *)
Fixpoint select_all_rows (i : nat) (l : list Marker) : list nat :=
  match l with
  | [] => []
  | marker :: tl =>
      if negb (String.eqb (name marker) "Marker0")
         && negb (String.eqb (name marker) "Marker500")
      then i :: select_all_rows (S i) tl
      else select_all_rows (S i) tl
  end.

(** The search of [jump_to_next_marker] in the sorted markers, from
    position [i] on: the first marker after the playback position. *)
Fixpoint next_marker_from (i : nat) (sorted_markers : list Marker) (pos : Q)
    : option (nat * Marker) :=
  match sorted_markers with
  | [] => None
  | marker :: tl =>
      if Qltb pos (time marker) then Some (i, marker)
      else next_marker_from (S i) tl pos
  end.

(** The search of [jump_to_previous_marker], which runs from the end of
    the sorted markers: the last marker before the playback position. *)
Fixpoint prev_marker_from (i : nat) (sorted_markers : list Marker) (pos : Q)
    : option (nat * Marker) :=
  match sorted_markers with
  | [] => None
  | marker :: tl =>
      match prev_marker_from (S i) tl pos with
      | Some r => Some r
      | None => if Qltb (time marker) pos then Some (i, marker) else None
      end
  end.

(** What a jump leaves behind, besides the seek command it sends: the
    selected row, the playback position and the status text. *)
Inductive JumpText : Type :=
| JumpNoFileOrNoMarkers
| JumpedToNext (t : Q)
| NoNextMarkerFound
| JumpedToPrevious (t : Q)
| NoPreviousMarkerFound.

Record Jump : Type := mkJump {
  jump_selected : option nat;     (* [selected_marker_index] *)
  jump_pos : Q;                   (* [player.current_pos] *)
  jump_text : JumpText
}.

(** [MarkerManager.jump_to_next_marker] *)
Definition jump_to_next_marker (pos : Q) (mm : MarkerManager) : Jump :=
  if negb (current_file mm) || (List.length (markers mm) =? 0)%nat then
    {| jump_selected := selected_marker_index mm; jump_pos := pos;
       jump_text := JumpNoFileOrNoMarkers |}
  else
    match next_marker_from 0 (sort_by_time (markers mm)) pos with
    | Some (next_marker_index, next_marker) =>
        {| jump_selected := Some next_marker_index;
           jump_pos := time next_marker;
           jump_text := JumpedToNext (time next_marker) |}
    | None =>
        {| jump_selected := selected_marker_index mm; jump_pos := pos;
           jump_text := NoNextMarkerFound |}
    end.

(** [MarkerManager.jump_to_previous_marker] *)
Definition jump_to_previous_marker (pos : Q) (mm : MarkerManager) : Jump :=
  if negb (current_file mm) || (List.length (markers mm) =? 0)%nat then
    {| jump_selected := selected_marker_index mm; jump_pos := pos;
       jump_text := JumpNoFileOrNoMarkers |}
  else
    match prev_marker_from 0 (sort_by_time (markers mm)) pos with
    | Some (prev_marker_index, prev_marker) =>
        {| jump_selected := Some prev_marker_index;
           jump_pos := time prev_marker;
           jump_text := JumpedToPrevious (time prev_marker) |}
    | None =>
        {| jump_selected := selected_marker_index mm; jump_pos := pos;
           jump_text := NoPreviousMarkerFound |}
    end.


(* ------------------------------------------------------------------ *)
(** ** The retry loop of [playback.py]

    The jumps send their seek command through
    [PlaybackController.send_command_with_retry].  A reply of mpv is a
    dict; what the loop reads of it is the value under "error" ([None]
    when the key is absent), as [str] shows it.  A response is a reply
    or Python's [None]. *)
Record Reply : Type := mkReply {
  reply_error : option string;
  reply_data : option string
}.

Definition Response : Type := option Reply.

(** [sub in s] on strings *)
Fixpoint contains (sub s : string) : bool :=
  String.prefix sub s
  || match s with
     | EmptyString => false
     | String _ tl => contains sub tl
     end.

(** [{"error": f"failed after {max_retries} attempts"}] *)
Definition failed_after (max_retries : nat) : Reply :=
  {| reply_error :=
       Some ("failed after " ++ NilEmpty.string_of_uint (Nat.to_uint max_retries)
             ++ " attempts");
     reply_data := None |}.

(** The loop [for attempt in range(max_retries)], with [attempts_left]
    rounds to go; [send_command k] is the response to the call number
    [k] of [send_command], and [calls] counts the calls made so far.
    The result is the value returned and the number of calls made.  The
    pause of half a second before another attempt is left out, and
    [max_retries] is a natural number (no caller passes one, so it is
    3). *)
Fixpoint retry_from (send_command : nat -> Response) (max_retries : nat)
    (calls attempts_left : nat) : Response * nat :=
  match attempts_left with
  | O => (Some (failed_after max_retries), calls)
  | S attempts_left =>
      let response := send_command calls in
      match response with
      | Some {| reply_error := Some error |} =>
          if negb (String.eqb error "success") then
            if String.eqb error "property unavailable"
               || contains "error running command" error
            then retry_from send_command max_retries (S calls) attempts_left
            else (response, S calls)
          else (response, S calls)
      | _ => (response, S calls)
      end
  end.

(** [PlaybackController.send_command_with_retry] *)
Definition send_command_with_retry (send_command : nat -> Response)
    (max_retries : nat) : Response * nat :=
  retry_from send_command max_retries 0 max_retries.

(* ------------------------------------------------------------------ *)
(** ** Predicates of the statements, and the data of the examples *)

Definition time_le (a b : Marker) : Prop := time a <= time b.

(** What one segment of the new list looks like: built from the markers
    number [k] and [k + 1] of the sorted list [ms], with index [i]. *)
Definition segment_of_pair (ms : list Marker) (k i : nat) (s : Segment) : Prop :=
  exists m1 m2,
    nth_error ms k = Some m1 /\ nth_error ms (S k) = Some m2 /\
    index s = i /\ start_time s = time m1 /\ end_time s = time m2 /\
    duration s = end_time s - start_time s /\
    seg_comment s = get_comment m1 /\
    start_time s <= end_time s /\ 0 <= duration s.

Definition markers_0_10_25_40 : list Marker :=
  [ {| time := 25; name := "Marker2"; comment := Some ""; content := Some "" |};
    {| time := 0; name := "Marker0"; comment := Some ""; content := Some "" |};
    {| time := 40; name := "Marker500"; comment := Some ""; content := Some "" |};
    {| time := 10; name := "Marker1"; comment := Some ""; content := Some "" |} ].

Definition segments_10_25_40 : list Segment :=
  [ {| index := 0; start_time := 10; end_time := 25; duration := 15;
       seg_comment := ""; seg_content := "A" |};
    {| index := 1; start_time := 25; end_time := 40; duration := 15;
       seg_comment := ""; seg_content := "B" |} ].


Definition seg_range (s : Segment) : Q * Q := (start_time s, end_time s).

(** The consecutive pairs of a list of times. *)
Fixpoint ranges (ts : list Q) : list (Q * Q) :=
  match ts with
  | a :: ((b :: _) as tl) => (a, b) :: ranges tl
  | _ => []
  end.

(** The used old segments are exactly the first [n]. *)
Definition used_below (n : nat) (used : list nat) : Prop :=
  forall j, In j used <-> (j < n)%nat.

Definition starts_elsewhere (ns : Q) (o : Segment) : Prop :=
  ~ start_time o == ns.

Definition mk (t : Q) (n : string) : Marker :=
  {| time := t; name := n; comment := Some ""; content := Some "" |}.

Definition sg (i : nat) (a b : Q) (c : string) : Segment :=
  {| index := i; start_time := a; end_time := b; duration := b - a;
     seg_comment := ""; seg_content := c |}.

Fixpoint user_markers_from (n : nat) (t : Q) : list Marker :=
  match n with
  | O => []
  | S k =>
      {| time := t; name := marker_name (100 - k); comment := Some "";
         content := Some "" |} :: user_markers_from k (t + 2)
  end.

Definition full_manager : MarkerManager :=
  {| markers :=
       ({| time := 0; name := "Marker0"; comment := Some ""; content := Some "" |}
        :: user_markers_from 100 2
        ++ [{| time := 1000; name := "Marker500"; comment := Some "";
               content := Some "" |}])%list;
     undo_stack := []; redo_stack := [];
     selected_marker_index := None;
     current_file := true; player_duration := 1000;
     status_label := Ready |}.

Definition entry (s : string) (v : option Z) : Entry :=
  {| text := s; int_of_text := v |}.

(** The inputs of a call: the preview time, the three entries (minutes,
    seconds, centiseconds) with the integers they parse to, the selected
    rows of the list box; the playback position is 0 and every dialog is
    confirmed. *)
Definition inputs (preview : option Q) (minutes seconds : string * Z)
    (selection : list nat) : Inputs :=
  {| _preview_marker_time := preview;
     current_pos := 0;
     marker_minute_entry := entry (fst minutes) (Some (snd minutes));
     marker_second_entry := entry (fst seconds) (Some (snd seconds));
     marker_millisecond_entry := entry "00" (Some 0%Z);
     curselection := selection;
     askyesno := true |}.

(** A manager with a loaded file of 100 seconds, nothing on the stacks
    and nothing selected. *)
Definition manager_of (l : list Marker) (selected : option nat) : MarkerManager :=
  {| markers := l; undo_stack := []; redo_stack := [];
     selected_marker_index := selected;
     current_file := true; player_duration := 100;
     status_label := Ready |}.

Definition fixed_only : list Marker := [mk 0 "Marker0"; mk 100 "Marker500"].

Definition three_markers : list Marker :=
  [mk 0 "Marker0"; mk 10 "Marker1"; mk 100 "Marker500"].

Definition four_markers : list Marker :=
  [mk 0 "Marker0"; mk 10 "Marker1"; mk 20 "Marker2"; mk 100 "Marker500"].

(** Two markers that are both non-fixed are at least one second apart. *)
Definition far_apart (a b : Marker) : Prop :=
  is_fixed a = false -> is_fixed b = false -> 1 <= Qabs (time a - time b).

Definition apart (a b : Marker) : Prop := 1 <= Qabs (time a - time b).

(** Every two non-fixed markers at different positions are at least one
    second apart. *)
Definition spaced (l : list Marker) : Prop := ForallOrdPairs far_apart l.

(** Marker0 and Marker500 are in the list. *)
Definition has_fixed (l : list Marker) : Prop :=
  (exists m, In m l /\ name m = "Marker0") /\
  (exists m, In m l /\ name m = "Marker500").

Definition marker_invariant (l : list Marker) : Prop :=
  has_fixed l /\ spaced l.

Definition deletable (l : list Marker) (p : nat * Marker) : Prop :=
  nth_error l (fst p) = Some (snd p) /\ is_fixed (snd p) = false.

Definition idx_gt (a b : nat * Marker) : Prop := (fst b < fst a)%nat.

Definition idx_ge (a b : nat * Marker) : Prop := (fst b <= fst a)%nat.

(** One call of the manager, with its inputs. *)
Inductive Action : Type :=
| Add (inp : Inputs)               (* [add_marker] *)
| AddAtTime (inp : Inputs)         (* [add_marker_at_time] *)
| Move (inp : Inputs)              (* [update_selected_marker_time] *)
| DeleteSelected (inp : Inputs)    (* [delete_selected_marker] *)
| DeleteNearest (inp : Inputs)     (* [delete_nearest_marker] *)
| DeleteAll (inp : Inputs)         (* [delete_all_markers] *)
| Select (idx : nat).              (* [edit_marker_by_index] *)

Definition step (mm : MarkerManager) (a : Action) : MarkerManager :=
  match a with
  | Add inp => add_marker inp mm
  | AddAtTime inp => add_marker_at_time inp mm
  | Move inp => update_selected_marker_time inp mm
  | DeleteSelected inp => delete_selected_marker inp mm
  | DeleteNearest inp => delete_nearest_marker inp mm
  | DeleteAll inp => delete_all_markers inp mm
  | Select idx => edit_marker_by_index idx mm
  end.

Definition run (mm : MarkerManager) (actions : list Action) : MarkerManager :=
  fold_left step actions mm.

(** The requested time of the call is not one that the operation
    replaces by 0.001 (an add replaces the times t with |t| < 0.001, a
    move the times t < 0.001); for a deletion of the selected rows, the
    list box reports each row once. *)
Definition not_clamped (a : Action) : Prop :=
  match a with
  | Add inp => 1 # 1000 <= Qabs (add_marker_time inp)
  | AddAtTime inp => forall t, total_seconds inp = Some t -> 1 # 1000 <= Qabs t
  | Move inp => forall t, total_seconds inp = Some t -> 1 # 1000 <= t
  | DeleteSelected inp => NoDup (curselection inp)
  | _ => True
  end.

(** The claim as it is written: the fixed markers are there, and a
    non-fixed marker is at least one second away from every other
    marker, fixed or not. *)
Definition away_from_all (l : list Marker) : Prop :=
  forall i j a b,
    i <> j -> nth_error l i = Some a -> nth_error l j = Some b ->
    is_fixed a = false -> 1 <= Qabs (time a - time b).

(** One command of a session: a call of the manager, an undo or a
    redo. *)
Inductive Command : Type :=
| Do (a : Action)
| Undo
| Redo.

Definition exec (mm : MarkerManager) (c : Command) : MarkerManager :=
  match c with
  | Do a => step mm a
  | Undo => undo_action mm
  | Redo => redo_action mm
  end.

Definition exec_all (mm : MarkerManager) (cs : list Command) : MarkerManager :=
  fold_left exec cs mm.

(** The segments are the ones computed from the marker list [ms], already
    sorted: as many as consecutive pairs, number [k] built from the
    markers [k] and [k + 1]. *)
Definition computed_from (ms : list Marker) (segs : list Segment) : Prop :=
  List.length segs = pred (List.length ms) /\
  forall k s, nth_error segs k = Some s -> segment_of_pair ms k k s.

(** A "delete all" record holds a marker list that is sorted by time. *)
Definition op_sorted (op : Operation) : Prop :=
  match op with
  | Op_delete_all_markers markers_data => StronglySorted time_le markers_data
  | _ => True
  end.

(** The marker list is sorted by time, and so are the lists saved in the
    records of the two stacks. *)
Definition sorted_state (mm : MarkerManager) : Prop :=
  StronglySorted time_le (markers mm) /\
  Forall op_sorted (undo_stack mm) /\
  Forall op_sorted (redo_stack mm).

(** [best] is the nearest of the markers [seen] to the position, the
    first one at that distance. *)
Definition nearest_of (pos : Q) (seen : list Marker)
    (best : option (Q * (nat * Marker))) : Prop :=
  match best with
  | None => seen = []
  | Some (d, (bi, bm)) =>
      nth_error seen bi = Some bm /\ d = Qabs (time bm - pos) /\
      forall j x, nth_error seen j = Some x ->
                  d <= Qabs (time x - pos) /\
                  ((j < bi)%nat -> d < Qabs (time x - pos))
  end.

(** Two managers agree on the marker list and on the two stacks. *)
Definition same_core (a b : MarkerManager) : Prop :=
  markers a = markers b /\ undo_stack a = undo_stack b /\
  redo_stack a = redo_stack b.

(** The rows of the non-fixed markers with their dicts, the rows counted
    from [i]. *)
Fixpoint user_rows (i : nat) (l : list Marker) : list (nat * Marker) :=
  match l with
  | [] => []
  | m :: tl =>
      if is_fixed m then user_rows (S i) tl else (i, m) :: user_rows (S i) tl
  end.

(** The response is an error that the retry loop answers by another
    attempt. *)
Definition wants_retry (response : Response) : bool :=
  match response with
  | Some {| reply_error := Some error |} =>
      negb (String.eqb error "success")
      && (String.eqb error "property unavailable"
          || contains "error running command" error)
  | _ => false
  end.

(* ================================================================== *)
(** * Properties *)

(* ------------------------------------------------------------------ *)
(** ** The comparisons *)

Lemma Qleb_le (x y : Q) : Qleb x y = true <-> x <= y.
Proof. unfold Qleb. apply Qle_bool_iff. Qed.

Lemma Qltb_lt (x y : Q) : Qltb x y = true <-> x < y.
Proof.
  unfold Qltb. rewrite negb_true_iff. split; intro H.
  - apply Qnot_le_lt. intro Hle. apply Qle_bool_iff in Hle. congruence.
  - destruct (Qle_bool y x) eqn:E; [|reflexivity].
    apply Qle_bool_iff in E. exfalso. apply (Qlt_not_le _ _ H E).
Qed.

Lemma Qeqb_eq (x y : Q) : Qeqb x y = true <-> x == y.
Proof. unfold Qeqb. apply Qeq_bool_iff. Qed.

Lemma Qleb_false (x y : Q) : Qleb x y = false <-> y < x.
Proof.
  rewrite <- Qltb_lt. unfold Qltb, Qleb.
  destruct (Qle_bool x y); simpl; split; congruence.
Qed.

Lemma Qltb_false (x y : Q) : Qltb x y = false <-> y <= x.
Proof.
  rewrite <- Qleb_le. unfold Qltb, Qleb.
  destruct (Qle_bool y x); simpl; split; congruence.
Qed.

Lemma Qeqb_false (x y : Q) : Qeqb x y = false <-> ~ x == y.
Proof.
  rewrite <- Qeqb_eq. destruct (Qeqb x y); split; congruence.
Qed.

Lemma Qeqb_refl (x : Q) : Qeqb x x = true.
Proof. apply Qeqb_eq. reflexivity. Qed.

(* ------------------------------------------------------------------ *)
(** ** The sort *)

Section SortFacts.

Context {A : Type} (val : A -> Marker).

Let le_obj (a b : A) : Prop := time (val a) <= time (val b).

Lemma insert_obj_perm (m : A) (l : list A) :
  Permutation (insert_obj val m l) (m :: l).
Proof.
  induction l as [|x tl IH]; simpl.
  - reflexivity.
  - destruct (Qleb (time (val m)) (time (val x))).
    + reflexivity.
    + rewrite IH. apply perm_swap.
Qed.

Lemma sort_objs_perm (l : list A) : Permutation (sort_objs val l) l.
Proof.
  induction l as [|x tl IH]; simpl.
  - reflexivity.
  - rewrite insert_obj_perm. now constructor.
Qed.

Lemma sort_objs_length (l : list A) :
  List.length (sort_objs val l) = List.length l.
Proof. apply Permutation_length, sort_objs_perm. Qed.

Lemma insert_obj_sorted (m : A) (l : list A) :
  StronglySorted le_obj l -> StronglySorted le_obj (insert_obj val m l).
Proof.
  induction 1 as [|x tl Hs IH Hall]; simpl.
  - repeat constructor.
  - destruct (Qleb (time (val m)) (time (val x))) eqn:E.
    + apply Qleb_le in E. constructor.
      * now constructor.
      * constructor; [exact E|].
        eapply Forall_impl; [|exact Hall].
        intros b Hb. unfold le_obj in *. simpl in *.
        apply Qle_trans with (time (val x)); assumption.
    + apply Qleb_false in E. constructor; [exact IH|].
      eapply Permutation_Forall.
      * symmetry. apply insert_obj_perm.
      * constructor; [unfold le_obj; apply Qlt_le_weak, E | exact Hall].
Qed.

Lemma sort_objs_sorted (l : list A) : StronglySorted le_obj (sort_objs val l).
Proof.
  induction l as [|x tl IH]; simpl.
  - constructor.
  - now apply insert_obj_sorted.
Qed.

(** Sorting a sorted list changes nothing. *)
Lemma insert_obj_sorted_head (m : A) (l : list A) :
  Forall (le_obj m) l -> insert_obj val m l = m :: l.
Proof.
  destruct l as [|x tl]; simpl; [reflexivity|].
  intro H. inversion H as [|? ? Hx _]; subst.
  apply Qleb_le in Hx. now rewrite Hx.
Qed.

Lemma sort_objs_id (l : list A) :
  StronglySorted le_obj l -> sort_objs val l = l.
Proof.
  induction 1 as [|x tl Hs IH Hall]; simpl; [reflexivity|].
  rewrite IH. now apply insert_obj_sorted_head.
Qed.

End SortFacts.

Lemma sort_by_time_perm (l : list Marker) : Permutation (sort_by_time l) l.
Proof. apply sort_objs_perm. Qed.

Lemma sort_by_time_sorted (l : list Marker) :
  StronglySorted time_le (sort_by_time l).
Proof. apply (sort_objs_sorted (fun m : Marker => m)). Qed.

Lemma sort_by_time_length (l : list Marker) :
  List.length (sort_by_time l) = List.length l.
Proof. apply sort_objs_length. Qed.

Lemma sort_by_time_id (l : list Marker) :
  StronglySorted time_le l -> sort_by_time l = l.
Proof. apply (sort_objs_id (fun m : Marker => m)). Qed.

(* ------------------------------------------------------------------ *)
(** ** Segment construction *)

Lemma Segment_init_ok (i : nat) (a b : Q) (cmt cnt : string) :
  a <= b ->
  Segment_init i a b cmt cnt =
  Ok {| index := i; start_time := a; end_time := b; duration := b - a;
        seg_comment := cmt; seg_content := cnt |}.
Proof.
  intro H. unfold Segment_init.
  apply Qltb_false in H. now rewrite H.
Qed.

Lemma Segment_init_raise (i : nat) (a b : Q) (cmt cnt : string) :
  b < a -> Segment_init i a b cmt cnt = Raise ValueError.
Proof.
  intro H. unfold Segment_init.
  apply Qltb_lt in H. now rewrite H.
Qed.

Lemma build_segments_step (i : nat) (m1 m2 : Marker) (tl : list Marker)
    (existing : list Segment) (used : list nat) :
  build_segments i (m1 :: m2 :: tl) existing used =
  let '(preserved_content, used') :=
    migrate_content existing (time m1) (time m2) used in
  match Segment_init i (time m1) (time m2) (get_comment m1) preserved_content with
  | Raise e => Raise e
  | Ok segment =>
      match build_segments (S i) (m2 :: tl) existing used' with
      | Raise e => Raise e
      | Ok (segs, u) => Ok (segment :: segs, u)
      end
  end.
Proof. reflexivity. Qed.

Lemma build_segments_total (ms : list Marker) :
  StronglySorted time_le ms ->
  forall (i : nat) (existing : list Segment) (used : list nat),
  exists segs u,
    build_segments i ms existing used = Ok (segs, u) /\
    List.length segs = pred (List.length ms) /\
    forall k s, nth_error segs k = Some s -> segment_of_pair ms k (i + k) s.
Proof.
  induction 1 as [|m1 tl Hs IH Hall]; intros i existing used.
  - exists [], used. simpl. repeat split; trivial.
    intros [|k] s; discriminate.
  - destruct tl as [|m2 tl'].
    + exists [], used. simpl. repeat split; trivial.
      intros [|k] s; discriminate.
    + rewrite build_segments_step.
      destruct (migrate_content existing (time m1) (time m2) used)
        as [preserved used'] eqn:Emig.
      assert (Hle : time m1 <= time m2).
      { inversion Hall; subst. assumption. }
      rewrite (Segment_init_ok _ _ _ _ _ Hle).
      destruct (IH (S i) existing used') as (segs & u & Hb & Hlen & Hn).
      rewrite Hb. eexists; exists u. split; [reflexivity|]. split.
      * simpl. simpl in Hlen. now rewrite Hlen.
      * intros [|k] s Hk.
        -- simpl in Hk. injection Hk as <-.
           exists m1, m2. simpl. rewrite Nat.add_0_r.
           repeat split; trivial. lra.
        -- simpl in Hk. destruct (Hn k s Hk)
             as (a & b & Ha & Hb' & Hi & Hst & Hen & Hd & Hc & Hle' & Hd0).
           exists a, b. simpl nth_error.
           repeat split; trivial. lia.
Qed.

Lemma calculate_segments_total (markers : list Marker) (existing : list Segment) :
  exists segs,
    _calculate_segments markers existing = Ok segs /\
    List.length segs = pred (List.length markers) /\
    forall k s, nth_error segs k = Some s ->
                segment_of_pair (sort_by_time markers) k k s.
Proof.
  unfold _calculate_segments, calculate_segments_used.
  destruct (build_segments_total _ (sort_by_time_sorted markers) 0%nat existing [])
    as (segs & u & Hb & Hlen & Hn).
  rewrite sort_by_time_length in *.
  destruct (List.length markers <? 2)%nat eqn:E.
  - apply Nat.ltb_lt in E. exists []. split; [reflexivity|]. split.
    + simpl. lia.
    + intros [|k] s; discriminate.
  - rewrite Hb. exists segs. repeat split; trivial.
Qed.

(* ------------------------------------------------------------------ *)
(** ** The segment at a time *)

Lemma contains_time_spec (s : Segment) (t : Q) :
  contains_time s t = true <-> start_time s <= t /\ t <= end_time s.
Proof.
  unfold contains_time. rewrite andb_true_iff, !Qleb_le. tauto.
Qed.

Lemma max_by_index_spec (l : list Segment) :
  forall best,
    In (max_by_index best l) (best :: l) /\
    forall s, In s (best :: l) -> (index s <= index (max_by_index best l))%nat.
Proof.
  induction l as [|x tl IH]; intro best; simpl.
  - split; [now left|]. intros s [<-|[]]. lia.
  - destruct (index best <? index x)%nat eqn:E.
    + apply Nat.ltb_lt in E. destruct (IH x) as [Hin Hmax]. split.
      * right. exact Hin.
      * intros s [<-|Hs].
        -- specialize (Hmax x (or_introl eq_refl)). lia.
        -- now apply Hmax.
    + apply Nat.ltb_ge in E. destruct (IH best) as [Hin Hmax]. split.
      * destruct Hin as [Hin|Hin]; [now left | right; now right].
      * intros s [<-|[<-|Hs]].
        -- apply Hmax. now left.
        -- specialize (Hmax best (or_introl eq_refl)). lia.
        -- apply Hmax. now right.
Qed.

(** Claim C7.  For a marker list with n >= 2 markers, segment
    recomputation returns exactly n - 1 segments, indexed 0 .. n - 2;
    segment number i starts at the i-th and ends at the (i+1)-th marker
    of the list sorted ascending by time (a sorted permutation of the
    marker list), and its duration is end_time - start_time.  With fewer
    than 2 markers it returns the empty list; it never raises. *)
Theorem C7_segments_from_markers (markers : list Marker) (existing : list Segment) :
  let sorted_markers := sort_by_time markers in
  Permutation sorted_markers markers /\
  StronglySorted time_le sorted_markers /\
  ((List.length markers < 2)%nat -> _calculate_segments markers existing = Ok []) /\
  ((2 <= List.length markers)%nat ->
   exists segs,
     _calculate_segments markers existing = Ok segs /\
     List.length segs = (List.length markers - 1)%nat /\
     forall i, (i < List.length markers - 1)%nat ->
       exists s m1 m2,
         nth_error segs i = Some s /\
         nth_error sorted_markers i = Some m1 /\
         nth_error sorted_markers (S i) = Some m2 /\
         index s = i /\
         start_time s = time m1 /\ end_time s = time m2 /\
         duration s = end_time s - start_time s).
Proof.
  intro sorted_markers.
  split; [apply sort_by_time_perm|].
  split; [apply sort_by_time_sorted|].
  destruct (calculate_segments_total markers existing) as (segs & Hc & Hlen & Hn).
  split.
  - intro Hlt. rewrite Hc. f_equal.
    destruct segs; [reflexivity|]. simpl in Hlen. lia.
  - intro Hge. exists segs. split; [exact Hc|]. split; [lia|].
    intros i Hi.
    destruct (nth_error segs i) as [s|] eqn:Es.
    + destruct (Hn i s Es) as (m1 & m2 & H1 & H2 & Hidx & Hst & Hen & Hd & _).
      exists s, m1, m2. repeat split; assumption.
    + apply nth_error_None in Es. lia.
Qed.

Lemma C7_segments_from_markers_witness :
  (2 <= List.length markers_0_10_25_40)%nat /\
  exists segs,
    _calculate_segments markers_0_10_25_40 [] = Ok segs /\
    List.length segs = 3%nat.
Proof.
  split.
  - simpl. lia.
  - destruct (C7_segments_from_markers markers_0_10_25_40 [])
      as (_ & _ & _ & H).
    destruct H as (segs & Hc & Hlen & _).
    + simpl. lia.
    + exists segs. split; [exact Hc | exact Hlen].
Defined.

(** Claim C8.  Segments are closed intervals.  When some segment
    contains t, [get_segment_at_time] returns a segment of the list that
    contains t and whose index is the highest among those containing t
    (so at a boundary shared by two adjacent segments the later one
    wins); when no segment contains t it returns None. *)
Theorem C8_segment_at_time (segments : list Segment) (t : Q) :
  (forall s, contains_time s t = true <-> start_time s <= t /\ t <= end_time s) /\
  ((exists s, In s segments /\ contains_time s t = true) ->
   exists r,
     get_segment_at_time segments t = Some r /\
     In r segments /\ contains_time r t = true /\
     forall s, In s segments -> contains_time s t = true ->
               (index s <= index r)%nat) /\
  ((forall s, In s segments -> contains_time s t = false) ->
   get_segment_at_time segments t = None).
Proof.
  split; [intro s; apply contains_time_spec|].
  unfold get_segment_at_time.
  destruct (filter (fun s => contains_time s t) segments) as [|c cs] eqn:Ef.
  - split.
    + intros (s & Hin & Hc).
      assert (Hf : In s (filter (fun s => contains_time s t) segments))
        by (apply filter_In; now split).
      rewrite Ef in Hf. destruct Hf.
    + reflexivity.
  - split.
    + intros _. destruct (max_by_index_spec cs c) as [Hin Hmax].
      exists (max_by_index c cs). split; [reflexivity|].
      rewrite <- Ef in Hin. apply filter_In in Hin. destruct Hin as [Hin Hc].
      repeat split; trivial.
      intros s Hs Hcs. apply Hmax. rewrite <- Ef. apply filter_In. now split.
    + intro Hnone.
      assert (Hf : In c (filter (fun s => contains_time s t) segments))
        by (rewrite Ef; now left).
      apply filter_In in Hf. destruct Hf as [Hin Hc].
      rewrite (Hnone c Hin) in Hc. discriminate.
Qed.

Lemma C8_segment_at_time_witness :
  exists r, get_segment_at_time segments_10_25_40 25 = Some r /\ index r = 1%nat.
Proof.
  destruct (C8_segment_at_time segments_10_25_40 25) as (_ & H & _).
  destruct H as (r & Hr & _ & _ & Hmax).
  - eexists. split; [right; left; reflexivity | reflexivity].
  - exists r. split; [exact Hr|].
    vm_compute in Hr. injection Hr as <-. reflexivity.
Defined.

(** Claim C10.  [Segment.__init__] raises [ValueError] exactly when
    start_time > end_time, and never from segment recomputation:
    [_calculate_segments] always returns, and every segment it builds has
    start_time <= end_time and duration >= 0. *)
Theorem C10_segment_init_guard :
  (forall i a b cmt cnt,
     (Segment_init i a b cmt cnt = Raise ValueError <-> b < a) /\
     (b < a \/ exists s, Segment_init i a b cmt cnt = Ok s)) /\
  (forall markers existing,
     exists segs,
       _calculate_segments markers existing = Ok segs /\
       Forall (fun s => start_time s <= end_time s /\ 0 <= duration s) segs).
Proof.
  split.
  - intros i a b cmt cnt. unfold Segment_init.
    destruct (Qltb b a) eqn:E.
    + apply Qltb_lt in E. split; [tauto | now left].
    + apply Qltb_false in E. split.
      * split; [discriminate | intro H; lra].
      * right. eexists. reflexivity.
  - intros markers existing.
    destruct (calculate_segments_total markers existing) as (segs & Hc & _ & Hn).
    exists segs. split; [exact Hc|].
    apply Forall_forall. intros s Hs.
    apply In_nth_error in Hs. destruct Hs as [k Hk].
    destruct (Hn k s Hk) as (m1 & m2 & _ & _ & _ & _ & _ & _ & _ & Hle & Hd).
    now split.
Qed.

(* ------------------------------------------------------------------ *)
(** ** Content migration: every old segment is used at most once *)

Lemma in_used_In (j : nat) (used : list nat) :
  in_used j used = true <-> In j used.
Proof.
  unfold in_used. rewrite existsb_exists. split.
  - intros (x & Hx & E). apply Nat.eqb_eq in E. now subst.
  - intro H. exists j. split; [exact H | apply Nat.eqb_refl].
Qed.

Lemma in_used_not_In (j : nat) (used : list nat) :
  in_used j used = false <-> ~ In j used.
Proof.
  rewrite <- in_used_In. destruct (in_used j used); split; congruence.
Qed.






(* ------------------------------------------------------------------ *)
(** ** Content migration: split and merge *)

Lemma used_below_cons (n : nat) (used : list nat) :
  used_below n used -> used_below (S n) (n :: used).
Proof.
  intros H j. simpl. rewrite (H j). lia.
Qed.

Lemma used_below_fresh (n : nat) (used : list nat) :
  used_below n used -> in_used n used = false.
Proof.
  intro H. apply in_used_not_In. rewrite (H n). lia.
Qed.

Lemma used_below_in (n j : nat) (used : list nat) :
  used_below n used -> (j < n)%nat -> in_used j used = true.
Proof.
  intros H Hj. apply in_used_In. now apply H.
Qed.

Section Passes.

Variables (existing : list Segment) (ns ne : Q) (used : list nat).

Lemma exact_or_split_skip (pre rest : list Segment) :
  forall j,
    (forall k, (k < List.length pre)%nat -> in_used (j + k) used = true) ->
    exact_or_split j (pre ++ rest) ns ne used =
    exact_or_split (j + List.length pre) rest ns ne used.
Proof.
  induction pre as [|o pre' IH]; intros j H; simpl.
  - now rewrite Nat.add_0_r.
  - pose proof (H 0%nat ltac:(simpl; lia)) as H0.
    rewrite Nat.add_0_r in H0. rewrite H0, IH.
    + f_equal. lia.
    + intros k Hk. replace (S j + k)%nat with (j + S k)%nat by lia.
      apply H. simpl. lia.
Qed.

Lemma exact_or_split_elsewhere (olds : list Segment) :
  forall j,
    Forall (starts_elsewhere ns) olds ->
    exact_or_split j olds ns ne used = None.
Proof.
  induction olds as [|o tl IH]; intros j H; simpl; [reflexivity|].
  inversion H as [|? ? Ho Htl]; subst.
  destruct (in_used j used); [now apply IH|].
  assert (E1 : Qeqb (start_time o) ns = false) by now apply Qeqb_false.
  assert (E2 : Qeqb ns (start_time o) = false).
  { apply Qeqb_false. intro E. apply Ho. now symmetry. }
  rewrite E1, E2. simpl.
  destruct (Qleb (start_time o) ns && Qltb ns ne && Qleb ne (end_time o));
    now apply IH.
Qed.


Lemma merge_pass_skip (pre rest : list Segment) (c : string) :
  forall j,
    (forall k, (k < List.length pre)%nat -> in_used (j + k) used = true) ->
    merge_pass j (pre ++ rest) existing ns ne c used =
    merge_pass (j + List.length pre) rest existing ns ne c used.
Proof.
  induction pre as [|o pre' IH]; intros j H; simpl.
  - now rewrite Nat.add_0_r.
  - pose proof (H 0%nat ltac:(simpl; lia)) as H0.
    rewrite Nat.add_0_r in H0. rewrite H0, IH.
    + f_equal. lia.
    + intros k Hk. replace (S j + k)%nat with (j + S k)%nat by lia.
      apply H. simpl. lia.
Qed.

Lemma merge_pass_elsewhere (olds : list Segment) (c : string) :
  forall j,
    Forall (starts_elsewhere ns) olds ->
    merge_pass j olds existing ns ne c used = (c, used).
Proof.
  induction olds as [|o tl IH]; intros j H; simpl; [reflexivity|].
  inversion H as [|? ? Ho Htl]; subst.
  destruct (in_used j used); [now apply IH|].
  assert (E1 : Qeqb (start_time o) ns = false) by now apply Qeqb_false.
  rewrite E1. now apply IH.
Qed.

End Passes.

Lemma exact_or_split_cons (j : nat) (old_seg : Segment) (tl : list Segment)
    (ns ne : Q) (used : list nat) :
  exact_or_split j (old_seg :: tl) ns ne used =
  if in_used j used then exact_or_split (S j) tl ns ne used
  else if Qeqb (start_time old_seg) ns && Qeqb (end_time old_seg) ne then
    Some (seg_content old_seg, j)
  else if Qleb (start_time old_seg) ns && Qltb ns ne
          && Qleb ne (end_time old_seg) then
    if Qeqb ns (start_time old_seg) then Some (seg_content old_seg, j)
    else exact_or_split (S j) tl ns ne used
  else exact_or_split (S j) tl ns ne used.
Proof. reflexivity. Qed.

Lemma merge_partner_cons (k : nat) (old_seg2 : Segment) (tl : list Segment)
    (j : nat) (old_seg : Segment) (ne : Q) (used : list nat) :
  merge_partner k (old_seg2 :: tl) j old_seg ne used =
  if in_used k used || Nat.eqb k j then
    merge_partner (S k) tl j old_seg ne used
  else if Qeqb (end_time old_seg2) ne
          && Qeqb (end_time old_seg) (start_time old_seg2) then
    Some (merged_content (seg_content old_seg) (seg_content old_seg2), k)
  else merge_partner (S k) tl j old_seg ne used.
Proof. reflexivity. Qed.

Lemma merge_pass_cons (j : nat) (old_seg : Segment) (tl existing : list Segment)
    (ns ne : Q) (c : string) (used : list nat) :
  merge_pass j (old_seg :: tl) existing ns ne c used =
  if in_used j used then merge_pass (S j) tl existing ns ne c used
  else if Qeqb (start_time old_seg) ns then
    match merge_partner 0 existing j old_seg ne used with
    | Some (c', k) => merge_pass (S j) tl existing ns ne c' (k :: j :: used)
    | None => merge_pass (S j) tl existing ns ne c used
    end
  else merge_pass (S j) tl existing ns ne c used.
Proof. reflexivity. Qed.

Lemma in_used_prefix (n : nat) (used : list nat) :
  used_below n used ->
  forall k, (k < n)%nat -> in_used (0 + k) used = true.
Proof. intros H k Hk. simpl. now apply (used_below_in n). Qed.

(** An unused old segment that starts where the new one starts and does
    not end before it gives its content (exact match or split). *)
Lemma migrate_left_aligned (E0 post : list Segment) (o : Segment)
    (ns ne : Q) (used : list nat) :
  used_below (List.length E0) used ->
  start_time o = ns -> ns < ne -> ne <= end_time o ->
  Forall (starts_elsewhere ns) post ->
  migrate_content (E0 ++ o :: post) ns ne used =
  (seg_content o, List.length E0 :: used).
Proof.
  intros Hu Hs Hlt Hle Hpost. unfold migrate_content.
  rewrite exact_or_split_skip by (apply in_used_prefix; exact Hu).
  assert (Hfound : exact_or_split (0 + List.length E0) (o :: post) ns ne used
                   = Some (seg_content o, List.length E0)).
  { simpl. rewrite (used_below_fresh _ _ Hu).
    subst ns. rewrite !Qeqb_refl. simpl.
    destruct (Qeqb (end_time o) ne); [reflexivity|].
    assert (E1 : Qleb (start_time o) (start_time o) = true)
      by (apply Qleb_le; lra).
    assert (E2 : Qltb (start_time o) ne = true) by now apply Qltb_lt.
    assert (E3 : Qleb ne (end_time o) = true) by now apply Qleb_le.
    now rewrite E1, E2, E3. }
  rewrite Hfound.
  change (E0 ++ o :: post)%list with (E0 ++ [o] ++ post)%list at 1.
  rewrite app_assoc.
  rewrite merge_pass_skip.
  - apply merge_pass_elsewhere. exact Hpost.
  - intros k Hk. rewrite length_app in Hk. simpl in Hk.
    apply (used_below_in (S (List.length E0))).
    + now apply used_below_cons.
    + lia.
Qed.

(** When no unused old segment starts where the new one starts, the new
    segment gets the empty content. *)
Lemma migrate_nothing (E0 post : list Segment) (ns ne : Q) (used : list nat) :
  used_below (List.length E0) used ->
  Forall (starts_elsewhere ns) post ->
  migrate_content (E0 ++ post) ns ne used = ("", used).
Proof.
  intros Hu Hpost. unfold migrate_content.
  rewrite exact_or_split_skip by (apply in_used_prefix; exact Hu).
  rewrite exact_or_split_elsewhere by exact Hpost.
  rewrite merge_pass_skip by (apply in_used_prefix; exact Hu).
  apply merge_pass_elsewhere. exact Hpost.
Qed.


Lemma build_step (i : nat) (m1 m2 : Marker) (tl : list Marker)
    (existing : list Segment) (used used' : list nat) (c : string) :
  migrate_content existing (time m1) (time m2) used = (c, used') ->
  time m1 <= time m2 ->
  build_segments i (m1 :: m2 :: tl) existing used =
  match build_segments (S i) (m2 :: tl) existing used' with
  | Ok (segs, u) =>
      Ok ({| index := i; start_time := time m1; end_time := time m2;
             duration := time m2 - time m1;
             seg_comment := get_comment m1; seg_content := c |} :: segs, u)
  | Raise e => Raise e
  end.
Proof.
  intros Hm Hle. rewrite build_segments_step, Hm.
  rewrite (Segment_init_ok _ _ _ _ _ Hle). reflexivity.
Qed.

Lemma ranges_cons2 (a b : Q) (tl : list Q) :
  ranges (a :: b :: tl) = (a, b) :: ranges (b :: tl).
Proof. reflexivity. Qed.

Lemma ranges_app_mid (l1 : list Q) (a : Q) (rest : list Q) :
  ranges (l1 ++ a :: rest) = (ranges (l1 ++ [a]) ++ ranges (a :: rest))%list.
Proof.
  induction l1 as [|x l1' IH]; [reflexivity|].
  destruct l1' as [|y l1''].
  - reflexivity.
  - change (ranges ((x :: y :: l1'') ++ a :: rest))
      with ((x, y) :: ranges ((y :: l1'') ++ a :: rest)).
    rewrite IH. reflexivity.
Qed.

Lemma ranges_starts_after (x : Q) (ts : list Q) :
  Forall (Qlt x) ts -> Forall (fun r => x < fst r) (ranges ts).
Proof.
  induction ts as [|a tl IH]; intro H; [constructor|].
  destruct tl as [|b tl']; [constructor|].
  rewrite ranges_cons2. inversion H; subst.
  constructor; [assumption | now apply IH].
Qed.

Lemma starts_after_elsewhere (x : Q) (segs : list Segment) (ts : list Q) :
  map seg_range segs = ranges ts ->
  Forall (Qlt x) ts ->
  Forall (fun o => x < start_time o) segs.
Proof.
  intros Hr Hts. apply ranges_starts_after in Hts. rewrite <- Hr in Hts.
  rewrite Forall_forall in *. intros o Ho.
  apply (Hts (seg_range o)). now apply in_map.
Qed.

Lemma after_elsewhere (x : Q) (segs : list Segment) :
  Forall (fun o => x < start_time o) segs ->
  Forall (starts_elsewhere x) segs.
Proof.
  apply Forall_impl. intros o H E. unfold starts_elsewhere in *.
  rewrite E in H. lra.
Qed.

Lemma StronglySorted_app_inv {A : Type} (R : A -> A -> Prop) (l1 l2 : list A) :
  StronglySorted R (l1 ++ l2) ->
  StronglySorted R l1 /\ StronglySorted R l2 /\
  forall x y, In x l1 -> In y l2 -> R x y.
Proof.
  induction l1 as [|a l1' IH]; simpl; intro H.
  - repeat split; [constructor | exact H | intros x y []].
  - inversion H as [|? ? Hs Hall]; subst.
    destruct (IH Hs) as (H1 & H2 & H3).
    apply Forall_app in Hall. destruct Hall as [Ha1 Ha2].
    repeat split.
    + now constructor.
    + exact H2.
    + intros x y [<-|Hx] Hy.
      * rewrite Forall_forall in Ha2. now apply Ha2.
      * now apply H3.
Qed.

Arguments build_segments : simpl never.

(** The new segments before the place of the change are the old ones:
    each finds its old segment by the exact-match rule, and after [front]
    of them the used old segments are the first [|front|]. *)
Lemma build_same_prefix (back : list Marker) (m : Marker) (post : list Segment) :
  forall (front : list Marker) (E0 E1 : list Segment) (used : list nat),
    map seg_range E1 = ranges (map time (front ++ [m])) ->
    StronglySorted Qlt (map time (front ++ [m])) ->
    Forall (fun o => time m <= start_time o) post ->
    used_below (List.length E0) used ->
    exists segsF used',
      List.length segsF = List.length front /\
      List.length E1 = List.length front /\
      used_below (List.length E0 + List.length front) used' /\
      build_segments (List.length E0) (front ++ m :: back)
                     (E0 ++ E1 ++ post) used =
      match build_segments (List.length E0 + List.length front) (m :: back)
                           (E0 ++ E1 ++ post) used' with
      | Ok (segs, u) => Ok ((segsF ++ segs)%list, u)
      | Raise e => Raise e
      end.
Proof.
  induction front as [|f front' IH]; intros E0 E1 used Hr Hs Hpost Hu.
  - simpl in Hr. apply map_eq_nil in Hr. subst E1.
    exists [], used. rewrite Nat.add_0_r.
    split; [reflexivity|]. split; [reflexivity|]. split; [exact Hu|].
    cbn [app].
    destruct (build_segments (List.length E0) (m :: back) (E0 ++ post) used)
      as [[segs u]|e]; reflexivity.
  - assert (Hnext : exists n tl r,
               (front' ++ m :: back)%list = n :: tl /\
               map time (front' ++ [m]) = time n :: r).
    { destruct front' as [|g front'']; simpl; eauto. }
    destruct Hnext as (n & tl & r & Htl & Hts).
    change (map time ((f :: front') ++ [m]))
      with (time f :: map time (front' ++ [m])) in Hr, Hs.
    inversion Hs as [|? ? Hs' Hall]; subst.
    assert (Hfn : time f < time n).
    { rewrite Hts in Hall. now inversion Hall. }
    assert (Hfm : time f < time m).
    { rewrite Forall_forall in Hall. apply Hall.
      apply in_map, in_or_app. right. now left. }
    rewrite Hts, ranges_cons2 in Hr.
    apply map_eq_cons in Hr. destruct Hr as (o & E1' & -> & Ho & Hr').
    injection Ho as Hos Hoe.
    rewrite <- Hts in Hr'.
    destruct (IH (E0 ++ [o])%list E1' (List.length E0 :: used) Hr' Hs' Hpost)
      as (segsF & used' & HlF & HlE & Hu' & Heq).
    { rewrite length_app. simpl. rewrite Nat.add_1_r.
      now apply used_below_cons. }
    rewrite length_app in Heq, Hu'. simpl in Heq, Hu'.
    rewrite Nat.add_1_r in Heq, Hu'.
    rewrite <- app_assoc in Heq. simpl in Heq.
    eexists (_ :: segsF), used'.
    split; [simpl; now rewrite HlF|].
    split; [simpl; now rewrite HlE|].
    split.
    { simpl. replace (List.length E0 + S (List.length front'))%nat
        with (S (List.length E0) + List.length front')%nat by lia.
      exact Hu'. }
    change ((f :: front') ++ m :: back)%list
      with (f :: (front' ++ m :: back))%list.
    rewrite Htl.
    change ((o :: E1') ++ post)%list with (o :: (E1' ++ post))%list.
    rewrite (build_step _ f n tl _ used (List.length E0 :: used) (seg_content o)).
    + rewrite <- Htl, Heq.
      replace (List.length E0 + List.length (f :: front'))%nat
        with (S (List.length E0) + List.length front')%nat by (simpl; lia).
      destruct (build_segments _ (m :: back) _ used') as [[segs u]|e];
        reflexivity.
    + apply migrate_left_aligned; trivial.
      * rewrite Hoe. lra.
      * apply Forall_app. split.
        -- apply after_elsewhere.
           eapply starts_after_elsewhere; [exact Hr' | exact Hall].
        -- apply after_elsewhere.
           eapply Forall_impl; [|exact Hpost]. intros x Hx. simpl in Hx. lra.
    + lra.
Qed.

Lemma StronglySorted_prefix (l1 : list Q) (a : Q) (rest : list Q) :
  StronglySorted Qlt (l1 ++ a :: rest) -> StronglySorted Qlt (l1 ++ [a]).
Proof.
  induction l1 as [|x l1' IH]; simpl; intro H.
  - repeat constructor.
  - inversion H as [|? ? Hs Hall]; subst. constructor; [now apply IH|].
    apply Forall_app in Hall. destruct Hall as [H1 H2].
    apply Forall_app. split; [exact H1|].
    inversion H2; subst. now repeat constructor.
Qed.

Lemma used_below_0 : used_below 0 [].
Proof. intro j. simpl. lia. Qed.

Lemma nth_error_middle {A : Type} (l1 : list A) (x : A) (l2 : list A) (n : nat) :
  n = List.length l1 -> nth_error (l1 ++ x :: l2) n = Some x.
Proof.
  intros ->. rewrite nth_error_app2 by lia. now rewrite Nat.sub_diag.
Qed.







(* ------------------------------------------------------------------ *)
(** ** The marker manager *)

Lemma pop_app {A : Type} (l : list A) (x : A) : pop (l ++ [x]) = Some (l, x).
Proof.
  unfold pop. rewrite rev_app_distr. simpl. now rewrite rev_involutive.
Qed.

Lemma filter_length_le {A : Type} (f : A -> bool) (l : list A) :
  (List.length (filter f l) <= List.length l)%nat.
Proof.
  induction l as [|x tl IH]; simpl; [lia|].
  destruct (f x); simpl; lia.
Qed.

Lemma update_at_middle (f : Marker -> Marker) (l1 : list Marker) (m : Marker)
    (l2 : list Marker) :
  update_at (List.length l1) f (l1 ++ m :: l2) = (l1 ++ f m :: l2)%list.
Proof.
  induction l1 as [|x l1' IH]; simpl; [reflexivity|]. now rewrite IH.
Qed.

Lemma remove_at_middle (l1 : list Marker) (m : Marker) (l2 : list Marker) :
  remove_at (List.length l1) (l1 ++ m :: l2) = (l1 ++ l2)%list.
Proof.
  unfold remove_at.
  induction l1 as [|x l1' IH]; simpl; [reflexivity|].
  f_equal. exact IH.
Qed.

(** Claim C6.  With 100 markers besides the fixed ones, both add
    operations are rejected: the state is unchanged up to the status
    text, which is the capacity message when a file is loaded. *)
Theorem C6_capacity (inp : Inputs) (mm : MarkerManager) :
  List.length (filter (fun m => negb (is_fixed m)) (markers mm)) = 100%nat ->
  let rejected :=
    set_status (if current_file mm then MaximumMarkersReached 100
                else NoFileLoaded) mm in
  add_marker inp mm = rejected /\
  add_marker_at_time inp mm = rejected /\
  markers rejected = markers mm /\
  undo_stack rejected = undo_stack mm /\
  redo_stack rejected = redo_stack mm.
Proof.
  intros H rejected.
  pose proof (filter_length_le (fun m => negb (is_fixed m)) (markers mm)) as Hle.
  rewrite H in Hle.
  assert (E : (max_markers <=? List.length (markers mm))%nat = true)
    by (apply Nat.leb_le; exact Hle).
  unfold add_marker, add_marker_at_time, rejected.
  rewrite E. destruct (current_file mm); simpl; repeat split; reflexivity.
Qed.

Lemma C6_capacity_witness :
  status_label (add_marker (inputs (Some 500) ("0", 0%Z) ("0", 0%Z) []) full_manager)
  = MaximumMarkersReached 100 /\
  markers (add_marker_at_time (inputs None ("0", 0%Z) ("7", 7%Z) []) full_manager)
  = markers full_manager.
Proof.
  split.
  - destruct (C6_capacity (inputs (Some 500) ("0", 0%Z) ("0", 0%Z) []) full_manager)
      as (H & _); [vm_compute; reflexivity|].
    rewrite H. reflexivity.
  - destruct (C6_capacity (inputs None ("0", 0%Z) ("7", 7%Z) []) full_manager)
      as (_ & H & _); [vm_compute; reflexivity|].
    rewrite H. reflexivity.
Defined.

(** Claim C9 (evaluation of the code).  The two add operations clamp a
    time within 0.001 of zero to 0.001, so an added marker never has the
    time 0; but they accept a negative time as it is: with -5 in the
    seconds entry, or -5 as preview time, the new marker is stored at -5,
    before Marker0.  The move operation clamps the same request to
    0.001. *)
Theorem C9_add_keeps_negative_time :
  (forall t, Qabs t < 1 # 1000 -> clamp_at_zero t = 1 # 1000) /\
  (forall t, ~ clamp_at_zero t == 0) /\
  map (fun m => (name m, time m))
      (markers (add_marker_at_time (inputs None ("0", 0%Z) ("-5", (-5)%Z) [])
                                   (manager_of fixed_only None)))
  = [("Marker1", -500 # 100); ("Marker0", 0); ("Marker500", 100)] /\
  map (fun m => (name m, time m))
      (markers (add_marker (inputs (Some (-5)) ("0", 0%Z) ("0", 0%Z) [])
                           (manager_of fixed_only None)))
  = [("Marker1", -5); ("Marker0", 0); ("Marker500", 100)] /\
  map (fun m => (name m, time m))
      (markers (update_selected_marker_time
                  (inputs None ("0", 0%Z) ("-5", (-5)%Z) [])
                  (manager_of three_markers (Some 1%nat))))
  = [("Marker0", 0); ("Marker1", 1 # 1000); ("Marker500", 100)].
Proof.
  split.
  - intros t H. unfold clamp_at_zero. apply Qltb_lt in H. now rewrite H.
  - split.
    + intros t. unfold clamp_at_zero.
      destruct (Qltb (Qabs t) (1 # 1000)) eqn:E.
      * intro H. discriminate H.
      * apply Qltb_false in E. intro H. rewrite H in E.
        apply (Qle_not_lt _ _ E). reflexivity.
    + repeat split; vm_compute; reflexivity.
Qed.

(** Claim C4 (evaluation of the code).  [add_marker] never changes the
    undo or the redo stack, also when it adds the marker: adding at 10 to
    the two fixed markers leaves the undo stack empty.  The other add
    operation, [add_marker_at_time], logs the same addition. *)
Theorem C4_add_marker_is_not_logged :
  (forall inp mm,
     undo_stack (add_marker inp mm) = undo_stack mm /\
     redo_stack (add_marker inp mm) = redo_stack mm) /\
  (let mm := add_marker (inputs (Some 10) ("0", 0%Z) ("0", 0%Z) [])
                        (manager_of fixed_only None) in
   markers mm = three_markers /\ status_label mm = AddedMarkerAt 10 /\
   undo_stack mm = []) /\
  (let mm := add_marker_at_time (inputs None ("0", 0%Z) ("10", 10%Z) [])
                                (manager_of fixed_only None) in
   map (fun m => (name m, time m)) (markers mm)
   = [("Marker0", 0); ("Marker1", 1000 # 100); ("Marker500", 100)] /\
   undo_stack mm = [Op_add_marker 1 (mk (1000 # 100) "Marker1")]).
Proof.
  split.
  - intros inp mm. unfold add_marker.
    destruct (negb (current_file mm)); [split; reflexivity|].
    destruct (max_markers <=? List.length (markers mm))%nat; [split; reflexivity|].
    destruct (beyond_duration mm (add_marker_time inp)); [split; reflexivity|].
    destruct (within_1_second (markers mm) (add_marker_time inp));
      [split; reflexivity|].
    destruct (append_and_renumber _ _) as [l new_marker].
    destruct (index_of new_marker l); split; reflexivity.
  - split; repeat split; vm_compute; reflexivity.
Qed.

(** Claim C3 (evaluation of the code).  [undo_action] pops the last
    record and pushes it on the redo stack, and does nothing but report
    when the undo stack is empty; but the record that
    [delete_selected_marker] logs, of action "delete_markers", is not
    inverted: the marker list stays as it is, so the deleted markers are
    not re-inserted. *)
Theorem C3_undo_of_delete_selected :
  (forall mm, undo_stack mm = [] -> undo_action mm = set_status NothingToUndo mm) /\
  (forall mm rest op,
     let mm' := undo_action (set_stacks (rest ++ [op]) (redo_stack mm) mm) in
     undo_stack mm' = rest /\ redo_stack mm' = (redo_stack mm ++ [op])%list) /\
  (forall mm rest markers_data,
     markers (undo_action
                (set_stacks (rest ++ [Op_delete_markers markers_data])
                            (redo_stack mm) mm))
     = markers mm) /\
  (let deleted := delete_selected_marker (inputs None ("0", 0%Z) ("0", 0%Z) [1%nat])
                                         (manager_of three_markers None) in
   markers deleted = fixed_only /\
   undo_stack deleted = [Op_delete_markers [mk 10 "Marker1"]] /\
   markers (undo_action deleted) = fixed_only /\
   undo_stack (undo_action deleted) = [] /\
   redo_stack (undo_action deleted) = [Op_delete_markers [mk 10 "Marker1"]]).
Proof.
  split.
  - intros mm H. unfold undo_action. rewrite H. reflexivity.
  - split.
    + intros mm rest op. unfold undo_action. simpl undo_stack.
      rewrite pop_app. simpl redo_stack.
      destruct op; simpl;
        repeat match goal with
               | |- context [if ?c then _ else _] => destruct c; simpl
               end; split; reflexivity.
    + split.
      * intros mm rest markers_data. unfold undo_action. simpl undo_stack.
        rewrite pop_app. reflexivity.
      * repeat split; vm_compute; reflexivity.
Qed.

(** Where the undo/redo law does hold: for the record of
    [delete_nearest_marker] on a sorted list, undo gives back the list
    before the deletion and redo the list after it. *)
Lemma StronglySorted_remove (l1 : list Marker) (m : Marker) (l2 : list Marker) :
  StronglySorted time_le (l1 ++ m :: l2) -> StronglySorted time_le (l1 ++ l2).
Proof.
  induction l1 as [|x l1' IH]; simpl; intro H.
  - now inversion H.
  - inversion H as [|? ? Hs Hall]; subst. constructor; [now apply IH|].
    apply Forall_app in Hall. destruct Hall as [H1 H2].
    apply Forall_app. split; [exact H1 | now inversion H2].
Qed.

Lemma insert_at_middle (l1 : list Marker) (m : Marker) (l2 : list Marker) :
  insert_at (List.length l1) m (l1 ++ l2) = (l1 ++ m :: l2)%list.
Proof.
  unfold insert_at. induction l1 as [|x l1' IH]; simpl.
  - destruct l2; reflexivity.
  - f_equal. exact IH.
Qed.

Lemma undo_redo_delete_marker (mm : MarkerManager) (idx : nat) (m : Marker) :
  StronglySorted time_le (markers mm) ->
  nth_error (markers mm) idx = Some m ->
  let deleted :=
    set_markers (remove_at idx (markers mm))
                (push_to_undo_stack (Op_delete_marker idx m) mm) in
  markers (undo_action deleted) = markers mm /\
  markers (redo_action (undo_action deleted)) = markers deleted.
Proof.
  intros Hs Hn deleted.
  apply nth_error_split in Hn. destruct Hn as (l1 & l2 & El & <-).
  assert (Eu : exists u, undo_stack deleted = (u ++ [Op_delete_marker (List.length l1) m])%list).
  { unfold deleted, push_to_undo_stack. cbn [undo_stack set_markers set_stacks].
    destruct (undo_stack mm) as [|o u].
    - exists []. reflexivity.
    - destruct (max_history <? _)%nat; [exists u | exists (o :: u)];
        reflexivity. }
  destruct Eu as [u Eu].
  assert (Em : markers deleted = (l1 ++ l2)%list).
  { unfold deleted. cbn [markers set_markers]. rewrite El. apply remove_at_middle. }
  assert (E1 : markers (undo_action deleted) = markers mm).
  { unfold undo_action. rewrite Eu, pop_app.
    cbn [markers set_markers set_stacks set_status]. rewrite Em.
    rewrite insert_at_middle, <- El. now apply sort_by_time_id. }
  split; [exact E1|].
  unfold redo_action.
  assert (Er : redo_stack (undo_action deleted) = [Op_delete_marker (List.length l1) m]).
  { unfold undo_action. rewrite Eu, pop_app. reflexivity. }
  rewrite Er. change (pop [Op_delete_marker (List.length l1) m])
    with (Some (@nil Operation, Op_delete_marker (List.length l1) m)).
  cbn [markers set_markers set_stacks set_status].
  rewrite E1, El.
  replace (List.length l1 <? List.length (l1 ++ m :: l2))%nat with true
    by (symmetry; apply Nat.ltb_lt; rewrite length_app; simpl; lia).
  cbn [markers set_markers set_stacks set_status].
  rewrite remove_at_middle, Em. apply sort_by_time_id.
  rewrite El in Hs. now apply StronglySorted_remove in Hs.
Qed.

(** Claim C2 (evaluation of the code).  Redoing a "delete all" clears
    the whole marker list, the fixed markers included, whatever the list
    was; after delete-all, undo, redo the list is empty, not the
    fixed-only list that delete-all itself left.  And for a move that
    changes the order of the markers, undo and redo write to the marker
    now at the recorded index, which is another one: undo, redo does not
    give back the list after the move. *)
Theorem C2_undo_redo_differs :
  (forall mm rest markers_data,
     markers (redo_action
                (set_stacks (undo_stack mm)
                            (rest ++ [Op_delete_all_markers markers_data]) mm))
     = []) /\
  (let cleared := delete_all_markers (inputs None ("0", 0%Z) ("0", 0%Z) [])
                                     (manager_of three_markers None) in
   markers cleared = fixed_only /\
   markers (undo_action cleared) = three_markers /\
   markers (redo_action (undo_action cleared)) = []) /\
  (let moved := update_selected_marker_time
                  (inputs None ("0", 0%Z) ("30", 30%Z) [])
                  (manager_of four_markers (Some 1%nat)) in
   map (fun m => (name m, time m)) (markers moved)
   = [("Marker0", 0); ("Marker2", 20); ("Marker1", 3000 # 100); ("Marker500", 100)] /\
   map (fun m => (name m, time m)) (markers (undo_action moved))
   = [("Marker0", 0); ("Marker2", 10); ("Marker1", 3000 # 100); ("Marker500", 100)] /\
   map (fun m => (name m, time m)) (markers (redo_action (undo_action moved)))
   = [("Marker0", 0); ("Marker2", 3000 # 100); ("Marker1", 3000 # 100);
      ("Marker500", 100)]).
Proof.
  split.
  - intros mm rest markers_data. unfold redo_action. simpl redo_stack.
    rewrite pop_app. reflexivity.
  - split; repeat split; vm_compute; reflexivity.
Qed.

(* ------------------------------------------------------------------ *)
(** ** The spacing invariant *)

Lemma Qabs_diff_sym (x y : Q) : Qabs (x - y) == Qabs (y - x).
Proof. rewrite Qabs_Qminus. reflexivity. Qed.

Lemma far_apart_sym (a b : Marker) : far_apart a b -> far_apart b a.
Proof.
  unfold far_apart. intros H Hb Ha. rewrite Qabs_diff_sym. now apply H.
Qed.

Lemma apart_sym (a b : Marker) : apart a b -> apart b a.
Proof. unfold apart. intro H. now rewrite Qabs_diff_sym. Qed.

Section Pairs.

Context {A : Type} (R : A -> A -> Prop).
Hypothesis R_sym : forall a b, R a b -> R b a.

Lemma pairs_perm (l l' : list A) :
  Permutation l l' -> ForallOrdPairs R l -> ForallOrdPairs R l'.
Proof.
  induction 1 as [|x l l' Hp IH|x y l|l l' l'' Hp1 IH1 Hp2 IH2]; intro H.
  - exact H.
  - inversion H as [|? ? Hx Hl]; subst. constructor.
    + eapply Permutation_Forall; eassumption.
    + now apply IH.
  - inversion H as [|? ? Hy Hl]; subst.
    inversion Hl as [|? ? Hx Hl']; subst.
    inversion Hy as [|? ? Hyx Hyl]; subst.
    constructor; [constructor; [now apply R_sym | assumption]|].
    now constructor.
  - auto.
Qed.

Lemma pairs_app_inv (l1 l2 : list A) :
  ForallOrdPairs R (l1 ++ l2) ->
  ForallOrdPairs R l1 /\ ForallOrdPairs R l2.
Proof.
  induction l1 as [|x l1' IH]; simpl; intro H.
  - split; [constructor | exact H].
  - inversion H as [|? ? Hx Hl]; subst. destruct (IH Hl) as [H1 H2].
    apply Forall_app in Hx. split; [constructor; tauto | exact H2].
Qed.

Lemma pairs_middle (l1 l2 : list A) (x : A) :
  ForallOrdPairs R (l1 ++ x :: l2) <->
  Forall (R x) (l1 ++ l2) /\ ForallOrdPairs R (l1 ++ l2).
Proof.
  assert (Hp : Permutation (l1 ++ x :: l2) (x :: l1 ++ l2))
    by (symmetry; apply Permutation_middle).
  split.
  - intro H. apply (pairs_perm _ _ Hp) in H.
    inversion H; subst. now split.
  - intros [H1 H2]. apply (pairs_perm (x :: l1 ++ l2)).
    + now symmetry.
    + now constructor.
Qed.

Lemma pairs_filter (f : A -> bool) (l : list A) :
  ForallOrdPairs R l -> ForallOrdPairs R (filter f l).
Proof.
  induction 1 as [|x l Hx Hl IH]; simpl; [constructor|].
  destruct (f x); [|exact IH].
  constructor; [|exact IH].
  rewrite Forall_forall in *. intros y Hy. apply filter_In in Hy.
  apply Hx. tauto.
Qed.

End Pairs.

Lemma spaced_perm (l l' : list Marker) :
  Permutation l l' -> spaced l -> spaced l'.
Proof. apply pairs_perm. exact far_apart_sym. Qed.

Lemma has_fixed_perm (l l' : list Marker) :
  Permutation l l' -> has_fixed l -> has_fixed l'.
Proof.
  intros Hp [(m0 & H0 & N0) (m5 & H5 & N5)]. split.
  - exists m0. split; [eapply Permutation_in; eassumption | exact N0].
  - exists m5. split; [eapply Permutation_in; eassumption | exact N5].
Qed.

Lemma invariant_perm (l l' : list Marker) :
  Permutation l l' -> marker_invariant l -> marker_invariant l'.
Proof.
  intros Hp [H1 H2]. split; [eapply has_fixed_perm | eapply spaced_perm];
    eassumption.
Qed.

Lemma invariant_sort (l : list Marker) :
  marker_invariant l -> marker_invariant (sort_by_time l).
Proof. apply invariant_perm. symmetry. apply sort_by_time_perm. Qed.

Lemma is_fixed_name (m : Marker) :
  is_fixed m = true <-> name m = "Marker0" \/ name m = "Marker500".
Proof.
  unfold is_fixed, is_fixed_obj. rewrite orb_true_iff, !String.eqb_eq. tauto.
Qed.

Lemma filter_split_perm {A : Type} (f : A -> bool) (l : list A) :
  Permutation (filter (fun x => negb (f x)) l ++ filter f l) l.
Proof.
  induction l as [|x tl IH]; simpl; [constructor|].
  destruct (f x); simpl.
  - rewrite <- Permutation_middle. now constructor.
  - now constructor.
Qed.

Lemma rename_from_apart (x : Marker) (l : list Marker) :
  forall i, Forall (apart x) l -> Forall (apart x) (rename_from with_name i l).
Proof.
  induction l as [|y tl IH]; intros i H; simpl; [constructor|].
  inversion H; subst. constructor; [assumption | now apply IH].
Qed.

Lemma rename_from_pairs (l : list Marker) :
  forall i, ForallOrdPairs apart l ->
            ForallOrdPairs apart (rename_from with_name i l).
Proof.
  induction l as [|x tl IH]; intros i H; simpl; [constructor|].
  inversion H as [|? ? Hx Htl]; subst. constructor; [|now apply IH].
  apply rename_from_apart.
  eapply Forall_impl; [|exact Hx]. intros y Hy. exact Hy.
Qed.

Lemma spaced_users_apart (l : list Marker) :
  Forall (fun m => is_fixed m = false) l ->
  spaced l -> ForallOrdPairs apart l.
Proof.
  intros Hall H. induction H as [|x tl Hx Htl IH]; [constructor|].
  inversion Hall as [|? ? Hnx Hntl]; subst. constructor; [|now apply IH].
  rewrite Forall_forall in *. intros y Hy. apply (Hx y Hy Hnx). now apply Hntl.
Qed.

Lemma spaced_users_then_fixed (us fs : list Marker) :
  ForallOrdPairs apart us ->
  Forall (fun m => is_fixed m = true) fs ->
  spaced (us ++ fs).
Proof.
  intros Hus Hfs. induction Hus as [|x tl Hx Htl IH]; simpl.
  - induction Hfs as [|f fs' Hf Hfs' IHf]; [constructor|].
    constructor; [|exact IHf].
    apply Forall_forall. intros y _ Hnf. congruence.
  - constructor; [|exact IH]. apply Forall_app. split.
    + eapply Forall_impl; [|exact Hx]. intros y Hy _ _. exact Hy.
    + eapply Forall_impl; [|exact Hfs]. intros y Hy _ Hny. simpl in Hy. congruence.
Qed.

Lemma renumber_invariant (l : list Marker) :
  marker_invariant l -> marker_invariant (_renumber_user_markers l).
Proof.
  intros [Hfix Hsp]. unfold _renumber_user_markers, renumber_objs.
  fold is_fixed.
  change (fun m : Marker => negb (is_fixed_obj (fun m0 : Marker => m0) m))
    with (fun m : Marker => negb (is_fixed m)).
  change (is_fixed_obj (fun m : Marker => m)) with is_fixed.
  fold (sort_by_time (filter (fun m => negb (is_fixed m)) l)).
  set (us := rename_from with_name 0
               (sort_by_time (filter (fun m => negb (is_fixed m)) l))).
  set (fs := filter is_fixed l).
  fold (sort_by_time (us ++ fs)).
  apply invariant_sort. split.
  - assert (Hin : forall m, In m l -> is_fixed m = true -> In m (us ++ fs)%list).
    { intros m Hm Hf. apply in_or_app. right. apply filter_In. now split. }
    destruct Hfix as [(m0 & H0 & N0) (m5 & H5 & N5)]. split.
    + exists m0. split; [|exact N0]. apply Hin; [exact H0|].
      apply is_fixed_name. now left.
    + exists m5. split; [|exact N5]. apply Hin; [exact H5|].
      apply is_fixed_name. now right.
  - apply spaced_users_then_fixed.
    + apply rename_from_pairs.
      apply (pairs_perm apart apart_sym
               (filter (fun m => negb (is_fixed m)) l)).
      * symmetry. apply sort_by_time_perm.
      * apply spaced_users_apart.
        -- apply Forall_forall. intros m Hm. apply filter_In in Hm.
           destruct Hm as [_ Hm]. now apply negb_true_iff in Hm.
        -- apply pairs_filter. exact Hsp.
    + apply Forall_forall. intros m Hm. apply filter_In in Hm. tauto.
Qed.

(** The sort and the renumbering do the same on flagged dicts as on the
    dicts. *)
Section Forget.

Context {A B : Type} (f : A -> B).
Context (valA : A -> Marker) (valB : B -> Marker).
Context (setA : string -> A -> A) (setB : string -> B -> B).
Hypothesis val_f : forall a, valB (f a) = valA a.
Hypothesis set_f : forall s a, f (setA s a) = setB s (f a).

Lemma map_insert_obj (x : A) (l : list A) :
  map f (insert_obj valA x l) = insert_obj valB (f x) (map f l).
Proof.
  induction l as [|y tl IH]; simpl; [reflexivity|].
  rewrite !val_f. destruct (Qleb (time (valA x)) (time (valA y))); simpl.
  - reflexivity.
  - now rewrite IH.
Qed.

Lemma map_sort_objs (l : list A) :
  map f (sort_objs valA l) = sort_objs valB (map f l).
Proof.
  induction l as [|x tl IH]; simpl; [reflexivity|].
  now rewrite map_insert_obj, IH.
Qed.

Lemma map_filter_obj (g : bool -> bool) (l : list A) :
  map f (filter (fun m => g (is_fixed_obj valA m)) l) =
  filter (fun m => g (is_fixed_obj valB m)) (map f l).
Proof.
  induction l as [|x tl IH]; simpl; [reflexivity|].
  assert (E : is_fixed_obj valB (f x) = is_fixed_obj valA x)
    by (unfold is_fixed_obj; now rewrite val_f).
  rewrite E.
  destruct (g (is_fixed_obj valA x)); simpl; now rewrite IH.
Qed.

Lemma map_rename_from (l : list A) :
  forall i, map f (rename_from setA i l) = rename_from setB i (map f l).
Proof.
  induction l as [|x tl IH]; intro i; simpl; [reflexivity|].
  now rewrite set_f, IH.
Qed.

Lemma map_renumber_objs (l : list A) :
  map f (renumber_objs valA setA l) = renumber_objs valB setB (map f l).
Proof.
  unfold renumber_objs.
  rewrite map_sort_objs, map_app, map_rename_from, map_sort_objs.
  rewrite (map_filter_obj negb), (map_filter_obj (fun b => b)).
  reflexivity.
Qed.

End Forget.

Lemma append_and_renumber_markers (l : list Marker) (new_marker : Marker) :
  fst (append_and_renumber l new_marker) =
  _renumber_user_markers (sort_by_time (l ++ [new_marker])).
Proof.
  unfold append_and_renumber, _renumber_user_markers, sort_by_time. simpl fst.
  rewrite (map_renumber_objs fst fst (fun m => m) flag_name with_name)
    by reflexivity.
  rewrite (map_sort_objs fst fst (fun m => m)) by reflexivity.
  rewrite map_app, map_map. simpl. now rewrite map_id.
Qed.

(** *** Adding *)

Lemma within_1_second_none (l : list Marker) (t : Q) :
  within_1_second l t = None ->
  Forall (fun m => is_fixed m = false -> 1 <= Qabs (time m - t)) l.
Proof.
  induction l as [|x tl IH]; intro H; [constructor|].
  cbn [within_1_second] in H.
  destruct (is_fixed x) eqn:Ef.
  - constructor; [intro; congruence | now apply IH].
  - destruct (Qltb (Qabs (time x - t)) 1) eqn:E; [discriminate H|].
    apply Qltb_false in E. constructor; [now intros _ | now apply IH].
Qed.

Lemma append_invariant (l : list Marker) (t : Q) :
  marker_invariant l ->
  within_1_second l t = None ->
  marker_invariant (fst (append_and_renumber l (new_marker_at t))).
Proof.
  intros [Hfix Hsp] Hcheck. rewrite append_and_renumber_markers.
  apply renumber_invariant, invariant_sort.
  apply (invariant_perm (new_marker_at t :: l)).
  - change (new_marker_at t :: l) with ([new_marker_at t] ++ l)%list.
    apply Permutation_app_comm.
  - split.
    + destruct Hfix as [(m0 & H0 & N0) (m5 & H5 & N5)]. split.
      * exists m0. split; [now right | exact N0].
      * exists m5. split; [now right | exact N5].
    + constructor; [|exact Hsp].
      apply within_1_second_none in Hcheck.
      eapply Forall_impl; [|exact Hcheck].
      intros m Hm _ Hnf. rewrite Qabs_Qminus. now apply Hm.
Qed.

Lemma clamp_at_zero_id (t : Q) : 1 # 1000 <= Qabs t -> clamp_at_zero t = t.
Proof.
  intro H. unfold clamp_at_zero. apply Qltb_false in H. now rewrite H.
Qed.

Lemma add_marker_invariant (inp : Inputs) (mm : MarkerManager) :
  marker_invariant (markers mm) ->
  1 # 1000 <= Qabs (add_marker_time inp) ->
  marker_invariant (markers (add_marker inp mm)).
Proof.
  intros Hinv Hclamp. unfold add_marker.
  destruct (negb (current_file mm)); [exact Hinv|].
  destruct (max_markers <=? List.length (markers mm))%nat; [exact Hinv|].
  destruct (beyond_duration mm (add_marker_time inp)); [exact Hinv|].
  destruct (within_1_second (markers mm) (add_marker_time inp)) eqn:Ew;
    [exact Hinv|].
  rewrite (clamp_at_zero_id _ Hclamp).
  pose proof (append_invariant _ _ Hinv Ew) as H.
  destruct (append_and_renumber _ _) as [l new_marker]. simpl in H.
  destruct (index_of new_marker l); exact H.
Qed.

Lemma add_marker_at_time_invariant (inp : Inputs) (mm : MarkerManager) :
  marker_invariant (markers mm) ->
  (forall t, total_seconds inp = Some t -> 1 # 1000 <= Qabs t) ->
  marker_invariant (markers (add_marker_at_time inp mm)).
Proof.
  intros Hinv Hclamp. unfold add_marker_at_time.
  destruct (negb (current_file mm)); [exact Hinv|].
  destruct (max_markers <=? List.length (markers mm))%nat; [exact Hinv|].
  destruct (total_seconds inp) as [total|]; [|exact Hinv].
  destruct (beyond_duration mm total); [exact Hinv|].
  destruct (within_1_second (markers mm) total) eqn:Ew; [exact Hinv|].
  rewrite (clamp_at_zero_id _ (Hclamp total eq_refl)).
  pose proof (append_invariant _ _ Hinv Ew) as H.
  destruct (append_and_renumber _ _) as [l new_marker]. simpl in H.
  destruct (index_of new_marker l); exact H.
Qed.

(** *** Moving *)

Lemma within_1_second_except_none (sel : Marker) (l : list Marker) (t : Q) :
  within_1_second_except sel l t = None ->
  Forall (fun m => marker_eqb m sel = true \/ is_fixed m = true \/
                   1 <= Qabs (time m - t)) l.
Proof.
  induction l as [|x tl IH]; intro H; [constructor|].
  cbn [within_1_second_except] in H.
  destruct (marker_eqb x sel || is_fixed x) eqn:Ef.
  - apply orb_true_iff in Ef. constructor; [tauto | now apply IH].
  - destruct (Qltb (Qabs (time x - t)) 1) eqn:E; [discriminate H|].
    apply Qltb_false in E. constructor; [tauto | now apply IH].
Qed.

Lemma same_time_not_apart (a b : Marker) :
  time a == time b -> ~ 1 <= Qabs (time a - time b).
Proof.
  intros E H.
  assert (Hz : time a - time b == 0) by (rewrite E; ring).
  rewrite Hz in H. apply (Qle_not_lt _ _ H). reflexivity.
Qed.

Lemma move_invariant (l : list Marker) (sel : nat) (m : Marker) (t : Q) :
  marker_invariant l ->
  nth_error l sel = Some m ->
  within_1_second_except m l t = None ->
  marker_invariant (sort_by_time (update_at sel (with_time t) l)).
Proof.
  intros [Hfix Hsp] Hnth Hcheck. apply invariant_sort.
  apply nth_error_split in Hnth. destruct Hnth as (l1 & l2 & -> & <-).
  rewrite update_at_middle.
  apply within_1_second_except_none in Hcheck.
  split.
  - assert (Hkeep : forall x, In x (l1 ++ m :: l2) ->
                      exists y, In y (l1 ++ with_time t m :: l2) /\ name y = name x).
    { intros x Hx. apply in_app_or in Hx. destruct Hx as [Hx|[<-|Hx]].
      - exists x. split; [apply in_or_app; now left | reflexivity].
      - exists (with_time t m). split; [|reflexivity].
        apply in_or_app. right. now left.
      - exists x. split; [apply in_or_app; right; now right | reflexivity]. }
    destruct Hfix as [(m0 & H0 & N0) (m5 & H5 & N5)]. split.
    + destruct (Hkeep m0 H0) as (y & Hy & Ny). exists y. split; congruence.
    + destruct (Hkeep m5 H5) as (y & Hy & Ny). exists y. split; congruence.
  - unfold spaced in *. apply (pairs_middle far_apart far_apart_sym) in Hsp.
    destruct Hsp as [Hm Hrest].
    apply (pairs_middle far_apart far_apart_sym). split; [|exact Hrest].
    rewrite Forall_forall in *. intros x Hx Hnm Hnx.
    change (is_fixed (with_time t m)) with (is_fixed m) in Hnm.
    assert (Hxl : In x (l1 ++ m :: l2)).
    { apply in_app_or in Hx. apply in_or_app.
      destruct Hx as [Hx|Hx]; [now left | right; now right]. }
    destruct (Hcheck x Hxl) as [He|[Hf|Hd]].
    + exfalso. unfold marker_eqb in He.
      apply andb_true_iff in He. destruct He as [He _].
      apply andb_true_iff in He. destruct He as [He _].
      apply andb_true_iff in He. destruct He as [He _].
      apply Qeqb_eq in He.
      apply (same_time_not_apart m x); [now symmetry|].
      now apply (Hm x Hx).
    + congruence.
    + change (1 <= Qabs (t - time x)). rewrite Qabs_Qminus. exact Hd.
Qed.

Lemma update_selected_marker_time_invariant (inp : Inputs) (mm : MarkerManager) :
  marker_invariant (markers mm) ->
  (forall t, total_seconds inp = Some t -> 1 # 1000 <= t) ->
  marker_invariant (markers (update_selected_marker_time inp mm)).
Proof.
  intros Hinv Hclamp. unfold update_selected_marker_time.
  destruct (negb (current_file mm)); [exact Hinv|].
  destruct (selected_marker_index mm) as [selected|]; [|exact Hinv].
  destruct (nth_error (markers mm) selected) as [marker_to_update|] eqn:En;
    [|exact Hinv].
  destruct (total_seconds inp) as [total|]; [|exact Hinv].
  destruct (beyond_duration mm total); [exact Hinv|].
  destruct (within_1_second_except marker_to_update (markers mm) total) eqn:Ew;
    [exact Hinv|].
  assert (Ec : Qltb total (1 # 1000) = false)
    by (apply Qltb_false; now apply Hclamp).
  rewrite Ec.
  pose proof (move_invariant _ _ _ _ Hinv En Ew) as H.
  cbn [markers push_to_undo_stack set_stacks set_markers].
  destruct (index_of _ _); exact H.
Qed.

(** *** Deleting *)

Lemma remove_at_invariant (l : list Marker) (idx : nat) (m : Marker) :
  marker_invariant l ->
  nth_error l idx = Some m -> is_fixed m = false ->
  marker_invariant (remove_at idx l).
Proof.
  intros [Hfix Hsp] Hnth Hnf.
  apply nth_error_split in Hnth. destruct Hnth as (l1 & l2 & -> & <-).
  rewrite remove_at_middle. split.
  - assert (Hkeep : forall x, In x (l1 ++ m :: l2) -> is_fixed x = true ->
                              In x (l1 ++ l2)).
    { intros x Hx Hf. apply in_app_or in Hx. apply in_or_app.
      destruct Hx as [Hx|[<-|Hx]]; [now left | congruence | now right]. }
    destruct Hfix as [(m0 & H0 & N0) (m5 & H5 & N5)]. split.
    + exists m0. split; [|exact N0]. apply Hkeep; [exact H0|].
      apply is_fixed_name. now left.
    + exists m5. split; [|exact N5]. apply Hkeep; [exact H5|].
      apply is_fixed_name. now right.
  - apply (pairs_middle far_apart far_apart_sym) in Hsp. tauto.
Qed.

Lemma nth_error_remove_at_lt (l : list Marker) (idx i : nat) :
  (i < idx)%nat -> nth_error (remove_at idx l) i = nth_error l i.
Proof.
  intro H. unfold remove_at.
  destruct (Nat.lt_ge_cases idx (List.length l)) as [Hl|Hl].
  - rewrite nth_error_app1 by (rewrite length_firstn; lia).
    rewrite nth_error_firstn.
    apply Nat.ltb_lt in H. now rewrite H.
  - rewrite firstn_all2 by lia. rewrite skipn_all2 by lia.
    now rewrite app_nil_r.
Qed.

Lemma delete_each_invariant (to_delete : list (nat * Marker)) :
  forall l,
    marker_invariant l ->
    StronglySorted idx_gt to_delete ->
    Forall (deletable l) to_delete ->
    marker_invariant (fst (delete_each to_delete l)).
Proof.
  induction to_delete as [|[idx m] tl IH]; intros l Hinv Hs Hd; simpl;
    [exact Hinv|].
  destruct (idx <? List.length l)%nat; [|exact Hinv].
  inversion Hs as [|? ? Hs' Hgt]; subst.
  inversion Hd as [|? ? [Hn Hf] Hd']; subst. simpl in Hn, Hf.
  apply IH.
  - eapply remove_at_invariant; eassumption.
  - exact Hs'.
  - rewrite Forall_forall in *. intros p Hp.
    destruct (Hd' p Hp) as [Hpn Hpf]. split; [|exact Hpf].
    rewrite nth_error_remove_at_lt; [exact Hpn|]. exact (Hgt p Hp).
Qed.

Lemma insert_desc_perm (x : nat * Marker) (l : list (nat * Marker)) :
  Permutation (insert_desc x l) (x :: l).
Proof.
  induction l as [|y tl IH]; simpl; [reflexivity|].
  destruct (fst x <? fst y)%nat; [|reflexivity].
  rewrite IH. apply perm_swap.
Qed.

Lemma sort_desc_perm (l : list (nat * Marker)) : Permutation (sort_desc l) l.
Proof.
  induction l as [|x tl IH]; simpl; [reflexivity|].
  rewrite insert_desc_perm. now constructor.
Qed.

Lemma insert_desc_sorted (x : nat * Marker) (l : list (nat * Marker)) :
  StronglySorted idx_ge l -> StronglySorted idx_ge (insert_desc x l).
Proof.
  induction 1 as [|y tl Hs IH Hall]; simpl.
  - repeat constructor.
  - destruct (fst x <? fst y)%nat eqn:E.
    + apply Nat.ltb_lt in E. constructor; [exact IH|].
      eapply Permutation_Forall; [symmetry; apply insert_desc_perm|].
      constructor; [unfold idx_ge; lia | exact Hall].
    + apply Nat.ltb_ge in E. constructor; [now constructor|].
      constructor; [exact E|].
      eapply Forall_impl; [|exact Hall]. unfold idx_ge. intros z Hz. lia.
Qed.

Lemma sort_desc_sorted (l : list (nat * Marker)) :
  StronglySorted idx_ge (sort_desc l).
Proof.
  induction l as [|x tl IH]; simpl; [constructor | now apply insert_desc_sorted].
Qed.

Lemma sorted_nodup_strict (l : list (nat * Marker)) :
  StronglySorted idx_ge l -> NoDup (map fst l) -> StronglySorted idx_gt l.
Proof.
  induction 1 as [|x tl Hs IH Hall]; simpl; intro Hnd; [constructor|].
  inversion Hnd as [|? ? Hx Hnd']; subst. constructor; [now apply IH|].
  rewrite Forall_forall in *. intros y Hy.
  specialize (Hall y Hy). unfold idx_ge, idx_gt in *.
  assert (fst y <> fst x).
  { intro E. apply Hx. rewrite <- E. now apply in_map. }
  lia.
Qed.

Lemma collect_to_delete_spec (l : list Marker) (selection : list nat) :
  Forall (deletable l) (collect_to_delete selection l) /\
  (forall i, In i (map fst (collect_to_delete selection l)) -> In i selection) /\
  (NoDup selection -> NoDup (map fst (collect_to_delete selection l))).
Proof.
  induction selection as [|idx tl (IH1 & IH2 & IH3)]; simpl.
  - repeat split; [constructor | tauto | constructor].
  - destruct (nth_error l idx) as [marker|] eqn:En.
    + destruct (negb (name marker =? "Marker0")%string
                && negb (name marker =? "Marker500")%string) eqn:Ef.
      * repeat split.
        -- constructor; [|exact IH1]. split; [exact En|].
           apply andb_true_iff in Ef. destruct Ef as [E0 E5].
           apply negb_true_iff in E0, E5.
           unfold is_fixed, is_fixed_obj. simpl. now rewrite E0, E5.
        -- simpl. intros i [<-|Hi]; [now left | right; now apply IH2].
        -- intro Hnd. inversion Hnd; subst. simpl. constructor; auto.
      * repeat split; trivial.
        -- intros i Hi. right. now apply IH2.
        -- intro Hnd. inversion Hnd; subst. auto.
    + repeat split; trivial.
      * intros i Hi. right. now apply IH2.
      * intro Hnd. inversion Hnd; subst. auto.
Qed.

Lemma delete_selected_marker_invariant (inp : Inputs) (mm : MarkerManager) :
  marker_invariant (markers mm) ->
  NoDup (curselection inp) ->
  marker_invariant (markers (delete_selected_marker inp mm)).
Proof.
  intros Hinv Hnd. unfold delete_selected_marker.
  destruct (curselection inp) as [|s0 sel] eqn:Es; [exact Hinv|].
  rewrite <- Es in *. clear Es s0 sel.
  destruct (collect_to_delete_spec (markers mm) (curselection inp))
    as (Hdel & _ & Hnd').
  specialize (Hnd' Hnd).
  destruct (collect_to_delete (curselection inp) (markers mm))
    as [|p0 ps] eqn:Ec; [exact Hinv|].
  rewrite <- Ec in *. clear Ec p0 ps.
  destruct (negb (askyesno inp)); [exact Hinv|].
  set (td := sort_desc (collect_to_delete (curselection inp) (markers mm))).
  assert (H : marker_invariant (fst (delete_each td (markers mm)))).
  { apply delete_each_invariant; [exact Hinv | |].
    - apply sorted_nodup_strict; [apply sort_desc_sorted|].
      eapply Permutation_NoDup; [|exact Hnd'].
      apply Permutation_map. symmetry. apply sort_desc_perm.
    - eapply Permutation_Forall; [|exact Hdel].
      symmetry. apply sort_desc_perm. }
  cbn [markers push_to_undo_stack set_stacks].
  destruct (delete_each td (markers mm)) as [l raised]. simpl in H.
  destruct raised; [exact H|]. simpl. now apply renumber_invariant.
Qed.

Lemma nearest_from_nth (l0 : list Marker) (pos : Q) (l : list Marker) :
  forall i best idx m,
    (forall d bi bm, best = Some (d, (bi, bm)) -> nth_error l0 bi = Some bm) ->
    (forall k x, nth_error l k = Some x -> nth_error l0 (i + k) = Some x) ->
    nearest_from i l pos best = Some (idx, m) ->
    nth_error l0 idx = Some m.
Proof.
  induction l as [|x tl IH]; intros i best idx m Hbest Hl H;
    cbn [nearest_from] in H.
  - destruct best as [[d [bi bm]]|]; [|discriminate].
    simpl in H. injection H as <- <-. eapply Hbest. reflexivity.
  - assert (Hx : nth_error l0 i = Some x).
    { rewrite <- (Nat.add_0_r i). now apply Hl. }
    assert (Htl : forall k y, nth_error tl k = Some y ->
                              nth_error l0 (S i + k) = Some y).
    { intros k y Hk. replace (S i + k)%nat with (i + S k)%nat by lia.
      now apply Hl. }
    assert (Hnew : forall (d' d : Q) (bi : nat) (bm : Marker),
               Some (d', (i, x)) = Some (d, (bi, bm)) -> nth_error l0 bi = Some bm).
    { intros d' d bi bm E. injection E as _ <- <-. exact Hx. }
    destruct best as [[min_distance b]|].
    + destruct (Qltb (Qabs (time x - pos)) min_distance).
      * eapply IH; [apply Hnew | exact Htl | exact H].
      * eapply IH; [exact Hbest | exact Htl | exact H].
    + eapply IH; [apply Hnew | exact Htl | exact H].
Qed.

Lemma delete_nearest_marker_invariant (inp : Inputs) (mm : MarkerManager) :
  marker_invariant (markers mm) ->
  marker_invariant (markers (delete_nearest_marker inp mm)).
Proof.
  intro Hinv. unfold delete_nearest_marker.
  destruct (negb (current_file mm) || (List.length (markers mm) =? 0)%nat);
    [exact Hinv|].
  destruct (nearest_from 0 (markers mm) (current_pos inp) None)
    as [[marker_idx marker]|] eqn:En; [|exact Hinv].
  destruct (is_fixed marker) eqn:Ef; [exact Hinv|].
  destruct (negb (askyesno inp)); [exact Hinv|].
  cbn [markers push_to_undo_stack set_stacks set_markers set_status].
  apply (remove_at_invariant _ _ marker); trivial.
  eapply nearest_from_nth; [| |exact En].
  - intros d bi bm E. discriminate E.
  - intros k x Hk. exact Hk.
Qed.

Lemma delete_all_markers_invariant (inp : Inputs) (mm : MarkerManager) :
  marker_invariant (markers mm) ->
  marker_invariant (markers (delete_all_markers inp mm)).
Proof.
  intro Hinv. unfold delete_all_markers.
  destruct (filter (fun m => negb (is_fixed m)) (markers mm)); [exact Hinv|].
  destruct (negb (askyesno inp)); [exact Hinv|].
  cbn [markers push_to_undo_stack set_stacks set_markers set_status].
  destruct Hinv as [[(m0 & H0 & N0) (m5 & H5 & N5)] Hsp]. split.
  - split.
    + exists m0. split; [|exact N0]. apply filter_In. split; [exact H0|].
      apply is_fixed_name. now left.
    + exists m5. split; [|exact N5]. apply filter_In. split; [exact H5|].
      apply is_fixed_name. now right.
  - apply pairs_filter. exact Hsp.
Qed.

Lemma edit_marker_by_index_markers (idx : nat) (mm : MarkerManager) :
  markers (edit_marker_by_index idx mm) = markers mm.
Proof.
  unfold edit_marker_by_index.
  destruct (nth_error (markers mm) idx); reflexivity.
Qed.

(* ------------------------------------------------------------------ *)
(** ** The [index] calls always find their dict *)

Lemma option_string_eqb_refl (a : option string) : option_string_eqb a a = true.
Proof. destruct a; simpl; [apply String.eqb_refl | reflexivity]. Qed.

Lemma marker_eqb_refl (m : Marker) : marker_eqb m m = true.
Proof.
  unfold marker_eqb.
  now rewrite Qeqb_refl, String.eqb_refl, !option_string_eqb_refl.
Qed.

Lemma index_of_In (m : Marker) (l : list Marker) :
  In m l -> exists i, index_of m l = Some i.
Proof.
  induction l as [|x tl IH]; intro H; [destruct H|].
  destruct H as [<-|H]; simpl.
  - rewrite marker_eqb_refl. eauto.
  - destruct (marker_eqb x m); [eauto|].
    destruct (IH H) as [i ->]. eauto.
Qed.

Lemma rename_from_flags (l : list (Marker * bool)) :
  forall i, map snd (rename_from flag_name i l) = map snd l.
Proof.
  induction l as [|x tl IH]; intro i; simpl; [reflexivity|]. now rewrite IH.
Qed.

Lemma append_and_renumber_index (l : list Marker) (t : Q) :
  exists i,
    index_of (snd (append_and_renumber l (new_marker_at t)))
             (fst (append_and_renumber l (new_marker_at t))) = Some i.
Proof.
  unfold append_and_renumber. cbn [fst snd].
  set (objs0 := sort_objs fst
                  (map (fun m => (m, false)) l ++ [(new_marker_at t, true)])).
  set (objs := renumber_objs fst flag_name objs0).
  assert (H0 : In (new_marker_at t, true) objs0).
  { eapply Permutation_in; [symmetry; apply sort_objs_perm|].
    apply in_or_app. right. now left. }
  assert (H1 : In true (map snd objs)).
  { unfold objs, renumber_objs.
    eapply Permutation_in;
      [apply Permutation_map; symmetry; apply sort_objs_perm|].
    rewrite map_app, rename_from_flags. apply in_or_app. left.
    eapply Permutation_in;
      [apply Permutation_map; symmetry; apply sort_objs_perm|].
    apply (in_map snd _ (new_marker_at t, true)).
    apply filter_In. split; [exact H0 | reflexivity]. }
  destruct (find snd objs) as [o|] eqn:Ef.
  - apply find_some in Ef. destruct Ef as [Ho _].
    apply index_of_In. now apply in_map.
  - exfalso. apply in_map_iff in H1. destruct H1 as (o & Ho & Hin).
    pose proof (find_none _ _ Ef o Hin) as Hn. congruence.
Qed.


(* ------------------------------------------------------------------ *)
(** ** Sequences of operations *)

Lemma step_invariant (mm : MarkerManager) (a : Action) :
  marker_invariant (markers mm) -> not_clamped a ->
  marker_invariant (markers (step mm a)).
Proof.
  intros Hinv Ha. destruct a as [inp|inp|inp|inp|inp|inp|idx]; simpl in *.
  - now apply add_marker_invariant.
  - now apply add_marker_at_time_invariant.
  - now apply update_selected_marker_time_invariant.
  - now apply delete_selected_marker_invariant.
  - now apply delete_nearest_marker_invariant.
  - now apply delete_all_markers_invariant.
  - now rewrite edit_marker_by_index_markers.
Qed.

(** Claim C5, as amended.  From a marker list that holds Marker0 and
    Marker500 and whose non-fixed markers are pairwise at least one
    second apart, every sequence of add, move and delete calls whose
    requested times are not replaced by 0.001 leads to a marker list
    that again holds Marker0 and Marker500 under these names and whose
    non-fixed markers are pairwise at least one second apart.  (The
    distance to the fixed markers is not checked by the code.) *)
Theorem C5_spacing_invariant (mm : MarkerManager) (actions : list Action) :
  marker_invariant (markers mm) ->
  Forall not_clamped actions ->
  marker_invariant (markers (run mm actions)).
Proof.
  intros Hinv Hall. revert mm Hinv.
  induction Hall as [|a tl Ha Htl IH]; intros mm Hinv; simpl.
  - exact Hinv.
  - apply IH. now apply step_invariant.
Qed.

(** Claim C5, as written, fails: a marker added at 0.5 s is accepted and
    lies half a second from Marker0. *)
Lemma C5_counterexample :
  let mm := manager_of fixed_only None in
  let mm' := run mm [Add (inputs (Some (1 # 2)) ("0", 0%Z) ("0", 0%Z) [])] in
  has_fixed (markers mm) /\ away_from_all (markers mm) /\
  map (fun m => (name m, time m)) (markers mm')
  = [("Marker0", 0); ("Marker1", 1 # 2); ("Marker500", 100)] /\
  ~ away_from_all (markers mm').
Proof.
  split; [|split; [|split]].
  - split; [exists (mk 0 "Marker0") | exists (mk 100 "Marker500")];
      (split; [simpl; tauto | reflexivity]).
  - intros i j a b Hij Hi Hj Hf.
    destruct i as [|[|i]]; simpl in Hi.
    + injection Hi as <-. discriminate Hf.
    + injection Hi as <-. discriminate Hf.
    + destruct i; discriminate Hi.
  - vm_compute. reflexivity.
  - intro H.
    specialize (H 1%nat 0%nat (mk (1 # 2) "Marker1") (mk 0 "Marker0")).
    assert (Hd : 1 <= Qabs (time (mk (1 # 2) "Marker1") - time (mk 0 "Marker0"))).
    { apply H; [discriminate | vm_compute; reflexivity
                | vm_compute; reflexivity | reflexivity]. }
    vm_compute in Hd. apply Hd. reflexivity.
Qed.

Lemma C5_spacing_invariant_witness :
  marker_invariant
    (markers (run (manager_of fixed_only None)
                  [Add (inputs (Some 10) ("0", 0%Z) ("0", 0%Z) []);
                   AddAtTime (inputs None ("0", 0%Z) ("20", 20%Z) []);
                   Select 1;
                   Move (inputs None ("0", 0%Z) ("30", 30%Z) []);
                   DeleteSelected (inputs None ("0", 0%Z) ("0", 0%Z) [1%nat])])).
Proof.
  apply C5_spacing_invariant.
  - split.
    + split; [exists (mk 0 "Marker0") | exists (mk 100 "Marker500")];
        (split; [simpl; tauto | reflexivity]).
    + repeat constructor; intros H; discriminate H.
  - repeat constructor.
    + vm_compute. discriminate.
    + intros t H. vm_compute in H. injection H as <-. vm_compute. discriminate.
    + intros t H. vm_compute in H. injection H as <-. vm_compute. discriminate.
    + simpl. tauto.
Defined.

(** The spacing check of the add operations runs before the time is
    replaced: a request at 0 with a marker at 1.0 passes the check and is
    stored at 0.001, less than a second from that marker. *)
Example clamp_after_check :
  map (fun m => (name m, time m))
      (markers (add_marker (inputs (Some 0) ("0", 0%Z) ("0", 0%Z) [])
                           (manager_of [mk 0 "Marker0"; mk 1 "Marker1";
                                        mk 100 "Marker500"] None)))
  = [("Marker0", 0); ("Marker1", 1 # 1000); ("Marker2", 1); ("Marker500", 100)].
Proof. vm_compute. reflexivity. Qed.

(* ================================================================== *)
(** * Further properties of the segment queries *)

From Stdlib Require Import ZArith.

Lemma computed_segments (markers : list Marker) (existing segs : list Segment) :
  _calculate_segments markers existing = Ok segs ->
  computed_from (sort_by_time markers) segs /\
  StronglySorted time_le (sort_by_time markers).
Proof.
  intro H.
  destruct (calculate_segments_total markers existing) as (segs' & Hc & Hlen & Hn).
  rewrite H in Hc. injection Hc as <-.
  split; [|apply sort_by_time_sorted].
  split; [now rewrite sort_by_time_length | exact Hn].
Qed.

Lemma computed_index (ms : list Marker) (segs : list Segment) (s : Segment) :
  computed_from ms segs -> In s segs -> nth_error segs (index s) = Some s.
Proof.
  intros [_ Hn] Hin. apply In_nth_error in Hin. destruct Hin as [k Hk].
  destruct (Hn k s Hk) as (m1 & m2 & _ & _ & Hi & _). now rewrite Hi.
Qed.



Lemma segment_at_time_some (segments : list Segment) (t : Q) (r : Segment) :
  get_segment_at_time segments t = Some r ->
  In r segments /\ contains_time r t = true /\
  forall s, In s segments -> contains_time s t = true ->
            (index s <= index r)%nat.
Proof.
  unfold get_segment_at_time.
  destruct (filter (fun s => contains_time s t) segments) as [|c cs] eqn:Ef;
    [discriminate|].
  intro H. injection H as <-.
  destruct (max_by_index_spec cs c) as [Hin Hmax].
  rewrite <- Ef in Hin. apply filter_In in Hin. destruct Hin as [Hin Hc].
  repeat split; trivial.
  intros s Hs Hcs. apply Hmax. rewrite <- Ef. apply filter_In. now split.
Qed.

Lemma segment_at_time_none (segments : list Segment) (t : Q) :
  get_segment_at_time segments t = None ->
  forall s, In s segments -> contains_time s t = false.
Proof.
  unfold get_segment_at_time.
  destruct (filter (fun s => contains_time s t) segments) as [|c cs] eqn:Ef;
    [|discriminate].
  intros _ s Hs. destruct (contains_time s t) eqn:E; [|reflexivity].
  assert (Hf : In s (filter (fun s => contains_time s t) segments))
    by (apply filter_In; now split).
  rewrite Ef in Hf. destruct Hf.
Qed.

Lemma get_segment_by_index_nat (segments : list Segment) (k : nat) :
  get_segment_by_index segments (Z.of_nat k) = nth_error segments k.
Proof.
  unfold get_segment_by_index. rewrite Nat2Z.id.
  destruct (nth_error segments k) eqn:E.
  - assert (k < List.length segments)%nat
      by (apply nth_error_Some; congruence).
    replace (0 <=? Z.of_nat k)%Z with true by (symmetry; apply Z.leb_le; lia).
    replace (Z.of_nat k <? Z.of_nat (List.length segments))%Z with true
      by (symmetry; apply Z.ltb_lt; lia).
    reflexivity.
  - destruct ((0 <=? Z.of_nat k)%Z
              && (Z.of_nat k <? Z.of_nat (List.length segments))%Z);
      reflexivity.
Qed.

Lemma get_segment_by_index_negative (segments : list Segment) (idx : Z) :
  (idx < 0)%Z -> get_segment_by_index segments idx = None.
Proof.
  intro H. unfold get_segment_by_index.
  replace (0 <=? idx)%Z with false by (symmetry; apply Z.leb_gt; lia).
  reflexivity.
Qed.

(** Extra X1.  On the segments computed from a marker list,
    [get_segment_by_index] answers None exactly for a negative index and
    for an index from (number of markers - 1) on; otherwise it returns
    the segment whose own [index] field is the index asked for, and the
    three field queries return that segment's start, end and duration.
    Each of the three field queries answers None exactly for the indices
    for which [get_segment_by_index] does. *)
Theorem X1_segment_by_index (markers : list Marker)
    (existing segs : list Segment) (idx : Z) :
  _calculate_segments markers existing = Ok segs ->
  (get_segment_by_index segs idx = None <->
   (idx < 0 \/ Z.of_nat (List.length markers) - 1 <= idx)%Z) /\
  (forall s, get_segment_by_index segs idx = Some s ->
     In s segs /\ Z.of_nat (index s) = idx /\
     get_segment_start_time segs idx = Some (start_time s) /\
     get_segment_end_time segs idx = Some (end_time s) /\
     get_segment_duration segs idx = Some (end_time s - start_time s)) /\
  (get_segment_start_time segs idx = None <->
   (idx < 0 \/ Z.of_nat (List.length markers) - 1 <= idx)%Z) /\
  (get_segment_end_time segs idx = None <->
   (idx < 0 \/ Z.of_nat (List.length markers) - 1 <= idx)%Z) /\
  (get_segment_duration segs idx = None <->
   (idx < 0 \/ Z.of_nat (List.length markers) - 1 <= idx)%Z).
Proof.
  intro H. apply computed_segments in H. destruct H as [[Hlen Hn] _].
  rewrite sort_by_time_length in Hlen.
  assert (Hnone : get_segment_by_index segs idx = None <->
                  (idx < 0 \/ Z.of_nat (List.length markers) - 1 <= idx)%Z).
  { destruct (Z.lt_ge_cases idx 0) as [Hneg|Hpos].
    + rewrite get_segment_by_index_negative by exact Hneg. split; [lia | trivial].
    + rewrite <- (Z2Nat.id idx Hpos), get_segment_by_index_nat.
      rewrite nth_error_None. lia. }
  split; [exact Hnone|].
  split.
  - intros s Hs.
    destruct (Z.lt_ge_cases idx 0) as [Hneg|Hpos].
    + rewrite get_segment_by_index_negative in Hs by exact Hneg. discriminate.
    + unfold get_segment_start_time, get_segment_end_time, get_segment_duration.
      rewrite Hs. simpl.
      rewrite <- (Z2Nat.id idx Hpos), get_segment_by_index_nat in Hs.
      destruct (Hn _ _ Hs) as (m1 & m2 & _ & _ & Hi & _ & _ & Hd & _).
      split; [eapply nth_error_In; exact Hs|].
      split; [rewrite Hi; now apply Z2Nat.id|].
      repeat split. now rewrite Hd.
  - rewrite <- Hnone.
    unfold get_segment_start_time, get_segment_end_time, get_segment_duration.
    destruct (get_segment_by_index segs idx) as [s|]; cbn [option_map];
      (split; [|split]); split; intro E; try reflexivity; discriminate E.
Qed.

Lemma X1_segment_by_index_witness :
  get_segment_by_index
    [sg 0 0 10 ""; sg 1 10 25 "X"; sg 2 25 40 ""] (-1) = None /\
  get_segment_duration
    [sg 0 0 10 ""; sg 1 10 25 "X"; sg 2 25 40 ""] 1 = Some (25 - 10) /\
  get_segment_start_time
    [sg 0 0 10 ""; sg 1 10 25 "X"; sg 2 25 40 ""] 3 = None.
Proof.
  destruct (X1_segment_by_index
              [mk 0 "Marker0"; mk 10 "Marker1"; mk 25 "Marker2"; mk 40 "Marker500"]
              [sg 0 0 10 ""; sg 1 10 40 "X"]
              [sg 0 0 10 ""; sg 1 10 25 "X"; sg 2 25 40 ""] (-1))
    as [Hnone _]; [vm_compute; reflexivity|].
  destruct (X1_segment_by_index
              [mk 0 "Marker0"; mk 10 "Marker1"; mk 25 "Marker2"; mk 40 "Marker500"]
              [sg 0 0 10 ""; sg 1 10 40 "X"]
              [sg 0 0 10 ""; sg 1 10 25 "X"; sg 2 25 40 ""] 1)
    as (_ & Hsome & _); [vm_compute; reflexivity|].
  destruct (X1_segment_by_index
              [mk 0 "Marker0"; mk 10 "Marker1"; mk 25 "Marker2"; mk 40 "Marker500"]
              [sg 0 0 10 ""; sg 1 10 40 "X"]
              [sg 0 0 10 ""; sg 1 10 25 "X"; sg 2 25 40 ""] 3)
    as (_ & _ & Hstart & _); [vm_compute; reflexivity|].
  split; [|split].
  - apply Hnone. left. reflexivity.
  - destruct (Hsome (sg 1 10 25 "X")) as (_ & _ & _ & _ & Hd);
      [reflexivity | exact Hd].
  - apply Hstart. right. cbn. lia.
Defined.

Lemma segment_at_time_exists (segments : list Segment) (t : Q) (s : Segment) :
  In s segments -> contains_time s t = true ->
  exists r, get_segment_at_time segments t = Some r.
Proof.
  intros Hin Hc. destruct (get_segment_at_time segments t) as [r|] eqn:E.
  - now exists r.
  - rewrite (segment_at_time_none _ _ E s Hin) in Hc. discriminate.
Qed.

(** Between the first and the last of a list of markers, two neighbours
    enclose the time. *)
Lemma neighbours_enclose (t : Q) (lst : Marker) (mid : list Marker) :
  forall first,
    time first <= t -> t <= time lst ->
    exists k m1 m2,
      nth_error (first :: mid ++ [lst]) k = Some m1 /\
      nth_error (first :: mid ++ [lst]) (S k) = Some m2 /\
      time m1 <= t /\ t <= time m2.
Proof.
  induction mid as [|x mid' IH]; intros first Hf Hl.
  - exists 0%nat, first, lst. repeat split; trivial.
  - destruct (Qlt_le_dec (time x) t) as [Hx|Hx].
    + destruct (IH x (Qlt_le_weak _ _ Hx) Hl) as (k & m1 & m2 & H1 & H2 & Hb).
      exists (S k), m1, m2. repeat split; tauto.
    + exists 0%nat, first, x. repeat split; trivial.
Qed.

Lemma sorted_between (first lst : Marker) (mid : list Marker) (k : nat) (m : Marker) :
  StronglySorted time_le (first :: mid ++ [lst]) ->
  nth_error (first :: mid ++ [lst]) k = Some m ->
  time first <= time m /\ time m <= time lst.
Proof.
  intros Hs Hk. split.
  - destruct k as [|k]; simpl in Hk.
    + injection Hk as <-. apply Qle_refl.
    + inversion Hs as [|? ? _ Hall]; subst.
      rewrite Forall_forall in Hall. apply Hall. eapply nth_error_In; eassumption.
  - change (first :: mid ++ [lst])%list with ((first :: mid) ++ [lst])%list in Hs, Hk.
    apply StronglySorted_app_inv in Hs. destruct Hs as (_ & _ & Hcross).
    apply nth_error_In in Hk. apply in_app_or in Hk.
    destruct Hk as [Hk|[<-|[]]].
    + apply (Hcross m lst Hk). now left.
    + apply Qle_refl.
Qed.

(** Extra X2.  The computed segments cover the timeline from the first
    to the last marker and nothing else: for a time in that range
    [get_current_segment_index] returns an index i such that the sorted
    markers i and i + 1 enclose the time; for a time outside it,
    [get_segment_at_time] and [get_current_segment_index] return None. *)
Theorem X2_segments_cover_timeline (markers : list Marker)
    (existing segs : list Segment) (first lst : Marker) (mid : list Marker)
    (t : Q) :
  _calculate_segments markers existing = Ok segs ->
  sort_by_time markers = (first :: mid ++ [lst])%list ->
  (time first <= t /\ t <= time lst ->
   exists i m1 m2,
     get_current_segment_index segs t = Some i /\
     nth_error (sort_by_time markers) i = Some m1 /\
     nth_error (sort_by_time markers) (S i) = Some m2 /\
     time m1 <= t /\ t <= time m2) /\
  (~ (time first <= t /\ t <= time lst) ->
   get_segment_at_time segs t = None /\
   get_current_segment_index segs t = None).
Proof.
  intros H Hsorted. apply computed_segments in H. destruct H as [Hcomp Hs].
  pose proof Hcomp as [Hlen Hn].
  split.
  - intros [Hf Hl].
    destruct (neighbours_enclose t lst mid first Hf Hl)
      as (k & a & b & Ha & Hb & Hat & Htb).
    rewrite <- Hsorted in Ha, Hb.
    assert (Hk : (k < List.length segs)%nat).
    { rewrite Hlen.
      assert (S k < List.length (sort_by_time markers))%nat
        by (apply nth_error_Some; congruence).
      lia. }
    destruct (nth_error segs k) as [s|] eqn:Es;
      [|apply nth_error_None in Es; lia].
    destruct (Hn k s Es) as (a' & b' & Ha' & Hb' & _ & Hst & Hen & _).
    rewrite Ha in Ha'. rewrite Hb in Hb'.
    injection Ha' as <-. injection Hb' as <-.
    assert (Hc : contains_time s t = true).
    { apply contains_time_spec. rewrite Hst, Hen. now split. }
    destruct (segment_at_time_exists segs t s (nth_error_In _ _ Es) Hc)
      as [r Hr].
    unfold get_current_segment_index. rewrite Hr.
    apply segment_at_time_some in Hr. destruct Hr as (Hin & Hcr & _).
    pose proof (computed_index _ _ _ Hcomp Hin) as Hidx.
    destruct (Hn _ _ Hidx) as (m1 & m2 & H1 & H2 & _ & Hst' & Hen' & _).
    apply contains_time_spec in Hcr. rewrite Hst', Hen' in Hcr.
    exists (index r), m1, m2. repeat split; tauto.
  - intro Hout.
    assert (Hnone : get_segment_at_time segs t = None).
    { destruct (get_segment_at_time segs t) as [r|] eqn:Er; [|reflexivity].
      exfalso. apply Hout.
      apply segment_at_time_some in Er. destruct Er as (Hin & Hcr & _).
      pose proof (computed_index _ _ _ Hcomp Hin) as Hidx.
      destruct (Hn _ _ Hidx) as (m1 & m2 & H1 & H2 & _ & Hst' & Hen' & _).
      apply contains_time_spec in Hcr. rewrite Hst', Hen' in Hcr.
      rewrite Hsorted in Hs, H1, H2.
      destruct (sorted_between _ _ _ _ _ Hs H1) as [Hf1 _].
      destruct (sorted_between _ _ _ _ _ Hs H2) as [_ Hl2].
      split; [apply Qle_trans with (time m1) | apply Qle_trans with (time m2)];
        tauto. }
    split; [exact Hnone|].
    unfold get_current_segment_index. now rewrite Hnone.
Qed.

Lemma X2_segments_cover_timeline_witness :
  (exists i, get_current_segment_index
               [sg 0 0 10 ""; sg 1 10 25 "X"; sg 2 25 40 ""] 25 = Some i) /\
  get_segment_at_time [sg 0 0 10 ""; sg 1 10 25 "X"; sg 2 25 40 ""] 41 = None.
Proof.
  destruct (X2_segments_cover_timeline
              [mk 0 "Marker0"; mk 10 "Marker1"; mk 25 "Marker2"; mk 40 "Marker500"]
              [sg 0 0 10 ""; sg 1 10 40 "X"]
              [sg 0 0 10 ""; sg 1 10 25 "X"; sg 2 25 40 ""]
              (mk 0 "Marker0") (mk 40 "Marker500")
              [mk 10 "Marker1"; mk 25 "Marker2"] 25)
    as [Hin _]; [vm_compute; reflexivity | reflexivity|].
  destruct (X2_segments_cover_timeline
              [mk 0 "Marker0"; mk 10 "Marker1"; mk 25 "Marker2"; mk 40 "Marker500"]
              [sg 0 0 10 ""; sg 1 10 40 "X"]
              [sg 0 0 10 ""; sg 1 10 25 "X"; sg 2 25 40 ""]
              (mk 0 "Marker0") (mk 40 "Marker500")
              [mk 10 "Marker1"; mk 25 "Marker2"] 41)
    as [_ Hout]; [vm_compute; reflexivity | reflexivity|].
  split.
  - destruct Hin as (i & _ & _ & Hi & _).
    + split; vm_compute; discriminate.
    + now exists i.
  - apply Hout. intros [_ H]. vm_compute in H. now apply H.
Defined.






(* ------------------------------------------------------------------ *)
(** ** Recomputing without a change *)

(** With the old segments being the consecutive pairs of the (strictly
    increasing) marker times, every new segment takes the content of the
    old segment of its range. *)
Lemma build_unchanged (m : Marker) :
  forall (front : list Marker) (E0 E1 : list Segment) (used : list nat),
    map seg_range E1 = ranges (map time (front ++ [m])) ->
    StronglySorted Qlt (map time (front ++ [m])) ->
    used_below (List.length E0) used ->
    exists segs u,
      build_segments (List.length E0) (front ++ [m]) (E0 ++ E1) used
      = Ok (segs, u) /\
      map seg_content segs = map seg_content E1.
Proof.
  induction front as [|f front' IH]; intros E0 E1 used Hr Hs Hu.
  - simpl in Hr. apply map_eq_nil in Hr. subst E1.
    exists [], used. split; reflexivity.
  - assert (Hnext : exists n tl r,
               (front' ++ [m])%list = n :: tl /\
               map time (front' ++ [m]) = time n :: r).
    { destruct front' as [|g front'']; simpl; eauto. }
    destruct Hnext as (n & tl & r & Htl & Hts).
    change (map time ((f :: front') ++ [m]))
      with (time f :: map time (front' ++ [m])) in Hr, Hs.
    inversion Hs as [|? ? Hs' Hall]; subst.
    assert (Hfn : time f < time n).
    { rewrite Hts in Hall. now inversion Hall. }
    rewrite Hts, ranges_cons2 in Hr.
    apply map_eq_cons in Hr. destruct Hr as (o & E1' & -> & Ho & Hr').
    injection Ho as Hos Hoe.
    rewrite <- Hts in Hr'.
    destruct (IH (E0 ++ [o])%list E1' (List.length E0 :: used) Hr' Hs')
      as (segs & u & Heq & Hc).
    { rewrite length_app. simpl. rewrite Nat.add_1_r.
      now apply used_below_cons. }
    rewrite length_app in Heq. simpl in Heq. rewrite Nat.add_1_r in Heq.
    rewrite <- app_assoc in Heq. simpl in Heq.
    change ((f :: front') ++ [m])%list with (f :: (front' ++ [m]))%list.
    rewrite Htl.
    rewrite (build_step _ f n tl _ used (List.length E0 :: used) (seg_content o)).
    + rewrite <- Htl, Heq. eexists. exists u. split; [reflexivity|].
      simpl. now rewrite Hc.
    + apply migrate_left_aligned; trivial.
      * rewrite Hoe. lra.
      * apply after_elsewhere.
        eapply starts_after_elsewhere; [exact Hr' | exact Hall].
    + lra.
Qed.

Lemma computed_ranges (ms : list Marker) :
  forall segs, computed_from ms segs ->
               map seg_range segs = ranges (map time ms).
Proof.
  assert (H : forall ms segs (i : nat),
             List.length segs = pred (List.length ms) ->
             (forall k s, nth_error segs k = Some s ->
                          segment_of_pair ms k (i + k) s) ->
             map seg_range segs = ranges (map time ms)).
  { clear ms. induction ms as [|m1 tl IH]; intros segs i Hlen Hn.
    - destruct segs; [reflexivity | discriminate].
    - destruct tl as [|m2 tl'].
      + destruct segs; [reflexivity | discriminate].
      + destruct segs as [|s segs']; [discriminate|].
        simpl map. rewrite ranges_cons2.
        destruct (Hn 0%nat s eq_refl) as (a & b & Ha & Hb & _ & Hst & Hen & _).
        simpl in Ha, Hb. injection Ha as <-. injection Hb as <-.
        f_equal; [unfold seg_range; congruence|].
        apply (IH segs' (S i)).
        * simpl in Hlen. simpl. lia.
        * intros k s' Hk.
          destruct (Hn (S k) s' Hk)
            as (a & b & Ha & Hb & Hi & Hst' & Hen' & Hd & Hc & Hle & Hd0).
          exists a, b. simpl in Ha, Hb.
          replace (S i + k)%nat with (i + S k)%nat by lia.
          repeat split; assumption. }
  intros segs [Hlen Hn]. apply (H ms segs 0%nat Hlen). exact Hn.
Qed.

Lemma segment_fields_eq (s1 s2 : Segment) :
  index s1 = index s2 -> start_time s1 = start_time s2 ->
  end_time s1 = end_time s2 -> duration s1 = duration s2 ->
  seg_comment s1 = seg_comment s2 -> seg_content s1 = seg_content s2 ->
  s1 = s2.
Proof.
  destruct s1, s2. simpl. intros. subst. reflexivity.
Qed.

Lemma recompute_keeps_contents (markers : list Marker) (existing : list Segment) :
  StronglySorted Qlt (map time (sort_by_time markers)) ->
  map seg_range existing = ranges (map time (sort_by_time markers)) ->
  exists segs,
    _calculate_segments markers existing = Ok segs /\
    map seg_content segs = map seg_content existing /\
    map seg_range segs = map seg_range existing.
Proof.
  intros Hs Hr.
  assert (Hc : exists segs,
             _calculate_segments markers existing = Ok segs /\
             map seg_content segs = map seg_content existing).
  { unfold _calculate_segments, calculate_segments_used.
    destruct (List.length (sort_by_time markers) <? 2)%nat eqn:E.
    - apply Nat.ltb_lt in E. exists []. split; [reflexivity|].
      destruct (sort_by_time markers) as [|x [|y tl]]; simpl in E, Hr;
        try lia; apply map_eq_nil in Hr; now subst.
    - apply Nat.ltb_ge in E.
      destruct (sort_by_time markers) as [|x tl] eqn:Es; [simpl in E; lia|].
      assert (Hne : x :: tl <> []) by discriminate.
      destruct (exists_last Hne) as (front & m & Hfm).
      rewrite Hfm in *.
      destruct (build_unchanged m front [] existing [] Hr Hs used_below_0)
        as (segs & u & Hb & Hcont).
      simpl in Hb. rewrite Hb. exists segs. split; [reflexivity | exact Hcont]. }
  destruct Hc as (segs & Hc & Hcont). exists segs.
  split; [exact Hc|]. split; [exact Hcont|].
  apply computed_segments in Hc. destruct Hc as [Hcomp _].
  rewrite (computed_ranges _ _ Hcomp). now symmetry.
Qed.

(** Extra X5.  With strictly increasing marker times, recomputing the
    segments when no marker has changed keeps every content: against old
    segments that are the consecutive pairs of the markers (whatever
    their contents), the new segments have the same ranges and the same
    contents; and recomputing against its own result returns that result
    again. *)
Theorem X5_recompute_is_idempotent (markers : list Marker) :
  StronglySorted Qlt (map time (sort_by_time markers)) ->
  (forall existing,
     map seg_range existing = ranges (map time (sort_by_time markers)) ->
     exists segs,
       _calculate_segments markers existing = Ok segs /\
       map seg_content segs = map seg_content existing /\
       map seg_range segs = map seg_range existing) /\
  (forall existing segs,
     _calculate_segments markers existing = Ok segs ->
     _calculate_segments markers segs = Ok segs).
Proof.
  intro Hs. split; [intros existing; now apply recompute_keeps_contents|].
  intros existing segs Hc.
  apply computed_segments in Hc. destruct Hc as [Hcomp _].
  destruct (recompute_keeps_contents markers segs Hs (computed_ranges _ _ Hcomp))
    as (segs' & Hc' & Hcont & _).
  rewrite Hc'. f_equal.
  apply computed_segments in Hc'. destruct Hc' as [Hcomp' _].
  destruct Hcomp as [Hlen Hn]. destruct Hcomp' as [Hlen' Hn'].
  apply nth_error_ext. intro k.
  destruct (nth_error segs' k) as [s'|] eqn:E'.
  - destruct (nth_error segs k) as [s|] eqn:E.
    + f_equal.
      destruct (Hn k s E) as (a & b & Ha & Hb & Hi & Hst & Hen & Hd & Hcm & _).
      destruct (Hn' k s' E')
        as (a' & b' & Ha' & Hb' & Hi' & Hst' & Hen' & Hd' & Hcm' & _).
      rewrite Ha in Ha'. rewrite Hb in Hb'.
      injection Ha' as <-. injection Hb' as <-.
      assert (Hk : nth_error (map seg_content segs') k
                   = nth_error (map seg_content segs) k) by now rewrite Hcont.
      rewrite !nth_error_map, E, E' in Hk. simpl in Hk. injection Hk as Hk.
      apply segment_fields_eq; congruence.
    + apply nth_error_None in E.
      assert (k < List.length segs')%nat by (apply nth_error_Some; congruence).
      lia.
  - destruct (nth_error segs k) as [s|] eqn:E; [|reflexivity].
    apply nth_error_None in E'.
    assert (k < List.length segs)%nat by (apply nth_error_Some; congruence).
    lia.
Qed.

Lemma X5_recompute_is_idempotent_witness :
  _calculate_segments
    [mk 0 "Marker0"; mk 10 "Marker1"; mk 25 "Marker2"; mk 40 "Marker500"]
    [sg 0 0 10 "a"; sg 1 10 25 "b"; sg 2 25 40 "c"]
  = Ok [sg 0 0 10 "a"; sg 1 10 25 "b"; sg 2 25 40 "c"].
Proof.
  destruct (X5_recompute_is_idempotent
              [mk 0 "Marker0"; mk 10 "Marker1"; mk 25 "Marker2"; mk 40 "Marker500"])
    as [_ H].
  - repeat constructor; reflexivity.
  - apply (H [sg 0 0 10 "a"; sg 1 10 25 "b"; sg 2 25 40 "c"]).
    vm_compute. reflexivity.
Defined.

(* ================================================================== *)
(** * Further properties of the marker manager *)

(** ** The two stacks *)

Lemma push_undo_stack (op : Operation) (mm : MarkerManager) :
  exists u, undo_stack (push_to_undo_stack op mm) = (u ++ [op])%list /\
            (List.length (undo_stack mm) <= max_history ->
             List.length (u ++ [op]) <= max_history)%nat /\
            redo_stack (push_to_undo_stack op mm) = [] /\
            markers (push_to_undo_stack op mm) = markers mm.
Proof.
  unfold push_to_undo_stack. cbn [undo_stack redo_stack markers set_stacks].
  destruct (undo_stack mm) as [|o u].
  - exists []. repeat split. unfold max_history. simpl. lia.
  - destruct (max_history <? List.length ((o :: u) ++ [op]))%nat eqn:E.
    + exists u. repeat split. rewrite !length_app. simpl. lia.
    + exists (o :: u). repeat split. intros _. now apply Nat.ltb_ge in E.
Qed.

(** A call of the manager either leaves the two stacks alone or pushes
    one record. *)
Lemma step_stacks (a : Action) (mm : MarkerManager) :
  (undo_stack (step mm a) = undo_stack mm /\
   redo_stack (step mm a) = redo_stack mm) \/
  (exists op, undo_stack (step mm a) = undo_stack (push_to_undo_stack op mm) /\
              redo_stack (step mm a) = [] /\
              (StronglySorted time_le (markers mm) -> op_sorted op)).
Proof.
  destruct a as [inp|inp|inp|inp|inp|inp|idx]; simpl.
  - left. unfold add_marker.
    destruct (negb (current_file mm)); [split; reflexivity|].
    destruct (max_markers <=? List.length (markers mm))%nat; [split; reflexivity|].
    destruct (beyond_duration mm (add_marker_time inp)); [split; reflexivity|].
    destruct (within_1_second (markers mm) (add_marker_time inp));
      [split; reflexivity|].
    destruct (append_and_renumber _ _) as [l new_marker].
    destruct (index_of new_marker l); split; reflexivity.
  - unfold add_marker_at_time.
    destruct (negb (current_file mm)); [left; split; reflexivity|].
    destruct (max_markers <=? List.length (markers mm))%nat;
      [left; split; reflexivity|].
    destruct (total_seconds inp) as [total|]; [|left; split; reflexivity].
    destruct (beyond_duration mm total); [left; split; reflexivity|].
    destruct (within_1_second (markers mm) total); [left; split; reflexivity|].
    destruct (append_and_renumber _ _) as [l new_marker].
    destruct (index_of new_marker l) as [i|]; [|left; split; reflexivity].
    right. exists (Op_add_marker i new_marker). repeat split; reflexivity.
  - unfold update_selected_marker_time.
    destruct (negb (current_file mm)); [left; split; reflexivity|].
    destruct (selected_marker_index mm) as [selected|];
      [|left; split; reflexivity].
    destruct (nth_error (markers mm) selected) as [m|];
      [|left; split; reflexivity].
    destruct (total_seconds inp) as [total|]; [|left; split; reflexivity].
    destruct (beyond_duration mm total); [left; split; reflexivity|].
    destruct (within_1_second_except m (markers mm) total);
      [left; split; reflexivity|].
    right. eexists.
    cbn [markers push_to_undo_stack set_stacks set_markers].
    destruct (index_of _ _); repeat split; reflexivity.
  - unfold delete_selected_marker.
    destruct (curselection inp); [left; split; reflexivity|].
    destruct (collect_to_delete _ _); [left; split; reflexivity|].
    destruct (negb (askyesno inp)); [left; split; reflexivity|].
    right. eexists.
    cbn [markers push_to_undo_stack set_stacks set_markers].
    destruct (delete_each _ _) as [rest raised].
    destruct raised; repeat split; reflexivity.
  - unfold delete_nearest_marker.
    destruct (negb (current_file mm) || (List.length (markers mm) =? 0)%nat);
      [left; split; reflexivity|].
    destruct (nearest_from 0 (markers mm) (current_pos inp) None)
      as [[marker_idx marker]|]; [|left; split; reflexivity].
    destruct (is_fixed marker); [left; split; reflexivity|].
    destruct (negb (askyesno inp)); [left; split; reflexivity|].
    right. eexists. repeat split; reflexivity.
  - unfold delete_all_markers.
    destruct (filter _ _); [left; split; reflexivity|].
    destruct (negb (askyesno inp)); [left; split; reflexivity|].
    right. eexists. split; [reflexivity|]. split; [reflexivity|].
    intro Hs. exact Hs.
  - left. unfold edit_marker_by_index.
    destruct (nth_error (markers mm) idx); split; reflexivity.
Qed.

Lemma undo_action_stacks (mm : MarkerManager) :
  match pop (undo_stack mm) with
  | None => undo_stack (undo_action mm) = undo_stack mm /\
            redo_stack (undo_action mm) = redo_stack mm
  | Some (rest, op) =>
      undo_stack (undo_action mm) = rest /\
      redo_stack (undo_action mm) = (redo_stack mm ++ [op])%list
  end.
Proof.
  unfold undo_action. destruct (pop (undo_stack mm)) as [[rest op]|].
  - destruct op; cbn [markers undo_stack redo_stack set_stacks set_markers set_status];
      repeat match goal with
             | |- context [if ?c then _ else _] => destruct c
             end; split; reflexivity.
  - split; reflexivity.
Qed.

Lemma redo_action_stacks (mm : MarkerManager) :
  match pop (redo_stack mm) with
  | None => undo_stack (redo_action mm) = undo_stack mm /\
            redo_stack (redo_action mm) = redo_stack mm
  | Some (rest, op) =>
      undo_stack (redo_action mm) = (undo_stack mm ++ [op])%list /\
      redo_stack (redo_action mm) = rest
  end.
Proof.
  unfold redo_action. destruct (pop (redo_stack mm)) as [[rest op]|].
  - destruct op; cbn [markers undo_stack redo_stack set_stacks set_markers set_status];
      repeat match goal with
             | |- context [if ?c then _ else _] => destruct c
             end; split; reflexivity.
  - split; reflexivity.
Qed.

Lemma pop_some {A : Type} (l rest : list A) (x : A) :
  pop l = Some (rest, x) -> l = (rest ++ [x])%list.
Proof.
  unfold pop. destruct (rev l) as [|y r] eqn:E; [discriminate|].
  intro H. injection H as <- <-.
  rewrite <- (rev_involutive l), E. reflexivity.
Qed.

(** Extra X6.  The history stays bounded: when the undo and the redo
    stack together hold at most 50 records, they still do after any
    sequence of manager calls, undos and redos. *)
Theorem X6_history_is_bounded (mm : MarkerManager) (cs : list Command) :
  (List.length (undo_stack mm) + List.length (redo_stack mm) <= max_history)%nat ->
  (List.length (undo_stack (exec_all mm cs))
   + List.length (redo_stack (exec_all mm cs)) <= max_history)%nat.
Proof.
  revert mm. induction cs as [|c tl IH]; intros mm H; simpl; [exact H|].
  apply IH. destruct c as [a| |]; simpl.
  - destruct (step_stacks a mm) as [[Hu Hr]|(op & Hu & Hr & _)].
    + now rewrite Hu, Hr.
    + rewrite Hu, Hr.
      destruct (push_undo_stack op mm) as (u & Eu & Hlen & _).
      rewrite Eu. cbn [List.length]. rewrite Nat.add_0_r. apply Hlen. lia.
  - pose proof (undo_action_stacks mm) as Hs.
    destruct (pop (undo_stack mm)) as [[rest op]|] eqn:E.
    + destruct Hs as [Hu Hr]. rewrite Hu, Hr.
      apply pop_some in E. rewrite E in H. rewrite !length_app in *. simpl in *.
      lia.
    + destruct Hs as [Hu Hr]. now rewrite Hu, Hr.
  - pose proof (redo_action_stacks mm) as Hs.
    destruct (pop (redo_stack mm)) as [[rest op]|] eqn:E.
    + destruct Hs as [Hu Hr]. rewrite Hu, Hr.
      apply pop_some in E. rewrite E in H. rewrite !length_app in *. simpl in *.
      lia.
    + destruct Hs as [Hu Hr]. now rewrite Hu, Hr.
Qed.

Lemma X6_history_is_bounded_witness :
  (List.length
     (undo_stack
        (exec_all (manager_of fixed_only None)
           [Do (AddAtTime (inputs None ("0", 0%Z) ("20", 20%Z) []));
            Undo; Redo; Do (DeleteAll (inputs None ("0", 0%Z) ("0", 0%Z) []))]))
   + List.length
       (redo_stack
          (exec_all (manager_of fixed_only None)
             [Do (AddAtTime (inputs None ("0", 0%Z) ("20", 20%Z) []));
              Undo; Redo; Do (DeleteAll (inputs None ("0", 0%Z) ("0", 0%Z) []))]))
   <= max_history)%nat.
Proof.
  apply X6_history_is_bounded. simpl. unfold max_history. lia.
Defined.

(** ** Deleting all user markers *)

Lemma filter_nil_all {A : Type} (f : A -> bool) (l : list A) :
  filter (fun x => negb (f x)) l = [] -> filter f l = l.
Proof.
  induction l as [|x tl IH]; simpl; [reflexivity|].
  destruct (f x); simpl; [|discriminate].
  intro H. now rewrite IH.
Qed.

Lemma filter_negb_filter {A : Type} (f : A -> bool) (l : list A) :
  filter (fun x => negb (f x)) (filter f l) = [].
Proof.
  induction l as [|x tl IH]; simpl; [reflexivity|].
  destruct (f x) eqn:E; simpl; [rewrite E; simpl|]; exact IH.
Qed.

(** Extra X7.  A confirmed [delete_all_markers] leaves exactly the
    markers named Marker0 or Marker500, in their order; calling it again
    changes neither the marker list nor the two stacks (it only reports
    that there is nothing to delete). *)
Theorem X7_delete_all_twice (inp inp2 : Inputs) (mm : MarkerManager) :
  askyesno inp = true ->
  let mm1 := delete_all_markers inp mm in
  let mm2 := delete_all_markers inp2 mm1 in
  markers mm1 = filter is_fixed (markers mm) /\
  markers mm2 = markers mm1 /\
  undo_stack mm2 = undo_stack mm1 /\
  redo_stack mm2 = redo_stack mm1 /\
  status_label mm2 = NoUserMarkersToDelete.
Proof.
  intros Hyes mm1 mm2.
  assert (H1 : markers mm1 = filter is_fixed (markers mm)).
  { unfold mm1, delete_all_markers. rewrite Hyes.
    destruct (filter (fun m => negb (is_fixed m)) (markers mm)) eqn:E.
    - simpl. symmetry. now apply filter_nil_all.
    - reflexivity. }
  split; [exact H1|].
  assert (E2 : filter (fun m => negb (is_fixed m)) (markers mm1) = [])
    by (rewrite H1; apply filter_negb_filter).
  unfold mm2, delete_all_markers. rewrite E2. repeat split; reflexivity.
Qed.

Lemma X7_delete_all_twice_witness :
  markers (delete_all_markers (inputs None ("0", 0%Z) ("0", 0%Z) [])
             (delete_all_markers (inputs None ("0", 0%Z) ("0", 0%Z) [])
                (manager_of four_markers None)))
  = fixed_only.
Proof.
  destruct (X7_delete_all_twice (inputs None ("0", 0%Z) ("0", 0%Z) [])
              (inputs None ("0", 0%Z) ("0", 0%Z) [])
              (manager_of four_markers None) eq_refl)
    as (H1 & H2 & _).
  rewrite H2, H1. reflexivity.
Defined.

Lemma pop_push (op : Operation) (mm : MarkerManager) :
  exists u, pop (undo_stack (push_to_undo_stack op mm)) = Some (u, op).
Proof.
  destruct (push_undo_stack op mm) as (u & Eu & _).
  exists u. rewrite Eu. apply pop_app.
Qed.

(** Extra X8.  Undoing a confirmed [delete_all_markers] that deleted
    something gives back the marker list exactly as it was before, and
    puts the record on the redo stack. *)
Theorem X8_undo_delete_all (inp : Inputs) (mm : MarkerManager) (m : Marker) :
  askyesno inp = true ->
  In m (markers mm) -> is_fixed m = false ->
  markers (undo_action (delete_all_markers inp mm)) = markers mm /\
  redo_stack (undo_action (delete_all_markers inp mm))
  = [Op_delete_all_markers (markers mm)].
Proof.
  intros Hyes Hin Hnf. unfold delete_all_markers. rewrite Hyes.
  destruct (filter (fun m => negb (is_fixed m)) (markers mm)) eqn:E.
  - exfalso.
    assert (Hf : In m (filter (fun m => negb (is_fixed m)) (markers mm)))
      by (apply filter_In; split; [exact Hin | now rewrite Hnf]).
    rewrite E in Hf. destruct Hf.
  - cbn [negb]. cbv iota.
    destruct (pop_push (Op_delete_all_markers (markers mm)) mm) as [u Hu].
    unfold undo_action.
    cbn [undo_stack redo_stack markers set_status set_markers].
    rewrite Hu. split; reflexivity.
Qed.

Lemma X8_undo_delete_all_witness :
  markers (undo_action
             (delete_all_markers (inputs None ("0", 0%Z) ("0", 0%Z) [])
                                 (manager_of four_markers None)))
  = four_markers.
Proof.
  apply (X8_undo_delete_all (inputs None ("0", 0%Z) ("0", 0%Z) [])
           (manager_of four_markers None) (mk 10 "Marker1")).
  - reflexivity.
  - simpl. tauto.
  - reflexivity.
Defined.

(** ** The marker list stays sorted *)

Lemma renumber_sorted (l : list Marker) :
  StronglySorted time_le (_renumber_user_markers l).
Proof.
  unfold _renumber_user_markers, renumber_objs.
  apply (sort_objs_sorted (fun m : Marker => m)).
Qed.

Lemma remove_at_beyond (idx : nat) (l : list Marker) :
  (List.length l <= idx)%nat -> remove_at idx l = l.
Proof.
  intro H. unfold remove_at.
  rewrite firstn_all2 by lia. rewrite skipn_all2 by lia. apply app_nil_r.
Qed.

Lemma remove_at_sorted (idx : nat) (l : list Marker) :
  StronglySorted time_le l -> StronglySorted time_le (remove_at idx l).
Proof.
  intro Hs. destruct (nth_error l idx) as [m|] eqn:E.
  - apply nth_error_split in E. destruct E as (l1 & l2 & -> & <-).
    rewrite remove_at_middle. now apply StronglySorted_remove in Hs.
  - apply nth_error_None in E. now rewrite remove_at_beyond.
Qed.

Lemma filter_sorted (f : Marker -> bool) (l : list Marker) :
  StronglySorted time_le l -> StronglySorted time_le (filter f l).
Proof.
  induction 1 as [|x tl Hs IH Hall]; simpl; [constructor|].
  destruct (f x); [|exact IH]. constructor; [exact IH|].
  rewrite Forall_forall in *. intros y Hy. apply filter_In in Hy.
  apply Hall. tauto.
Qed.

Lemma delete_each_sorted (to_delete : list (nat * Marker)) :
  forall l, StronglySorted time_le l ->
            StronglySorted time_le (fst (delete_each to_delete l)).
Proof.
  induction to_delete as [|[idx m] tl IH]; intros l Hs; simpl; [exact Hs|].
  destruct (idx <? List.length l)%nat; [|exact Hs].
  apply IH. now apply remove_at_sorted.
Qed.

Lemma step_sorted (a : Action) (mm : MarkerManager) :
  StronglySorted time_le (markers mm) ->
  StronglySorted time_le (markers (step mm a)).
Proof.
  intro Hs. destruct a as [inp|inp|inp|inp|inp|inp|idx]; simpl.
  - unfold add_marker.
    destruct (negb (current_file mm)); [exact Hs|].
    destruct (max_markers <=? List.length (markers mm))%nat; [exact Hs|].
    destruct (beyond_duration mm (add_marker_time inp)); [exact Hs|].
    destruct (within_1_second (markers mm) (add_marker_time inp)); [exact Hs|].
    pose proof (append_and_renumber_markers (markers mm)
                  (new_marker_at (clamp_at_zero (add_marker_time inp)))) as E.
    destruct (append_and_renumber _ _) as [l new_marker]. simpl in E.
    assert (Hl : StronglySorted time_le l) by (rewrite E; apply renumber_sorted).
    destruct (index_of new_marker l); exact Hl.
  - unfold add_marker_at_time.
    destruct (negb (current_file mm)); [exact Hs|].
    destruct (max_markers <=? List.length (markers mm))%nat; [exact Hs|].
    destruct (total_seconds inp) as [total|]; [|exact Hs].
    destruct (beyond_duration mm total); [exact Hs|].
    destruct (within_1_second (markers mm) total); [exact Hs|].
    pose proof (append_and_renumber_markers (markers mm)
                  (new_marker_at (clamp_at_zero total))) as E.
    destruct (append_and_renumber _ _) as [l new_marker]. simpl in E.
    assert (Hl : StronglySorted time_le l) by (rewrite E; apply renumber_sorted).
    destruct (index_of new_marker l); exact Hl.
  - unfold update_selected_marker_time.
    destruct (negb (current_file mm)); [exact Hs|].
    destruct (selected_marker_index mm) as [selected|]; [|exact Hs].
    destruct (nth_error (markers mm) selected) as [m|]; [|exact Hs].
    destruct (total_seconds inp) as [total|]; [|exact Hs].
    destruct (beyond_duration mm total); [exact Hs|].
    destruct (within_1_second_except m (markers mm) total); [exact Hs|].
    cbn [markers push_to_undo_stack set_stacks set_markers].
    destruct (index_of _ _); apply sort_by_time_sorted.
  - unfold delete_selected_marker.
    destruct (curselection inp); [exact Hs|].
    destruct (collect_to_delete _ _); [exact Hs|].
    destruct (negb (askyesno inp)); [exact Hs|].
    cbn [markers push_to_undo_stack set_stacks set_markers].
    pose proof (delete_each_sorted
                  (sort_desc (p :: l0)) (markers mm) Hs) as Hd.
    destruct (delete_each _ _) as [rest raised]. simpl in Hd.
    destruct raised; [exact Hd | apply renumber_sorted].
  - unfold delete_nearest_marker.
    destruct (negb (current_file mm) || (List.length (markers mm) =? 0)%nat);
      [exact Hs|].
    destruct (nearest_from 0 (markers mm) (current_pos inp) None)
      as [[marker_idx marker]|]; [|exact Hs].
    destruct (is_fixed marker); [exact Hs|].
    destruct (negb (askyesno inp)); [exact Hs|].
    cbn [markers push_to_undo_stack set_stacks set_markers set_status].
    now apply remove_at_sorted.
  - unfold delete_all_markers.
    destruct (filter _ _); [exact Hs|].
    destruct (negb (askyesno inp)); [exact Hs|].
    cbn [markers push_to_undo_stack set_stacks set_markers set_status].
    now apply filter_sorted.
  - now rewrite edit_marker_by_index_markers.
Qed.

Lemma Forall_tl {A : Type} (P : A -> Prop) (l : list A) :
  Forall P l -> Forall P (tl l).
Proof. destruct 1; [constructor | assumption]. Qed.

Lemma push_forall (P : Operation -> Prop) (op : Operation) (mm : MarkerManager) :
  Forall P (undo_stack mm) -> P op ->
  Forall P (undo_stack (push_to_undo_stack op mm)).
Proof.
  intros Hu Hop. unfold push_to_undo_stack. cbn [undo_stack set_stacks].
  assert (Hall : Forall P (undo_stack mm ++ [op]))
    by (apply Forall_app; split; [exact Hu | now constructor]).
  destruct (max_history <? _)%nat; [now apply Forall_tl | exact Hall].
Qed.

Lemma undo_action_sorted (mm : MarkerManager) :
  sorted_state mm -> sorted_state (undo_action mm).
Proof.
  intros (Hm & Hu & Hr).
  pose proof (undo_action_stacks mm) as Hst.
  destruct (pop (undo_stack mm)) as [[rest op]|] eqn:E.
  - destruct Hst as [Eu Er]. pose proof (pop_some _ _ _ E) as El.
    rewrite El in Hu. apply Forall_app in Hu. destruct Hu as [Hrest Hop].
    pose proof (Forall_inv Hop) as Hop'.
    split; [|split].
    + unfold undo_action. rewrite E.
      destruct op; cbn [markers undo_stack redo_stack set_stacks set_markers set_status];
        repeat match goal with
               | |- context [if ?c then _ else _] => destruct c
               end;
        cbn [markers set_stacks set_markers set_status];
        first [ exact Hm | apply sort_by_time_sorted | apply renumber_sorted
              | exact Hop' ].
    + rewrite Eu. exact Hrest.
    + rewrite Er. apply Forall_app. split; [exact Hr | now constructor].
  - destruct Hst as [Eu Er]. unfold undo_action. rewrite E.
    split; [exact Hm|]. split; [exact Hu | exact Hr].
Qed.

Lemma redo_action_sorted (mm : MarkerManager) :
  sorted_state mm -> sorted_state (redo_action mm).
Proof.
  intros (Hm & Hu & Hr).
  pose proof (redo_action_stacks mm) as Hst.
  destruct (pop (redo_stack mm)) as [[rest op]|] eqn:E.
  - destruct Hst as [Eu Er]. pose proof (pop_some _ _ _ E) as El.
    rewrite El in Hr. apply Forall_app in Hr. destruct Hr as [Hrest Hop].
    pose proof (Forall_inv Hop) as Hop'.
    split; [|split].
    + unfold redo_action. rewrite E.
      destruct op; cbn [markers undo_stack redo_stack set_stacks set_markers set_status];
        repeat match goal with
               | |- context [if ?c then _ else _] => destruct c
               end;
        cbn [markers set_stacks set_markers set_status];
        first [ exact Hm | apply sort_by_time_sorted | apply renumber_sorted
              | constructor ].
    + rewrite Eu. apply Forall_app. split; [exact Hu | now constructor].
    + rewrite Er. exact Hrest.
  - destruct Hst as [Eu Er]. unfold redo_action. rewrite E.
    split; [exact Hm|]. split; [exact Hu | exact Hr].
Qed.

Lemma exec_sorted (c : Command) (mm : MarkerManager) :
  sorted_state mm -> sorted_state (exec mm c).
Proof.
  intro H. destruct c as [a| |]; simpl.
  - destruct H as (Hm & Hu & Hr). split; [now apply step_sorted|].
    destruct (step_stacks a mm) as [[Eu Er]|(op & Eu & Er & Hop)].
    + rewrite Eu, Er. now split.
    + rewrite Eu, Er. split; [|constructor].
      apply push_forall; [exact Hu | now apply Hop].
  - now apply undo_action_sorted.
  - now apply redo_action_sorted.
Qed.

(** Extra X9.  From a marker list sorted by time (and stacks whose
    "delete all" records hold sorted lists, as every record written by
    [delete_all_markers] from a sorted list does), every sequence of
    manager calls, undos and redos leaves the marker list sorted by
    time. *)
Theorem X9_markers_stay_sorted (mm : MarkerManager) (cs : list Command) :
  StronglySorted time_le (markers mm) ->
  Forall op_sorted (undo_stack mm) ->
  Forall op_sorted (redo_stack mm) ->
  StronglySorted time_le (markers (exec_all mm cs)).
Proof.
  intros Hm Hu Hr.
  assert (H : sorted_state (exec_all mm cs)).
  { assert (H0 : sorted_state mm) by (split; [|split]; assumption).
    clear Hm Hu Hr. revert mm H0.
    induction cs as [|c tl IH]; intros mm H0; simpl; [exact H0|].
    apply IH. now apply exec_sorted. }
  apply H.
Qed.

Lemma X9_markers_stay_sorted_witness :
  StronglySorted time_le
    (markers
       (exec_all (manager_of fixed_only None)
          [Do (AddAtTime (inputs None ("0", 0%Z) ("20", 20%Z) []));
           Do (Add (inputs (Some 10) ("0", 0%Z) ("0", 0%Z) []));
           Do (DeleteAll (inputs None ("0", 0%Z) ("0", 0%Z) []));
           Undo; Redo; Undo])).
Proof.
  apply X9_markers_stay_sorted.
  - repeat constructor. unfold time_le. simpl. discriminate.
  - constructor.
  - constructor.
Defined.

(** ** The capacity *)

Lemma rename_from_length (l : list Marker) :
  forall i, List.length (rename_from with_name i l) = List.length l.
Proof.
  induction l as [|x tl IH]; intro i; simpl; [reflexivity|]. now rewrite IH.
Qed.

Lemma renumber_length (l : list Marker) :
  List.length (_renumber_user_markers l) = List.length l.
Proof.
  unfold _renumber_user_markers, renumber_objs.
  rewrite sort_objs_length, length_app, rename_from_length, sort_objs_length.
  rewrite <- length_app.
  apply Permutation_length.
  apply (filter_split_perm (is_fixed_obj (fun m : Marker => m))).
Qed.

Lemma append_and_renumber_length (l : list Marker) (m : Marker) :
  List.length (fst (append_and_renumber l m)) = S (List.length l).
Proof.
  rewrite append_and_renumber_markers, renumber_length, sort_by_time_length.
  rewrite length_app. simpl. lia.
Qed.

Lemma remove_at_length (idx : nat) (l : list Marker) :
  (List.length (remove_at idx l) <= List.length l)%nat.
Proof.
  destruct (nth_error l idx) as [m|] eqn:E.
  - apply nth_error_split in E. destruct E as (l1 & l2 & -> & <-).
    rewrite remove_at_middle, !length_app. simpl. lia.
  - apply nth_error_None in E. rewrite remove_at_beyond by lia. lia.
Qed.

Lemma delete_each_length (to_delete : list (nat * Marker)) :
  forall l, (List.length (fst (delete_each to_delete l)) <= List.length l)%nat.
Proof.
  induction to_delete as [|[idx m] tl IH]; intro l; simpl; [lia|].
  destruct (idx <? List.length l)%nat; [|simpl; lia].
  specialize (IH (remove_at idx l)).
  pose proof (remove_at_length idx l). lia.
Qed.

Lemma update_at_length (idx : nat) (f : Marker -> Marker) (l : list Marker) :
  List.length (update_at idx f l) = List.length l.
Proof.
  revert idx. induction l as [|x tl IH]; intros [|i]; simpl; trivial.
  now rewrite IH.
Qed.

Lemma step_length (a : Action) (mm : MarkerManager) :
  (List.length (markers mm) <= max_markers)%nat ->
  (List.length (markers (step mm a)) <= max_markers)%nat.
Proof.
  intro H. destruct a as [inp|inp|inp|inp|inp|inp|idx]; simpl.
  - unfold add_marker.
    destruct (negb (current_file mm)); [exact H|].
    destruct (max_markers <=? List.length (markers mm))%nat eqn:Efull; [exact H|].
    apply Nat.leb_gt in Efull.
    destruct (beyond_duration mm (add_marker_time inp)); [exact H|].
    destruct (within_1_second (markers mm) (add_marker_time inp)); [exact H|].
    pose proof (append_and_renumber_length (markers mm)
                  (new_marker_at (clamp_at_zero (add_marker_time inp)))) as E.
    destruct (append_and_renumber _ _) as [l new_marker]. simpl in E.
    destruct (index_of new_marker l); simpl; lia.
  - unfold add_marker_at_time.
    destruct (negb (current_file mm)); [exact H|].
    destruct (max_markers <=? List.length (markers mm))%nat eqn:Efull; [exact H|].
    apply Nat.leb_gt in Efull.
    destruct (total_seconds inp) as [total|]; [|exact H].
    destruct (beyond_duration mm total); [exact H|].
    destruct (within_1_second (markers mm) total); [exact H|].
    pose proof (append_and_renumber_length (markers mm)
                  (new_marker_at (clamp_at_zero total))) as E.
    destruct (append_and_renumber _ _) as [l new_marker]. simpl in E.
    destruct (index_of new_marker l); simpl; lia.
  - unfold update_selected_marker_time.
    destruct (negb (current_file mm)); [exact H|].
    destruct (selected_marker_index mm) as [selected|]; [|exact H].
    destruct (nth_error (markers mm) selected) as [m|]; [|exact H].
    destruct (total_seconds inp) as [total|]; [|exact H].
    destruct (beyond_duration mm total); [exact H|].
    destruct (within_1_second_except m (markers mm) total); [exact H|].
    cbn [markers push_to_undo_stack set_stacks set_markers].
    destruct (index_of _ _);
      cbn [markers set_stacks set_markers set_status set_selected];
      now rewrite sort_by_time_length, update_at_length.
  - unfold delete_selected_marker.
    destruct (curselection inp); [exact H|].
    destruct (collect_to_delete _ _); [exact H|].
    destruct (negb (askyesno inp)); [exact H|].
    cbn [markers push_to_undo_stack set_stacks set_markers].
    pose proof (delete_each_length (sort_desc (p :: l0)) (markers mm)) as Hd.
    destruct (delete_each _ _) as [rest raised]. simpl in Hd.
    destruct raised; cbn [markers set_markers set_status];
      [|rewrite renumber_length]; lia.
  - unfold delete_nearest_marker.
    destruct (negb (current_file mm) || (List.length (markers mm) =? 0)%nat);
      [exact H|].
    destruct (nearest_from 0 (markers mm) (current_pos inp) None)
      as [[marker_idx marker]|]; [|exact H].
    destruct (is_fixed marker); [exact H|].
    destruct (negb (askyesno inp)); [exact H|].
    cbn [markers push_to_undo_stack set_stacks set_markers set_status].
    pose proof (remove_at_length marker_idx (markers mm)). lia.
  - unfold delete_all_markers.
    destruct (filter _ _); [exact H|].
    destruct (negb (askyesno inp)); [exact H|].
    cbn [markers push_to_undo_stack set_stacks set_markers set_status].
    pose proof (filter_length_le is_fixed (markers mm)). lia.
  - now rewrite edit_marker_by_index_markers.
Qed.

(** Extra X10.  The add, move and delete calls never make the marker
    list longer than 100 entries, the fixed markers counted: a list of at
    most 100 markers has at most 100 markers after any sequence of such
    calls. *)
Theorem X10_capacity_is_kept (mm : MarkerManager) (actions : list Action) :
  (List.length (markers mm) <= max_markers)%nat ->
  (List.length (markers (run mm actions)) <= max_markers)%nat.
Proof.
  revert mm. induction actions as [|a tl IH]; intros mm H; simpl; [exact H|].
  apply IH. now apply step_length.
Qed.

Lemma X10_capacity_is_kept_witness :
  (List.length
     (markers (run (manager_of fixed_only None)
                   [Add (inputs (Some 10%Q) ("0", 0%Z) ("0", 0%Z) []);
                    AddAtTime (inputs None ("0", 0%Z) ("20", 20%Z) [])]))
   <= max_markers)%nat.
Proof.
  apply X10_capacity_is_kept. unfold max_markers. simpl. lia.
Defined.

(** ** Rejected requests *)

Lemma within_1_second_found (l : list Marker) (t : Q) (m : Marker) :
  In m l -> is_fixed m = false -> Qabs (time m - t) < 1 ->
  exists e, within_1_second l t = Some e.
Proof.
  induction l as [|x tl IH]; intros Hin Hnf Hd; [destruct Hin|].
  cbn [within_1_second].
  destruct (is_fixed x) eqn:Ef.
  - destruct Hin as [->|Hin]; [congruence | now apply IH].
  - destruct (Qltb (Qabs (time x - t)) 1) eqn:E; [eauto|].
    destruct Hin as [->|Hin]; [|now apply IH].
    apply Qltb_false in E. exfalso. apply (Qle_not_lt _ _ E Hd).
Qed.

Lemma within_1_second_except_found (sel : Marker) (l : list Marker) (t : Q)
    (m : Marker) :
  In m l -> marker_eqb m sel = false -> is_fixed m = false ->
  Qabs (time m - t) < 1 ->
  exists e, within_1_second_except sel l t = Some e.
Proof.
  induction l as [|x tl IH]; intros Hin Hne Hnf Hd; [destruct Hin|].
  cbn [within_1_second_except].
  destruct (marker_eqb x sel || is_fixed x) eqn:Ef.
  - destruct Hin as [->|Hin]; [|now apply IH].
    rewrite Hne, Hnf in Ef. discriminate.
  - destruct (Qltb (Qabs (time x - t)) 1) eqn:E; [eauto|].
    destruct Hin as [->|Hin]; [|now apply IH].
    apply Qltb_false in E. exfalso. apply (Qle_not_lt _ _ E Hd).
Qed.

Lemma beyond_duration_true (mm : MarkerManager) (t : Q) :
  0 < player_duration mm -> player_duration mm - END_TOLERANCE < t ->
  beyond_duration mm t = true.
Proof.
  intros H1 H2. unfold beyond_duration.
  apply andb_true_iff. split; now apply Qltb_lt.
Qed.

(** Extra X11.  A requested time beyond the file duration minus the
    tolerance of 0.5 s (for a positive duration), or less than one second
    from a non-fixed marker, is rejected by both add operations and by
    the move (which disregards markers equal to the selected one): the
    call changes nothing but the status text. *)
Theorem X11_invalid_time_changes_nothing (inp : Inputs) (mm : MarkerManager)
    (t : Q) :
  (add_marker_time inp = t ->
   (0 < player_duration mm /\ player_duration mm - END_TOLERANCE < t) \/
   (exists m, In m (markers mm) /\ is_fixed m = false /\
              Qabs (time m - t) < 1) ->
   exists st, add_marker inp mm = set_status st mm) /\
  (total_seconds inp = Some t ->
   (0 < player_duration mm /\ player_duration mm - END_TOLERANCE < t) \/
   (exists m, In m (markers mm) /\ is_fixed m = false /\
              Qabs (time m - t) < 1) ->
   exists st, add_marker_at_time inp mm = set_status st mm) /\
  (total_seconds inp = Some t ->
   (0 < player_duration mm /\ player_duration mm - END_TOLERANCE < t) \/
   (exists m, In m (markers mm) /\ is_fixed m = false /\
              Qabs (time m - t) < 1 /\
              forall i s, selected_marker_index mm = Some i ->
                          nth_error (markers mm) i = Some s ->
                          marker_eqb m s = false) ->
   exists st, update_selected_marker_time inp mm = set_status st mm).
Proof.
  split; [|split].
  - intros Et Hbad. unfold add_marker. rewrite Et.
    destruct (negb (current_file mm)); [eauto|].
    destruct (max_markers <=? List.length (markers mm))%nat; [eauto|].
    destruct Hbad as [[H1 H2]|(m & Hin & Hnf & Hd)].
    + rewrite beyond_duration_true by assumption. eauto.
    + destruct (beyond_duration mm t); [eauto|].
      destruct (within_1_second_found _ _ _ Hin Hnf Hd) as [e ->]. eauto.
  - intros Et Hbad. unfold add_marker_at_time. rewrite Et.
    destruct (negb (current_file mm)); [eauto|].
    destruct (max_markers <=? List.length (markers mm))%nat; [eauto|].
    destruct Hbad as [[H1 H2]|(m & Hin & Hnf & Hd)].
    + rewrite beyond_duration_true by assumption. eauto.
    + destruct (beyond_duration mm t); [eauto|].
      destruct (within_1_second_found _ _ _ Hin Hnf Hd) as [e ->]. eauto.
  - intros Et Hbad. unfold update_selected_marker_time. rewrite Et.
    destruct (negb (current_file mm)); [eauto|].
    destruct (selected_marker_index mm) as [i|]; [|eauto].
    destruct (nth_error (markers mm) i) as [s|] eqn:Es; [|eauto].
    destruct Hbad as [[H1 H2]|(m & Hin & Hnf & Hd & Hsel)].
    + rewrite beyond_duration_true by assumption. eauto.
    + destruct (beyond_duration mm t); [eauto|].
      destruct (within_1_second_except_found s _ _ _ Hin
                  (Hsel i s eq_refl Es) Hnf Hd) as [e ->].
      eauto.
Qed.

Lemma X11_invalid_time_changes_nothing_witness :
  exists st,
    add_marker_at_time (inputs None ("0", 0%Z) ("10", 10%Z) [])
                       (manager_of three_markers None)
    = set_status st (manager_of three_markers None).
Proof.
  destruct (X11_invalid_time_changes_nothing
              (inputs None ("0", 0%Z) ("10", 10%Z) [])
              (manager_of three_markers None) (1000 # 100))
    as (_ & H & _).
  apply H.
  - reflexivity.
  - right. exists (mk 10 "Marker1").
    split; [simpl; tauto|]. split; reflexivity.
Defined.

(** ** Deleting the nearest marker *)

Lemma nearest_from_spec (pos : Q) (l : list Marker) :
  forall seen best,
    nearest_of pos seen best ->
    match nearest_from (List.length seen) l pos best with
    | None => (seen ++ l)%list = []
    | Some (idx, m) =>
        nearest_of pos (seen ++ l) (Some (Qabs (time m - pos), (idx, m)))
    end.
Proof.
  induction l as [|x tl IH]; intros seen best Hb; cbn [nearest_from].
  - rewrite app_nil_r. destruct best as [[d [bi bm]]|]; simpl.
    + destruct Hb as (Hn & Hd & Hmin). subst d.
      split; [exact Hn|]. split; [reflexivity | exact Hmin].
    + exact Hb.
  - assert (Hstep : forall best',
               nearest_of pos (seen ++ [x]) best' ->
               match nearest_from (S (List.length seen)) tl pos best' with
               | None => (seen ++ x :: tl)%list = []
               | Some (idx, m) =>
                   nearest_of pos (seen ++ x :: tl)
                              (Some (Qabs (time m - pos), (idx, m)))
               end).
    { intros best' Hb'. specialize (IH (seen ++ [x])%list best' Hb').
      rewrite length_app in IH. simpl in IH. rewrite Nat.add_1_r in IH.
      rewrite <- app_assoc in IH. exact IH. }
    assert (Hnew : forall (P : Prop), (forall j y, nth_error seen j = Some y ->
                      Qabs (time x - pos) < Qabs (time y - pos)) ->
                   nearest_of pos (seen ++ [x])
                     (Some (Qabs (time x - pos), (List.length seen, x)))).
    { intros _ Hlt. split; [now apply nth_error_middle|]. split; [reflexivity|].
      intros j y Hj.
      destruct (Nat.lt_ge_cases j (List.length seen)) as [Hjs|Hjs].
      - rewrite nth_error_app1 in Hj by exact Hjs.
        specialize (Hlt j y Hj). split; [now apply Qlt_le_weak | now intros _].
      - rewrite nth_error_app2 in Hj by exact Hjs.
        destruct (j - List.length seen)%nat as [|k] eqn:Ek.
        + simpl in Hj. injection Hj as <-. split; [apply Qle_refl | lia].
        + simpl in Hj. destruct k; discriminate. }
    destruct best as [[d [bi bm]]|].
    + destruct Hb as (Hn & Hd & Hmin).
      destruct (Qltb (Qabs (time x - pos)) d) eqn:E.
      * apply Qltb_lt in E. apply Hstep. apply (Hnew True).
        intros j y Hj. destruct (Hmin j y Hj) as [Hle _].
        eapply Qlt_le_trans; eassumption.
      * apply Qltb_false in E. apply Hstep.
        assert (Hbi : (bi < List.length seen)%nat)
          by (apply nth_error_Some; congruence).
        split; [now rewrite nth_error_app1|]. split; [exact Hd|].
        intros j y Hj.
        destruct (Nat.lt_ge_cases j (List.length seen)) as [Hjs|Hjs].
        -- rewrite nth_error_app1 in Hj by exact Hjs. now apply Hmin.
        -- rewrite nth_error_app2 in Hj by exact Hjs.
           destruct (j - List.length seen)%nat as [|k] eqn:Ek.
           ++ simpl in Hj. injection Hj as <-. split; [exact E | lia].
           ++ simpl in Hj. destruct k; discriminate.
    + simpl in Hb. subst seen. apply Hstep. apply (Hnew True).
      intros j y Hj. destruct j; discriminate.
Qed.

Lemma nearest_from_start (pos : Q) (l : list Marker) :
  match nearest_from 0 l pos None with
  | None => l = []
  | Some (idx, m) => nearest_of pos l (Some (Qabs (time m - pos), (idx, m)))
  end.
Proof. apply (nearest_from_spec pos l [] None). reflexivity. Qed.

(** Extra X12.  With a file loaded, a non-empty marker list and the
    dialog confirmed, [delete_nearest_marker] picks the marker nearest
    to the playback position, the first one among equally near ones.
    When that marker is Marker0 or Marker500 nothing changes but the
    status text; otherwise exactly that marker is removed and a
    "delete_marker" record with its position and its dict is pushed. *)
Theorem X12_delete_nearest (inp : Inputs) (mm : MarkerManager) :
  current_file mm = true -> askyesno inp = true -> markers mm <> [] ->
  exists idx m,
    nth_error (markers mm) idx = Some m /\
    (forall j x, nth_error (markers mm) j = Some x ->
       Qabs (time m - current_pos inp) <= Qabs (time x - current_pos inp) /\
       ((j < idx)%nat ->
        Qabs (time m - current_pos inp) < Qabs (time x - current_pos inp))) /\
    (is_fixed m = true ->
     delete_nearest_marker inp mm
     = set_status (CannotDeleteProtected (name m)) mm) /\
    (is_fixed m = false ->
     markers (delete_nearest_marker inp mm) = remove_at idx (markers mm) /\
     exists u, undo_stack (delete_nearest_marker inp mm)
               = (u ++ [Op_delete_marker idx m])%list).
Proof.
  intros Hfile Hyes Hne.
  pose proof (nearest_from_start (current_pos inp) (markers mm)) as Hn.
  unfold delete_nearest_marker. rewrite Hfile, Hyes.
  destruct (markers mm) as [|m0 l0] eqn:El; [contradiction|].
  rewrite <- El in *. cbn [negb orb].
  replace (List.length (markers mm) =? 0)%nat with false
    by (rewrite El; reflexivity).
  destruct (nearest_from 0 (markers mm) (current_pos inp) None)
    as [[idx m]|]; [|congruence].
  destruct Hn as (Hnth & _ & Hmin).
  exists idx, m. split; [exact Hnth|]. split; [exact Hmin|]. split.
  - intros Hf. now rewrite Hf.
  - intros Hf. rewrite Hf. split; [reflexivity|].
    destruct (push_undo_stack (Op_delete_marker idx m) mm) as (u & Eu & _).
    exists u. exact Eu.
Qed.

Lemma X12_delete_nearest_witness :
  exists idx m,
    nth_error four_markers idx = Some m /\
    markers (delete_nearest_marker
               {| _preview_marker_time := None; current_pos := 12;
                  marker_minute_entry := entry "0" (Some 0%Z);
                  marker_second_entry := entry "0" (Some 0%Z);
                  marker_millisecond_entry := entry "00" (Some 0%Z);
                  curselection := []; askyesno := true |}
               (manager_of four_markers None))
    = remove_at idx four_markers.
Proof.
  destruct (X12_delete_nearest
              {| _preview_marker_time := None; current_pos := 12;
                 marker_minute_entry := entry "0" (Some 0%Z);
                 marker_second_entry := entry "0" (Some 0%Z);
                 marker_millisecond_entry := entry "00" (Some 0%Z);
                 curselection := []; askyesno := true |}
              (manager_of four_markers None))
    as (idx & m & Hn & Hmin & _ & Hdel);
    [reflexivity | reflexivity | discriminate |].
  exists idx, m. split; [exact Hn|].
  apply Hdel.
  destruct (Hmin 1%nat (mk 10 "Marker1") eq_refl) as [H _].
  destruct idx as [|[|[|[|idx]]]]; simpl in Hn.
  - injection Hn as <-. vm_compute in H. exfalso. now apply H.
  - injection Hn as <-. reflexivity.
  - injection Hn as <-. reflexivity.
  - injection Hn as <-. vm_compute in H. exfalso. now apply H.
  - destruct idx; discriminate Hn.
Defined.

Lemma undo_action_core (a b : MarkerManager) :
  same_core a b -> same_core (undo_action a) (undo_action b).
Proof.
  intros (Hm & Hu & Hr). unfold same_core, undo_action. rewrite Hu.
  destruct (pop (undo_stack b)) as [[rest op]|].
  - destruct op;
      cbn [markers undo_stack redo_stack set_stacks set_markers set_status];
      rewrite ?Hm, ?Hr;
      repeat match goal with
             | |- context [if ?c then _ else _] => destruct c
             end;
      cbn [markers undo_stack redo_stack set_stacks set_markers set_status];
      rewrite ?Hm, ?Hr; repeat split; reflexivity.
  - cbn [markers undo_stack redo_stack set_status]. now rewrite Hm, Hu, Hr.
Qed.

Lemma redo_action_core (a b : MarkerManager) :
  same_core a b -> same_core (redo_action a) (redo_action b).
Proof.
  intros (Hm & Hu & Hr). unfold same_core, redo_action. rewrite Hr.
  destruct (pop (redo_stack b)) as [[rest op]|].
  - destruct op;
      cbn [markers undo_stack redo_stack set_stacks set_markers set_status];
      rewrite ?Hm, ?Hu;
      repeat match goal with
             | |- context [if ?c then _ else _] => destruct c
             end;
      cbn [markers undo_stack redo_stack set_stacks set_markers set_status];
      rewrite ?Hm, ?Hu; repeat split; reflexivity.
  - cbn [markers undo_stack redo_stack set_status]. now rewrite Hm, Hu, Hr.
Qed.

(** Extra X13.  On a marker list sorted by time, a [delete_nearest_marker]
    that deleted a marker is undone exactly: [undo_action] gives back the
    marker list of before the deletion, and a following [redo_action]
    the list of after it. *)
Theorem X13_delete_nearest_undo_redo (inp : Inputs) (mm : MarkerManager)
    (idx : nat) (m : Marker) :
  StronglySorted time_le (markers mm) ->
  current_file mm = true -> askyesno inp = true ->
  nearest_from 0 (markers mm) (current_pos inp) None = Some (idx, m) ->
  is_fixed m = false ->
  markers (delete_nearest_marker inp mm) = remove_at idx (markers mm) /\
  markers (undo_action (delete_nearest_marker inp mm)) = markers mm /\
  markers (redo_action (undo_action (delete_nearest_marker inp mm)))
  = markers (delete_nearest_marker inp mm).
Proof.
  intros Hs Hfile Hyes Hn Hnf.
  assert (Hnth : nth_error (markers mm) idx = Some m).
  { pose proof (nearest_from_start (current_pos inp) (markers mm)) as H.
    rewrite Hn in H. apply H. }
  assert (Hlen : (List.length (markers mm) =? 0)%nat = false).
  { destruct (markers mm); [destruct idx; discriminate | reflexivity]. }
  set (deleted := set_markers (remove_at idx (markers mm))
                    (push_to_undo_stack (Op_delete_marker idx m) mm)).
  assert (Hd : delete_nearest_marker inp mm
               = set_status (DeletedNearest (time m)) deleted).
  { unfold delete_nearest_marker. rewrite Hfile, Hyes, Hlen, Hn, Hnf.
    reflexivity. }
  assert (Hcore : same_core (delete_nearest_marker inp mm) deleted)
    by (rewrite Hd; repeat split).
  destruct (undo_redo_delete_marker mm idx m Hs Hnth) as [Hu Hr].
  fold deleted in Hu, Hr.
  pose proof (undo_action_core _ _ Hcore) as Hcore1.
  pose proof (redo_action_core _ _ Hcore1) as Hcore2.
  destruct Hcore as [E0 _]. destruct Hcore1 as [E1 _]. destruct Hcore2 as [E2 _].
  split; [rewrite E0; reflexivity|].
  split; [rewrite E1; exact Hu|].
  rewrite E2, E0. exact Hr.
Qed.

Lemma X13_delete_nearest_undo_redo_witness :
  markers
    (undo_action
       (delete_nearest_marker
          {| _preview_marker_time := None; current_pos := 12;
             marker_minute_entry := entry "0" (Some 0%Z);
             marker_second_entry := entry "0" (Some 0%Z);
             marker_millisecond_entry := entry "00" (Some 0%Z);
             curselection := []; askyesno := true |}
          (manager_of four_markers None)))
  = four_markers.
Proof.
  destruct (X13_delete_nearest_undo_redo
              {| _preview_marker_time := None; current_pos := 12;
                 marker_minute_entry := entry "0" (Some 0%Z);
                 marker_second_entry := entry "0" (Some 0%Z);
                 marker_millisecond_entry := entry "00" (Some 0%Z);
                 curselection := []; askyesno := true |}
              (manager_of four_markers None) 1 (mk 10 "Marker1"))
    as (_ & H & _).
  - repeat constructor; unfold time_le; simpl; discriminate.
  - reflexivity.
  - reflexivity.
  - vm_compute. reflexivity.
  - reflexivity.
  - exact H.
Defined.

(** ** Renumbering *)

Lemma marker_name_inj (n m : nat) : marker_name n = marker_name m -> n = m.
Proof.
  unfold marker_name. simpl. intro H. injection H as H.
  apply (f_equal NilEmpty.uint_of_string) in H.
  rewrite !NilEmpty.usu in H. injection H as H.
  apply (f_equal Nat.of_uint) in H.
  now rewrite !DecimalNat.Unsigned.of_to in H.
Qed.

Lemma with_name_not_fixed (n : nat) (m : Marker) :
  n <> 0%nat -> n <> 500%nat -> is_fixed (with_name (marker_name n) m) = false.
Proof.
  intros H0 H5. unfold is_fixed, is_fixed_obj. cbn [name with_name].
  apply orb_false_iff. split; apply String.eqb_neq; intro E.
  - apply H0. apply marker_name_inj. rewrite E. reflexivity.
  - apply H5. apply marker_name_inj. rewrite E. reflexivity.
Qed.

Lemma rename_from_not_fixed (l : list Marker) :
  forall i, (i + List.length l < 500)%nat ->
            Forall (fun m => is_fixed m = false) (rename_from with_name i l).
Proof.
  induction l as [|x tl IH]; intros i H; simpl; [constructor|].
  simpl in H. constructor.
  - apply with_name_not_fixed; lia.
  - apply IH. lia.
Qed.

Lemma rename_from_names (l : list Marker) :
  forall i, map name (rename_from with_name i l)
            = map marker_name (seq (S i) (List.length l)).
Proof.
  induction l as [|x tl IH]; intro i; simpl; [reflexivity|].
  rewrite IH. f_equal. f_equal. lia.
Qed.

Lemma rename_from_sorted (l : list Marker) :
  forall i, StronglySorted time_le l ->
            StronglySorted time_le (rename_from with_name i l).
Proof.
  induction l as [|x tl IH]; intros i H; simpl; [constructor|].
  inversion H as [|? ? Hs Hall]; subst. constructor; [now apply IH|].
  generalize (S i). clear - Hall.
  induction Hall as [|y tl' Hy Htl IH']; intro j; simpl;
    constructor; [exact Hy | apply IH'].
Qed.

Lemma rename_from_again (l : list Marker) :
  forall i, rename_from with_name i (rename_from with_name i l)
            = rename_from with_name i l.
Proof.
  induction l as [|x tl IH]; intro i; simpl; [reflexivity|]. now rewrite IH.
Qed.

Lemma rename_from_payload (l : list Marker) :
  forall i, map (fun m => (time m, comment m, content m))
                (rename_from with_name i l)
            = map (fun m => (time m, comment m, content m)) l.
Proof.
  induction l as [|x tl IH]; intro i; simpl; [reflexivity|]. now rewrite IH.
Qed.

(** The stable sort commutes with filtering. *)
Lemma filter_insert (p : Marker -> bool) (x : Marker) (l : list Marker) :
  StronglySorted time_le l ->
  filter p (insert_obj (fun m => m) x l)
  = if p x then insert_obj (fun m => m) x (filter p l) else filter p l.
Proof.
  induction 1 as [|y tl Hs IH Hall].
  - simpl. destruct (p x); reflexivity.
  - cbn [insert_obj]. destruct (Qleb (time x) (time y)) eqn:E.
    + cbn [filter]. destruct (p x) eqn:Ex; [|reflexivity].
      symmetry. apply (insert_obj_sorted_head (fun m : Marker => m)).
      apply Qleb_le in E.
      assert (Hall' : Forall (fun z => time x <= time z) (y :: tl)).
      { constructor; [exact E|]. eapply Forall_impl; [|exact Hall].
        intros z Hz. unfold time_le in Hz. lra. }
      rewrite Forall_forall in *. intros z Hz.
      change (In z (filter p (y :: tl))) in Hz.
      apply filter_In in Hz. apply Hall'. tauto.
    + cbn [filter]. rewrite IH.
      destruct (p x), (p y); cbn [insert_obj]; try rewrite E; reflexivity.
Qed.

Lemma filter_sort (p : Marker -> bool) (l : list Marker) :
  filter p (sort_by_time l) = sort_by_time (filter p l).
Proof.
  induction l as [|x tl IH]; [reflexivity|].
  change (sort_by_time (x :: tl))
    with (insert_obj (fun m => m) x (sort_by_time tl)).
  rewrite filter_insert by apply sort_by_time_sorted.
  rewrite IH. cbn [filter]. destruct (p x); reflexivity.
Qed.

Lemma sort_app_sorted (a b : list Marker) :
  sort_by_time (a ++ sort_by_time b) = sort_by_time (a ++ b).
Proof.
  unfold sort_by_time, sort_objs. rewrite !fold_right_app.
  f_equal. apply (sort_objs_id (fun m : Marker => m)).
  apply (sort_objs_sorted (fun m : Marker => m)).
Qed.

Lemma filter_all {A : Type} (f : A -> bool) (l : list A) :
  Forall (fun x => f x = true) l -> filter f l = l.
Proof.
  induction 1 as [|x tl Hx Htl IH]; simpl; [reflexivity|].
  now rewrite Hx, IH.
Qed.

Lemma filter_none {A : Type} (f : A -> bool) (l : list A) :
  Forall (fun x => f x = false) l -> filter f l = [].
Proof.
  induction 1 as [|x tl Hx Htl IH]; simpl; [reflexivity|].
  now rewrite Hx, IH.
Qed.

(** The user markers and the fixed markers of the renumbered list. *)
Lemma renumber_parts (l : list Marker) :
  (List.length (filter (fun m => negb (is_fixed m)) l) < 500)%nat ->
  filter (fun m => negb (is_fixed m)) (_renumber_user_markers l)
  = rename_from with_name 0
      (sort_by_time (filter (fun m => negb (is_fixed m)) l)) /\
  filter is_fixed (_renumber_user_markers l)
  = sort_by_time (filter is_fixed l).
Proof.
  intro Hn.
  set (us := rename_from with_name 0
               (sort_by_time (filter (fun m => negb (is_fixed m)) l))).
  set (fs := filter is_fixed l).
  assert (E : _renumber_user_markers l = sort_by_time (us ++ fs)) by reflexivity.
  assert (Hus : Forall (fun m => is_fixed m = false) us).
  { apply rename_from_not_fixed. rewrite sort_by_time_length. simpl. exact Hn. }
  assert (Hfs : Forall (fun m => is_fixed m = true) fs).
  { apply Forall_forall. intros m Hm. apply filter_In in Hm. tauto. }
  assert (Hsorted : StronglySorted time_le us)
    by (apply rename_from_sorted, sort_by_time_sorted).
  rewrite E, !filter_sort, !filter_app. split.
  - rewrite (filter_all _ us), (filter_none _ fs).
    + rewrite app_nil_r. now apply sort_by_time_id.
    + eapply Forall_impl; [|exact Hfs]. intros m Hm. simpl in Hm. now rewrite Hm.
    + eapply Forall_impl; [|exact Hus]. intros m Hm. simpl in Hm. now rewrite Hm.
  - rewrite (filter_none _ us) by exact Hus.
    rewrite (filter_all _ fs) by exact Hfs. reflexivity.
Qed.

(** Extra X14.  [_renumber_user_markers] returns a list sorted by time
    of the same length, in which no time, comment or content is lost or
    changed.  With fewer than 500 non-fixed markers, the non-fixed
    markers of the result are named Marker1, Marker2, ... in ascending
    time order, and the fixed markers are the fixed markers of the input
    (sorted by time). *)
Theorem X14_renumbering (l : list Marker) :
  let r := _renumber_user_markers l in
  let users := filter (fun m => negb (is_fixed m)) in
  StronglySorted time_le r /\
  List.length r = List.length l /\
  Permutation (map (fun m => (time m, comment m, content m)) r)
              (map (fun m => (time m, comment m, content m)) l) /\
  ((List.length (users l) < 500)%nat ->
   map name (users r) = map marker_name (seq 1 (List.length (users l))) /\
   StronglySorted time_le (users r) /\
   filter is_fixed r = sort_by_time (filter is_fixed l)).
Proof.
  intros r users.
  split; [apply renumber_sorted|].
  split; [apply renumber_length|].
  split.
  - unfold r, _renumber_user_markers, renumber_objs.
    etransitivity; [apply Permutation_map, sort_objs_perm|].
    rewrite map_app, rename_from_payload, <- map_app.
    apply Permutation_map.
    etransitivity; [|apply (filter_split_perm is_fixed l)].
    apply Permutation_app_tail. apply sort_objs_perm.
  - intro Hn. destruct (renumber_parts l Hn) as [Hu Hf].
    unfold users, r. rewrite Hu, Hf.
    split; [|split; [|reflexivity]].
    + rewrite rename_from_names, sort_by_time_length. reflexivity.
    + apply rename_from_sorted, sort_by_time_sorted.
Qed.

Lemma X14_renumbering_witness :
  map name
    (filter (fun m => negb (is_fixed m))
       (_renumber_user_markers
          [mk 0 "Marker0"; mk 30 "TempMarker"; mk 10 "Marker7"; mk 100 "Marker500"]))
  = ["Marker1"; "Marker2"].
Proof.
  destruct (X14_renumbering
              [mk 0 "Marker0"; mk 30 "TempMarker"; mk 10 "Marker7";
               mk 100 "Marker500"]) as (_ & _ & _ & H).
  destruct H as (H & _); [simpl; lia|].
  rewrite H. reflexivity.
Defined.

(** Extra X15.  With fewer than 500 non-fixed markers, renumbering is
    idempotent: renumbering a renumbered list changes nothing. *)
Theorem X15_renumbering_is_idempotent (l : list Marker) :
  (List.length (filter (fun m => negb (is_fixed m)) l) < 500)%nat ->
  _renumber_user_markers (_renumber_user_markers l) = _renumber_user_markers l.
Proof.
  intro Hn. destruct (renumber_parts l Hn) as [Hu Hf].
  set (us := rename_from with_name 0
               (sort_by_time (filter (fun m => negb (is_fixed m)) l))) in *.
  assert (E : forall x, _renumber_user_markers x
               = sort_by_time
                   (rename_from with_name 0
                      (sort_by_time (filter (fun m => negb (is_fixed m)) x))
                    ++ filter is_fixed x)) by reflexivity.
  rewrite (E (_renumber_user_markers l)), Hu, Hf.
  assert (Hsorted : StronglySorted time_le us)
    by (apply rename_from_sorted, sort_by_time_sorted).
  rewrite (sort_by_time_id us Hsorted).
  unfold us at 1. rewrite rename_from_again. fold us.
  rewrite sort_app_sorted. symmetry. apply E.
Qed.

Lemma X15_renumbering_is_idempotent_witness :
  _renumber_user_markers
    (_renumber_user_markers
       [mk 0 "Marker0"; mk 30 "TempMarker"; mk 10 "Marker7"; mk 100 "Marker500"])
  = _renumber_user_markers
      [mk 0 "Marker0"; mk 30 "TempMarker"; mk 10 "Marker7"; mk 100 "Marker500"].
Proof.
  apply X15_renumbering_is_idempotent. simpl. lia.
Defined.

(** ** Jumping between markers *)

Lemma next_marker_from_none (l : list Marker) (pos : Q) :
  forall i, next_marker_from i l pos = None <->
            Forall (fun m => time m <= pos) l.
Proof.
  induction l as [|x tl IH]; intro i; simpl.
  - split; [constructor | reflexivity].
  - destruct (Qltb pos (time x)) eqn:E.
    + apply Qltb_lt in E. split; [discriminate|].
      intro H. apply Forall_inv in H. exfalso. apply (Qlt_not_le _ _ E H).
    + apply Qltb_false in E. rewrite IH. split.
      * intro H. now constructor.
      * intro H. now apply Forall_inv_tail in H.
Qed.

Lemma next_marker_from_least (l : list Marker) (pos : Q) :
  StronglySorted time_le l ->
  forall i j m, next_marker_from i l pos = Some (j, m) ->
    (i <= j)%nat /\ nth_error l (j - i) = Some m /\ pos < time m /\
    Forall (fun m' => pos < time m' -> time m <= time m') l.
Proof.
  induction 1 as [|x tl Hs IH Hall]; intros i j m H; simpl in H; [discriminate|].
  destruct (Qltb pos (time x)) eqn:E.
  - injection H as <- <-. apply Qltb_lt in E.
    split; [lia|]. rewrite Nat.sub_diag. split; [reflexivity|].
    split; [exact E|]. constructor.
    + intros _. apply Qle_refl.
    + eapply Forall_impl; [|exact Hall]. intros m' Hm' _. exact Hm'.
  - apply Qltb_false in E.
    destruct (IH _ _ _ H) as (Hij & Hn & Hp & Hl).
    split; [lia|]. split.
    + replace (j - i)%nat with (S (j - S i)) by lia. exact Hn.
    + split; [exact Hp|]. constructor; [|exact Hl].
      intro Hx. exfalso. apply (Qlt_not_le _ _ Hx E).
Qed.

Lemma prev_marker_from_none (l : list Marker) (pos : Q) :
  forall i, prev_marker_from i l pos = None <->
            Forall (fun m => pos <= time m) l.
Proof.
  induction l as [|x tl IH]; intro i; simpl.
  - split; [constructor | reflexivity].
  - destruct (prev_marker_from (S i) tl pos) as [r|] eqn:Er.
    + split; [discriminate|]. intro H. apply Forall_inv_tail in H.
      apply (IH (S i)) in H. congruence.
    + apply (IH (S i)) in Er.
      destruct (Qltb (time x) pos) eqn:E.
      * apply Qltb_lt in E. split; [discriminate|].
        intro H. apply Forall_inv in H. exfalso. apply (Qlt_not_le _ _ E H).
      * apply Qltb_false in E. split; [|reflexivity].
        intros _. now constructor.
Qed.

Lemma prev_marker_from_greatest (l : list Marker) (pos : Q) :
  StronglySorted time_le l ->
  forall i j m, prev_marker_from i l pos = Some (j, m) ->
    (i <= j)%nat /\ nth_error l (j - i) = Some m /\ time m < pos /\
    Forall (fun m' => time m' < pos -> time m' <= time m) l.
Proof.
  induction 1 as [|x tl Hs IH Hall]; intros i j m H; simpl in H; [discriminate|].
  destruct (prev_marker_from (S i) tl pos) as [r|] eqn:Er.
  - injection H as ->.
    destruct (IH _ _ _ Er) as (Hij & Hn & Hp & Hl).
    split; [lia|]. split.
    + replace (j - i)%nat with (S (j - S i)) by lia. exact Hn.
    + split; [exact Hp|]. constructor; [|exact Hl].
      intros _. apply nth_error_In in Hn.
      rewrite Forall_forall in Hall. apply Hall, Hn.
  - destruct (Qltb (time x) pos) eqn:E; [|discriminate].
    injection H as <- <-. apply Qltb_lt in E.
    split; [lia|]. rewrite Nat.sub_diag. split; [reflexivity|].
    split; [exact E|]. constructor.
    + intros _. apply Qle_refl.
    + apply (prev_marker_from_none tl pos (S i)) in Er.
      eapply Forall_impl; [|exact Er].
      intros m' Hm' Hlt. exfalso. apply (Qlt_not_le _ _ Hlt Hm').
Qed.

Lemma length_eqb_nil {A : Type} (l : list A) :
  l <> [] -> (List.length l =? 0)%nat = false.
Proof. destruct l; [congruence | reflexivity]. Qed.

Lemma Forall_sort (P : Marker -> Prop) (l : list Marker) :
  Forall P (sort_by_time l) <-> Forall P l.
Proof.
  split; apply Permutation_Forall;
    [apply sort_by_time_perm | symmetry; apply sort_by_time_perm].
Qed.

(** Extra X16.  With a file loaded and a non-empty marker list,
    [jump_to_next_marker] moves the playback position to the least
    marker time greater than the position and selects that marker's row
    of the time-sorted list (its row of [self.markers] when the list is
    in time order); when no marker is later than the position, position
    and selection stay as they are. *)
Theorem X16_jump_to_next (pos : Q) (mm : MarkerManager) :
  current_file mm = true -> markers mm <> [] ->
  let j := jump_to_next_marker pos mm in
  (Forall (fun m => time m <= pos) (markers mm) ->
   j = {| jump_selected := selected_marker_index mm; jump_pos := pos;
          jump_text := NoNextMarkerFound |}) /\
  (~ Forall (fun m => time m <= pos) (markers mm) ->
   exists i nm,
     j = {| jump_selected := Some i; jump_pos := time nm;
            jump_text := JumpedToNext (time nm) |} /\
     In nm (markers mm) /\ pos < time nm /\
     (forall m, In m (markers mm) -> pos < time m -> time nm <= time m) /\
     nth_error (sort_by_time (markers mm)) i = Some nm /\
     (StronglySorted time_le (markers mm) ->
      nth_error (markers mm) i = Some nm)).
Proof.
  intros Hf Hne j. unfold j, jump_to_next_marker.
  rewrite Hf, (length_eqb_nil _ Hne). cbn [negb orb].
  destruct (next_marker_from 0 (sort_by_time (markers mm)) pos)
    as [[i nm]|] eqn:E.
  - destruct (next_marker_from_least _ pos (sort_by_time_sorted _) _ _ _ E)
      as (_ & Hn & Hp & Hl).
    rewrite Nat.sub_0_r in Hn. split.
    + intro Hall. exfalso. apply (proj2 (Forall_sort _ _)) in Hall.
      assert (En : next_marker_from 0 (sort_by_time (markers mm)) pos = None)
        by now apply next_marker_from_none.
      congruence.
    + intros _. exists i, nm. split; [reflexivity|].
      split.
      { eapply Permutation_in; [apply sort_by_time_perm|].
        eapply nth_error_In; exact Hn. }
      split; [exact Hp|]. split.
      { apply (proj1 (Forall_sort _ _)) in Hl. rewrite Forall_forall in Hl. exact Hl. }
      split; [exact Hn|].
      intro Hs. now rewrite <- (sort_by_time_id _ Hs).
  - apply next_marker_from_none in E. apply (proj1 (Forall_sort _ _)) in E. split.
    + intros _. reflexivity.
    + intro Hn. contradiction.
Qed.

Lemma X16_jump_to_next_witness :
  exists i nm,
    jump_to_next_marker 12 (manager_of four_markers None)
    = {| jump_selected := Some i; jump_pos := time nm;
         jump_text := JumpedToNext (time nm) |} /\
    nth_error four_markers i = Some nm /\ 12 < time nm.
Proof.
  destruct (X16_jump_to_next 12 (manager_of four_markers None) eq_refl)
    as [_ H]; [discriminate|].
  destruct H as (i & nm & Hj & _ & Hp & _ & _ & Hs).
  - intro Hall. do 2 apply Forall_inv_tail in Hall. apply Forall_inv in Hall.
    revert Hall. apply Qlt_not_le. reflexivity.
  - exists i, nm. split; [exact Hj|]. split; [|exact Hp].
    apply Hs. apply (sort_by_time_sorted four_markers).
Defined.

(** Extra X17.  With a file loaded and a non-empty marker list,
    [jump_to_previous_marker] moves the playback position to the
    greatest marker time less than the position and selects that
    marker's row of the time-sorted list; when no marker is earlier than
    the position, position and selection stay as they are. *)
Theorem X17_jump_to_previous (pos : Q) (mm : MarkerManager) :
  current_file mm = true -> markers mm <> [] ->
  let j := jump_to_previous_marker pos mm in
  (Forall (fun m => pos <= time m) (markers mm) ->
   j = {| jump_selected := selected_marker_index mm; jump_pos := pos;
          jump_text := NoPreviousMarkerFound |}) /\
  (~ Forall (fun m => pos <= time m) (markers mm) ->
   exists i pm,
     j = {| jump_selected := Some i; jump_pos := time pm;
            jump_text := JumpedToPrevious (time pm) |} /\
     In pm (markers mm) /\ time pm < pos /\
     (forall m, In m (markers mm) -> time m < pos -> time m <= time pm) /\
     nth_error (sort_by_time (markers mm)) i = Some pm /\
     (StronglySorted time_le (markers mm) ->
      nth_error (markers mm) i = Some pm)).
Proof.
  intros Hf Hne j. unfold j, jump_to_previous_marker.
  rewrite Hf, (length_eqb_nil _ Hne). cbn [negb orb].
  destruct (prev_marker_from 0 (sort_by_time (markers mm)) pos)
    as [[i pm]|] eqn:E.
  - destruct (prev_marker_from_greatest _ pos (sort_by_time_sorted _) _ _ _ E)
      as (_ & Hn & Hp & Hl).
    rewrite Nat.sub_0_r in Hn. split.
    + intro Hall. exfalso. apply (proj2 (Forall_sort _ _)) in Hall.
      assert (En : prev_marker_from 0 (sort_by_time (markers mm)) pos = None)
        by now apply prev_marker_from_none.
      congruence.
    + intros _. exists i, pm. split; [reflexivity|].
      split.
      { eapply Permutation_in; [apply sort_by_time_perm|].
        eapply nth_error_In; exact Hn. }
      split; [exact Hp|]. split.
      { apply (proj1 (Forall_sort _ _)) in Hl.
        rewrite Forall_forall in Hl. exact Hl. }
      split; [exact Hn|].
      intro Hs. now rewrite <- (sort_by_time_id _ Hs).
  - apply prev_marker_from_none in E. apply (proj1 (Forall_sort _ _)) in E.
    split.
    + intros _. reflexivity.
    + intro Hn. contradiction.
Qed.

Lemma X17_jump_to_previous_witness :
  exists i pm,
    jump_to_previous_marker 12 (manager_of four_markers None)
    = {| jump_selected := Some i; jump_pos := time pm;
         jump_text := JumpedToPrevious (time pm) |} /\
    nth_error four_markers i = Some pm /\ time pm < 12.
Proof.
  destruct (X17_jump_to_previous 12 (manager_of four_markers None) eq_refl)
    as [_ H]; [discriminate|].
  destruct H as (i & pm & Hj & _ & Hp & _ & _ & Hs).
  - intro Hall. apply Forall_inv in Hall.
    revert Hall. apply Qlt_not_le. reflexivity.
  - exists i, pm. split; [exact Hj|]. split; [|exact Hp].
    apply Hs. apply (sort_by_time_sorted four_markers).
Defined.

(** Extra X18.  When the playback position is at the time of a marker
    and some marker is later, jumping to the next marker and then to the
    previous one leads back to the position. *)
Theorem X18_jump_next_then_previous (pos : Q) (mm : MarkerManager) (m m' : Marker) :
  current_file mm = true ->
  In m (markers mm) -> time m == pos ->
  In m' (markers mm) -> pos < time m' ->
  let j1 := jump_to_next_marker pos mm in
  let j2 := jump_to_previous_marker (jump_pos j1)
              (set_selected (jump_selected j1) mm) in
  pos < jump_pos j1 /\ jump_pos j2 == pos /\
  exists t, jump_text j2 = JumpedToPrevious t /\ t == pos.
Proof.
  intros Hf Hm Et Hm' Hlt j1 j2.
  assert (Hne : markers mm <> []) by (intro E; rewrite E in Hm; destruct Hm).
  assert (Hnext : exists k nm,
             next_marker_from 0 (sort_by_time (markers mm)) pos = Some (k, nm)).
  { destruct (next_marker_from 0 (sort_by_time (markers mm)) pos)
      as [[k nm]|] eqn:E; [eauto|].
    apply next_marker_from_none in E. apply (proj1 (Forall_sort _ _)) in E.
    rewrite Forall_forall in E. exfalso.
    apply (Qlt_not_le _ _ Hlt). apply E, Hm'. }
  destruct Hnext as (k & nm & E1).
  destruct (next_marker_from_least _ pos (sort_by_time_sorted _) _ _ _ E1)
    as (_ & _ & Hp1 & Hl1).
  apply (proj1 (Forall_sort _ _)) in Hl1. rewrite Forall_forall in Hl1.
  assert (Ej1 : j1 = {| jump_selected := Some k; jump_pos := time nm;
                        jump_text := JumpedToNext (time nm) |}).
  { unfold j1, jump_to_next_marker.
    rewrite Hf, (length_eqb_nil _ Hne). cbn [negb orb]. now rewrite E1. }
  assert (Hprev : exists i pm,
             prev_marker_from 0 (sort_by_time (markers mm)) (time nm)
             = Some (i, pm)).
  { destruct (prev_marker_from 0 (sort_by_time (markers mm)) (time nm))
      as [[i pm]|] eqn:E; [eauto|].
    apply prev_marker_from_none in E. apply (proj1 (Forall_sort _ _)) in E.
    rewrite Forall_forall in E. exfalso.
    apply (Qlt_not_le pos (time nm) Hp1). rewrite <- Et. apply E, Hm. }
  destruct Hprev as (i & pm & E2).
  destruct (prev_marker_from_greatest _ _ (sort_by_time_sorted _) _ _ _ E2)
    as (_ & Hn2 & Hp2 & Hl2).
  apply (proj1 (Forall_sort _ _)) in Hl2. rewrite Forall_forall in Hl2.
  assert (Hin : In pm (markers mm)).
  { eapply Permutation_in; [apply sort_by_time_perm|].
    eapply nth_error_In; exact Hn2. }
  assert (Ej2 : j2 = {| jump_selected := Some i; jump_pos := time pm;
                        jump_text := JumpedToPrevious (time pm) |}).
  { unfold j2, jump_to_previous_marker. rewrite Ej1.
    cbn [jump_pos jump_selected set_selected current_file markers].
    rewrite Hf, (length_eqb_nil _ Hne). cbn [negb orb]. now rewrite E2. }
  assert (Epm : time pm == pos).
  { apply Qle_antisym.
    - apply Qnot_lt_le. intro Hgt.
      apply (Qlt_not_le _ _ Hp2). now apply Hl1.
    - rewrite <- Et. apply Hl2; [exact Hm|]. rewrite Et. exact Hp1. }
  rewrite Ej1, Ej2. cbn [jump_pos jump_text].
  split; [exact Hp1|]. split; [exact Epm|].
  exists (time pm). split; [reflexivity | exact Epm].
Qed.

Lemma X18_jump_next_then_previous_witness :
  jump_pos
    (jump_to_previous_marker
       (jump_pos (jump_to_next_marker 10 (manager_of four_markers None)))
       (set_selected
          (jump_selected (jump_to_next_marker 10 (manager_of four_markers None)))
          (manager_of four_markers None))) == 10.
Proof.
  apply (X18_jump_next_then_previous 10 (manager_of four_markers None)
           (mk 10 "Marker1") (mk 20 "Marker2")).
  - reflexivity.
  - simpl. tauto.
  - reflexivity.
  - simpl. tauto.
  - reflexivity.
Defined.

(** ** Selecting all markers and deleting the selection *)

Lemma name_test_fixed (m : Marker) :
  negb (String.eqb (name m) "Marker0") && negb (String.eqb (name m) "Marker500")
  = negb (is_fixed m).
Proof. unfold is_fixed, is_fixed_obj. now rewrite negb_orb. Qed.

Lemma select_all_rows_fst (l : list Marker) :
  forall i, select_all_rows i l = map fst (user_rows i l).
Proof.
  induction l as [|x tl IH]; intro i; simpl; [reflexivity|].
  rewrite name_test_fixed, IH. destruct (is_fixed x); reflexivity.
Qed.

Lemma user_rows_snd (l : list Marker) :
  forall i, map snd (user_rows i l) = filter (fun m => negb (is_fixed m)) l.
Proof.
  induction l as [|x tl IH]; intro i; simpl; [reflexivity|].
  destruct (is_fixed x); simpl; now rewrite IH.
Qed.

Lemma user_rows_above (l : list Marker) :
  forall i, Forall (fun p => (i <= fst p)%nat) (user_rows i l).
Proof.
  induction l as [|x tl IH]; intro i; simpl; [constructor|].
  assert (H : Forall (fun p => (i <= fst p)%nat) (user_rows (S i) tl)).
  { eapply Forall_impl; [|apply IH]. intros p Hp. simpl in Hp. lia. }
  destruct (is_fixed x); [exact H|]. constructor; [simpl; lia | exact H].
Qed.

Lemma collect_select_all (l : list Marker) :
  forall pre,
    collect_to_delete (select_all_rows (List.length pre) l) (pre ++ l)
    = user_rows (List.length pre) l.
Proof.
  induction l as [|x tl IH]; intro pre; [reflexivity|].
  specialize (IH (pre ++ [x])%list).
  rewrite length_app, Nat.add_1_r, <- app_assoc in IH. simpl app in IH.
  cbn [select_all_rows user_rows]. rewrite name_test_fixed.
  destruct (is_fixed x) eqn:Ex; cbn [negb]; [exact IH|].
  cbn [collect_to_delete].
  rewrite (nth_error_middle pre x tl _ eq_refl), name_test_fixed, Ex.
  cbn [negb]. now rewrite IH.
Qed.

Lemma insert_desc_last (x : nat * Marker) (l : list (nat * Marker)) :
  Forall (fun y => (fst x < fst y)%nat) l -> insert_desc x l = (l ++ [x])%list.
Proof.
  induction 1 as [|y tl Hy Htl IH]; simpl; [reflexivity|].
  apply Nat.ltb_lt in Hy. now rewrite Hy, IH.
Qed.

Lemma sort_desc_user_rows (l : list Marker) :
  forall i, sort_desc (user_rows i l) = rev (user_rows i l).
Proof.
  induction l as [|x tl IH]; intro i; simpl; [reflexivity|].
  destruct (is_fixed x); [apply IH|].
  change (sort_desc ((i, x) :: user_rows (S i) tl))
    with (insert_desc (i, x) (sort_desc (user_rows (S i) tl))).
  rewrite IH. apply insert_desc_last.
  apply Forall_rev. eapply Forall_impl; [|apply user_rows_above].
  intros p Hp. simpl in *. lia.
Qed.

Lemma delete_each_app (a b : list (nat * Marker)) :
  forall l l', delete_each a l = (l', false) ->
               delete_each (a ++ b) l = delete_each b l'.
Proof.
  induction a as [|[idx m] tl IH]; intros l l' H; simpl in *.
  - now injection H as <-.
  - destruct (idx <? List.length l)%nat; [|discriminate]. now apply IH.
Qed.

Lemma delete_user_rows (l : list Marker) :
  forall pre,
    delete_each (rev (user_rows (List.length pre) l)) (pre ++ l)
    = ((pre ++ filter is_fixed l)%list, false).
Proof.
  induction l as [|x tl IH]; intro pre; [reflexivity|].
  specialize (IH (pre ++ [x])%list).
  rewrite length_app, Nat.add_1_r, <- !app_assoc in IH. simpl app in IH.
  cbn [user_rows filter]. destruct (is_fixed x) eqn:Ex; [exact IH|].
  cbn [rev]. rewrite (delete_each_app _ _ _ _ IH). cbn [delete_each].
  assert (Hlt : (List.length pre <? List.length (pre ++ x :: filter is_fixed tl))%nat
                = true).
  { apply Nat.ltb_lt. rewrite length_app. simpl. lia. }
  rewrite Hlt. now rewrite remove_at_middle.
Qed.

Lemma renumber_fixed_only (l : list Marker) :
  _renumber_user_markers (filter is_fixed l) = sort_by_time (filter is_fixed l).
Proof.
  unfold _renumber_user_markers, renumber_objs.
  change (is_fixed_obj (fun m : Marker => m)) with is_fixed.
  rewrite filter_negb_filter. cbn [sort_objs fold_right rename_from app].
  rewrite (filter_all is_fixed (filter is_fixed l)); [reflexivity|].
  apply Forall_forall. intros m Hm. apply filter_In in Hm. tauto.
Qed.

(** Extra X19.  Deleting the selection that [select_all_markers] makes
    (every row but those of Marker0 and Marker500), once confirmed,
    removes all non-fixed markers: the fixed markers remain, sorted by
    time, which is the list [delete_all_markers] leaves when the markers
    were in time order.  The record pushed is of action "delete_markers"
    and holds the deleted dicts, last row first.  With no non-fixed
    marker the selection is empty and nothing but the status text
    changes. *)
Theorem X19_select_all_then_delete (inp : Inputs) (mm : MarkerManager) :
  curselection inp = select_all_rows 0 (markers mm) ->
  askyesno inp = true ->
  let users := filter (fun m => negb (is_fixed m)) (markers mm) in
  let mm' := delete_selected_marker inp mm in
  (users = [] -> mm' = set_status PleaseSelectMarkerToDelete mm) /\
  (users <> [] ->
   markers mm' = sort_by_time (filter is_fixed (markers mm)) /\
   status_label mm' = DeletedMarkers (List.length users) /\
   undo_stack mm'
   = undo_stack (push_to_undo_stack (Op_delete_markers (rev users)) mm) /\
   redo_stack mm' = [] /\
   (StronglySorted time_le (markers mm) ->
    markers mm' = markers (delete_all_markers inp mm))).
Proof.
  intros Hsel Hyes users mm'. subst users mm'.
  pose proof (collect_select_all (markers mm) []) as Hc.
  cbn [List.length app] in Hc.
  pose proof (user_rows_snd (markers mm) 0) as Hsnd.
  pose proof (select_all_rows_fst (markers mm) 0) as Hfst.
  unfold delete_selected_marker. rewrite Hsel. split.
  - intro Hu. rewrite Hfst.
    destruct (user_rows 0 (markers mm)); [reflexivity|].
    rewrite Hu in Hsnd. discriminate Hsnd.
  - intro Hu.
    destruct (select_all_rows 0 (markers mm)) as [|r rows] eqn:Er.
    { exfalso. apply Hu. rewrite <- Hsnd.
      destruct (user_rows 0 (markers mm)); [reflexivity | discriminate Hfst]. }
    rewrite Hc.
    destruct (user_rows 0 (markers mm)) as [|p ps] eqn:Ep; [discriminate Hfst|].
    rewrite Hyes. cbn [negb]. rewrite <- Ep. rewrite <- Ep in Hsnd.
    rewrite sort_desc_user_rows, map_rev, Hsnd.
    destruct (push_undo_stack
                (Op_delete_markers
                   (rev (filter (fun m => negb (is_fixed m)) (markers mm)))) mm)
      as (u & Eu & _ & Er' & Em).
    rewrite Em.
    pose proof (delete_user_rows (markers mm) []) as Hd.
    cbn [List.length app] in Hd. rewrite Hd.
    cbn [markers undo_stack redo_stack status_label set_markers set_status].
    rewrite renumber_fixed_only, length_rev.
    split; [reflexivity|].
    split; [now rewrite <- Hsnd, length_map|].
    split; [reflexivity|]. split; [exact Er'|].
    intro Hs. unfold delete_all_markers.
    destruct (filter (fun m => negb (is_fixed m)) (markers mm)) as [|u0 us];
      [congruence|].
    rewrite Hyes. cbn [negb markers set_markers set_status].
    destruct (push_undo_stack (Op_delete_all_markers (markers mm)) mm)
      as (_ & _ & _ & _ & Em').
    rewrite Em'. apply sort_by_time_id. now apply filter_sorted.
Qed.

Lemma X19_select_all_then_delete_witness :
  markers (delete_selected_marker
             (inputs None ("0", 0%Z) ("0", 0%Z) [1; 2]%nat)
             (manager_of four_markers None))
  = sort_by_time (filter is_fixed four_markers).
Proof.
  destruct (X19_select_all_then_delete
              (inputs None ("0", 0%Z) ("0", 0%Z) [1; 2]%nat)
              (manager_of four_markers None) eq_refl eq_refl) as [_ H].
  destruct H as [H _]; [discriminate|]. exact H.
Defined.

(** ** Adding a marker and undoing the addition *)

(** Where the stable sort puts one object, and the renumbering with it. *)
Section SortSplit.

Context {A : Type} (val : A -> Marker) (set_name : string -> A -> A).

Let le_obj (a b : A) : Prop := time (val a) <= time (val b).






End SortSplit.




















(** ** Moving a marker and undoing the move *)




(** ** What an addition does to the marker list *)



(** ** Redoing an addition *)












(* ================================================================== *)
(** * The retry loop *)

Lemma list_ascii_app (a b : string) :
  list_ascii_of_string (a ++ b)
  = (list_ascii_of_string a ++ list_ascii_of_string b)%list.
Proof. induction a as [|c a IH]; simpl; [reflexivity | now rewrite IH]. Qed.

Lemma prefix_chars (a : string) :
  forall b c, String.prefix a b = true ->
              In c (list_ascii_of_string a) -> In c (list_ascii_of_string b).
Proof.
  induction a as [|x a IH]; intros b c Hp Hc; [destruct Hc|].
  destruct b as [|y b]; simpl in Hp; [discriminate|].
  destruct (Ascii.ascii_dec x y) as [->|]; [|discriminate].
  destruct Hc as [<-|Hc]; [now left | right; eapply IH; eassumption].
Qed.

Lemma contains_chars (a b : string) (c : ascii) :
  contains a b = true ->
  In c (list_ascii_of_string a) -> In c (list_ascii_of_string b).
Proof.
  intros H Hc. induction b as [|y b IH]; cbn [contains] in H.
  - rewrite orb_false_r in H. eapply prefix_chars; eassumption.
  - apply orb_true_iff in H. destruct H as [H|H].
    + eapply prefix_chars; eassumption.
    + right. now apply IH.
Qed.

Lemma digits_chars (d : Decimal.uint) (c : ascii) :
  In c (list_ascii_of_string (NilEmpty.string_of_uint d)) ->
  In c (list_ascii_of_string "0123456789").
Proof.
  induction d; simpl; intro H; try (destruct H as [<-|H]; [tauto | ]);
    try (specialize (IHd H); simpl in IHd; tauto).
  destruct H.
Qed.

Lemma failed_after_final (n : nat) :
  wants_retry (Some (failed_after n)) = false.
Proof.
  unfold wants_retry, failed_after. cbn [reply_error].
  set (e := ("failed after " ++ NilEmpty.string_of_uint (Nat.to_uint n)
             ++ " attempts")%string).
  assert (E1 : String.eqb e "property unavailable" = false) by reflexivity.
  assert (E2 : contains "error running command" e = false).
  { destruct (contains "error running command" e) eqn:E; [|reflexivity].
    exfalso.
    assert (Hg : In "g"%char (list_ascii_of_string e)).
    { apply (contains_chars _ _ _ E). simpl. tauto. }
    unfold e in Hg. rewrite !list_ascii_app in Hg.
    apply in_app_or in Hg. destruct Hg as [Hg|Hg].
    - simpl in Hg. repeat (destruct Hg as [Hg|Hg]; [discriminate Hg|]).
      exact Hg.
    - apply in_app_or in Hg. destruct Hg as [Hg|Hg].
      + apply digits_chars in Hg. simpl in Hg.
        repeat (destruct Hg as [Hg|Hg]; [discriminate Hg|]). exact Hg.
      + simpl in Hg. repeat (destruct Hg as [Hg|Hg]; [discriminate Hg|]).
        exact Hg. }
  rewrite E1, E2. apply andb_false_r.
Qed.

Lemma retry_from_spec (send_command : nat -> Response) (max_retries : nat) :
  forall attempts_left calls,
    let res := retry_from send_command max_retries calls attempts_left in
    (calls <= snd res <= calls + attempts_left)%nat /\
    (forall k, (calls <= k)%nat -> (S k < snd res)%nat ->
               wants_retry (send_command k) = true) /\
    ((exists k, (calls <= k < calls + attempts_left)%nat /\
                wants_retry (send_command k) = false) ->
     (calls < snd res)%nat /\ fst res = send_command (snd res - 1)%nat /\
     wants_retry (fst res) = false) /\
    ((forall k, (calls <= k < calls + attempts_left)%nat ->
                wants_retry (send_command k) = true) ->
     snd res = (calls + attempts_left)%nat /\
     fst res = Some (failed_after max_retries)).
Proof.
  induction attempts_left as [|n IH]; intro calls; cbn zeta.
  - cbn [retry_from fst snd]. split; [lia|]. split; [intros; lia|].
    split; [intros (k & Hk & _); lia|]. intros _. split; [lia | reflexivity].
  - cbn [retry_from].
    destruct (wants_retry (send_command calls)) eqn:Ew.
    + assert (E : retry_from send_command max_retries calls (S n)
                  = retry_from send_command max_retries (S calls) n).
      { cbn [retry_from]. unfold wants_retry in Ew.
        destruct (send_command calls) as [[[error|] data]|]; try discriminate.
        apply andb_true_iff in Ew. destruct Ew as [E1 E2].
        now rewrite E1, E2. }
      cbn [retry_from] in E. rewrite E.
      destruct (IH (S calls)) as (Hb & Hall & Hex & Hnone).
      split; [lia|]. split.
      { intros k Hk Hlt. destruct (Nat.eq_dec k calls) as [->|Hne];
          [exact Ew | apply Hall; [lia | exact Hlt]]. }
      split.
      { intros (k & Hk & Hw).
        destruct (Nat.eq_dec k calls) as [->|Hne]; [congruence|].
        destruct Hex as (H1 & H2 & H3); [exists k; split; [lia | exact Hw]|].
        split; [lia|]. split; assumption. }
      intros Hk. destruct Hnone as [H1 H2].
      { intros k Hk'. apply Hk. lia. }
      split; [lia | exact H2].
    + assert (E : retry_from send_command max_retries calls (S n)
                  = (send_command calls, S calls)).
      { cbn [retry_from]. unfold wants_retry in Ew.
        destruct (send_command calls) as [[[error|] data]|]; try reflexivity.
        destruct (negb (String.eqb error "success")); [|reflexivity].
        cbn [andb] in Ew. now rewrite Ew. }
      cbn [retry_from] in E. rewrite E. cbn [fst snd].
      split; [lia|]. split; [intros; lia|]. split.
      { intros _. split; [lia|].
        replace (S calls - 1)%nat with calls by lia.
        split; [reflexivity | exact Ew]. }
      intros Hk. rewrite Hk in Ew by lia. discriminate Ew.
Qed.

Lemma retry_cases (send_command : nat -> Response) (n : nat) :
  (exists k, (k < n)%nat /\ wants_retry (send_command k) = false) \/
  (forall k, (k < n)%nat -> wants_retry (send_command k) = true).
Proof.
  induction n as [|n IH]; [right; intros; lia|].
  destruct IH as [(k & Hk & Hw)|H].
  - left. exists k. split; [lia | exact Hw].
  - destruct (wants_retry (send_command n)) eqn:E.
    + right. intros k Hk. destruct (Nat.eq_dec k n) as [->|Hne];
        [exact E | apply H; lia].
    + left. exists n. split; [lia | exact E].
Qed.

(** Extra X24.  [send_command_with_retry] calls [send_command] at most
    [max_retries] times, and goes on only after a response it retries on
    (an error "property unavailable" or one that contains "error running
    command").  It returns the first response that is not of this kind,
    and after [max_retries] such responses the reply "failed after
    [max_retries] attempts"; so what it returns is never an error it
    would retry on. *)
Theorem X24_send_command_with_retry (send_command : nat -> Response)
    (max_retries : nat) :
  let res := send_command_with_retry send_command max_retries in
  (snd res <= max_retries)%nat /\
  (forall k, (S k < snd res)%nat -> wants_retry (send_command k) = true) /\
  ((exists k, (k < max_retries)%nat /\ wants_retry (send_command k) = false) ->
   (0 < snd res)%nat /\ fst res = send_command (snd res - 1)%nat) /\
  ((forall k, (k < max_retries)%nat -> wants_retry (send_command k) = true) ->
   snd res = max_retries /\ fst res = Some (failed_after max_retries)) /\
  wants_retry (fst res) = false.
Proof.
  cbn zeta. unfold send_command_with_retry.
  destruct (retry_from_spec send_command max_retries max_retries 0)
    as (Hb & Hall & Hex & Hnone).
  cbn zeta in *. cbn [Nat.add] in *.
  split; [lia|].
  split; [intros k Hk; apply Hall; [lia | exact Hk]|].
  split.
  { intros (k & Hk & Hw).
    destruct Hex as (H1 & H2 & _); [exists k; split; [lia | exact Hw]|].
    split; assumption. }
  split.
  { intro Hk. apply Hnone. intros k Hk'. apply Hk. lia. }
  destruct (retry_cases send_command max_retries) as [(k & Hk & Hw)|Hk].
  - destruct Hex as (_ & _ & H3); [exists k; split; [lia | exact Hw]|].
    exact H3.
  - destruct Hnone as [_ H2]; [intros k Hk'; apply Hk; lia|].
    rewrite H2. apply failed_after_final.
Qed.

Lemma X24_send_command_with_retry_witness :
  let send_command := fun k : nat =>
    if (k <? 2)%nat
    then Some {| reply_error := Some "property unavailable"; reply_data := None |}
    else Some {| reply_error := Some "success"; reply_data := Some "12.5" |} in
  fst (send_command_with_retry send_command 3)
  = send_command (snd (send_command_with_retry send_command 3) - 1)%nat.
Proof.
  intro send_command.
  destruct (X24_send_command_with_retry send_command 3) as (_ & _ & H & _).
  destruct H as [_ H]; [|exact H].
  exists 2%nat. split; [lia | reflexivity].
Defined.

(* ================================================================== *)
(** * Segment contents when a marker is moved *)

Lemma merge_partner_none (olds : list Segment) (j : nat) (o : Segment)
    (ne : Q) (used : list nat) :
  Forall (fun x => ~ end_time x == ne) olds ->
  forall k, merge_partner k olds j o ne used = None.
Proof.
  induction 1 as [|x tl Hx Htl IH]; intro k; [reflexivity|].
  rewrite merge_partner_cons.
  destruct (in_used k used || (k =? j)%nat); [apply IH|].
  apply Qeqb_false in Hx. rewrite Hx. cbn [andb]. apply IH.
Qed.

(** An unused old segment that starts where the new one starts but ends
    before it gives nothing, when no old segment ends where the new one
    ends. *)
Lemma migrate_too_short (E0 post : list Segment) (o : Segment)
    (ns ne : Q) (used : list nat) :
  used_below (List.length E0) used ->
  start_time o = ns -> end_time o < ne ->
  Forall (starts_elsewhere ns) post ->
  Forall (fun x => ~ end_time x == ne) (E0 ++ o :: post) ->
  migrate_content (E0 ++ o :: post) ns ne used = ("", used).
Proof.
  intros Hu Hs Hlt Hpost Hends. unfold migrate_content.
  rewrite exact_or_split_skip by (apply in_used_prefix; exact Hu).
  assert (Hnone : exact_or_split (0 + List.length E0) (o :: post) ns ne used
                  = None).
  { rewrite exact_or_split_cons. cbn [Nat.add].
    rewrite (used_below_fresh _ _ Hu).
    assert (E1 : Qeqb (end_time o) ne = false).
    { apply Qeqb_false. intro E. rewrite E in Hlt.
      apply (Qlt_irrefl _ Hlt). }
    assert (E2 : Qleb ne (end_time o) = false) by (apply Qleb_false; exact Hlt).
    rewrite E1, E2, !andb_false_r.
    apply exact_or_split_elsewhere. exact Hpost. }
  rewrite Hnone.
  rewrite merge_pass_skip by (apply in_used_prefix; exact Hu).
  rewrite merge_pass_cons. cbn [Nat.add].
  rewrite (used_below_fresh _ _ Hu).
  assert (E3 : Qeqb (start_time o) ns = true)
    by (apply Qeqb_eq; rewrite Hs; reflexivity).
  rewrite E3, (merge_partner_none _ _ _ _ _ Hends).
  apply merge_pass_elsewhere. exact Hpost.
Qed.

Lemma ranges_ends (P : Q -> Prop) (ts : list Q) :
  Forall P ts -> Forall (fun r => P (snd r)) (ranges ts).
Proof.
  induction ts as [|a tl IH]; intro H; [constructor|].
  destruct tl as [|b tl']; [constructor|].
  rewrite ranges_cons2. inversion H as [|? ? _ Htl]; subst.
  constructor; [now inversion Htl | now apply IH].
Qed.

Lemma segments_end_elsewhere (existing : list Segment) (ts : list Q) (x : Q) :
  map seg_range existing = ranges ts ->
  Forall (fun t => ~ t == x) ts ->
  Forall (fun o => ~ end_time o == x) existing.
Proof.
  intros Hr Hts. apply (ranges_ends (fun t => ~ t == x)) in Hts.
  rewrite <- Hr in Hts. rewrite Forall_forall in *. intros o Ho.
  apply (Hts (seg_range o)). now apply in_map.
Qed.

(** Extra X25.  A recomputation of the segments after the marker
    between [a] and [b] has moved from [t] to [t'] (still between its
    neighbours; marker times strictly increasing), against the segments
    of before the move: the new segment [t', b] gets the empty content,
    whatever the old segment [t, b] held; the new segment [a, t'] gets
    the content of the old segment [a, t] when the marker has moved to
    the left ([t' < t]), and the empty content when it has moved to the
    right. *)
Theorem X25_moved_marker_and_contents (markers : list Marker)
    (existing : list Segment)
    (l1 : list Q) (a t t' b : Q) (l2 : list Q) :
  map time (sort_by_time markers) = (l1 ++ a :: t' :: b :: l2)%list ->
  map seg_range existing = ranges (l1 ++ a :: t :: b :: l2) ->
  StronglySorted Qlt (l1 ++ a :: t' :: b :: l2) ->
  a < t -> t < b -> ~ t == t' ->
  exists segs oldA oldB left right,
    _calculate_segments markers existing = Ok segs /\
    nth_error existing (List.length l1) = Some oldA /\
    seg_range oldA = (a, t) /\
    nth_error existing (S (List.length l1)) = Some oldB /\
    seg_range oldB = (t, b) /\
    nth_error segs (List.length l1) = Some left /\
    seg_range left = (a, t') /\
    nth_error segs (S (List.length l1)) = Some right /\
    seg_range right = (t', b) /\
    seg_content left = (if Qltb t' t then seg_content oldA else "") /\
    seg_content right = "".
Proof.
  intros Hm He Hs Hat Htb Hne.
  pose proof (sort_by_time_sorted markers) as Hsm.
  apply map_eq_app in Hm. destruct Hm as (front & rest & Hsorted & Hfront & Hrest).
  apply map_eq_cons in Hrest. destruct Hrest as (ma & rest1 & -> & Hma & Hrest).
  apply map_eq_cons in Hrest. destruct Hrest as (mt & rest2 & -> & Hmt & Hrest).
  apply map_eq_cons in Hrest. destruct Hrest as (mb & back & -> & Hmb & Hback).
  assert (Hall : Forall (fun x => ~ x == t') (l1 ++ a :: t :: b :: l2)).
  { pose proof (StronglySorted_app_inv _ _ _ Hs) as (_ & Hs2 & Hcross).
    apply StronglySorted_inv in Hs2. destruct Hs2 as [Hs3 Ha].
    apply StronglySorted_inv in Hs3. destruct Hs3 as [_ Ht].
    pose proof (Forall_inv Ha) as Hat'.
    apply Forall_app. split.
    - apply Forall_forall. intros x Hx E.
      assert (Hlt : x < t') by (apply Hcross; [exact Hx | right; now left]).
      rewrite E in Hlt. apply (Qlt_irrefl _ Hlt).
    - constructor.
      { intro E. rewrite E in Hat'. apply (Qlt_irrefl _ Hat'). }
      constructor; [exact Hne|].
      eapply Forall_impl; [|exact Ht].
      intros x Hx E. rewrite E in Hx. apply (Qlt_irrefl _ Hx). }
  pose proof (segments_end_elsewhere _ _ _ He Hall) as Hends.
  rewrite ranges_app_mid, !ranges_cons2 in He.
  apply map_eq_app in He. destruct He as (E1 & E2' & -> & HE1 & HE2').
  apply map_eq_cons in HE2'. destruct HE2' as (o1 & E2'' & -> & Ho1 & HE2'').
  apply map_eq_cons in HE2''. destruct HE2'' as (o2 & E2 & -> & Ho2 & HE2).
  injection Ho1 as Ho1s Ho1e. injection Ho2 as Ho2s Ho2e.
  pose proof (StronglySorted_prefix _ _ _ Hs) as Hpre.
  apply StronglySorted_app_inv in Hs. destruct Hs as (_ & Hs & _).
  inversion Hs as [|? ? Hs1 Ha]; subst.
  inversion Hs1 as [|? ? Hs2 Ht]; subst.
  inversion Hs2 as [|? ? Hs3 Hb]; subst.
  inversion Ha as [|? ? Hat' Ha']; subst. inversion Ha' as [|? ? Hab Ha'']; subst.
  inversion Ht as [|? ? Htb' Ht']; subst.
  rewrite Hsorted in Hsm.
  apply StronglySorted_app_inv in Hsm. destruct Hsm as (_ & Hsm & _).
  inversion Hsm as [|? ? Hsm1 _]; subst. inversion Hsm1 as [|? ? Hsm2 _]; subst.
  assert (Hlen : List.length (map time front) = List.length front)
    by apply length_map.
  assert (HE2a : Forall (fun o => time mb <= start_time o) E2).
  { destruct E2 as [|e E2t]; [constructor|].
    destruct (map time back) as [|c l2'] eqn:Eback; [discriminate HE2|].
    rewrite ranges_cons2 in HE2. cbn [map] in HE2.
    injection HE2 as He0 He1 HE2t.
    constructor; [rewrite He0; apply Qle_refl|].
    eapply Forall_impl;
      [|apply (starts_after_elsewhere (time mb) E2t (c :: l2') HE2t Hb)].
    intros x Hx. simpl in Hx. lra. }
  destruct (build_same_prefix (mt :: mb :: back) ma (o1 :: o2 :: E2) front [] E1 [])
    as (segsF & used' & HlF & HlE & Hu' & Heq).
  { rewrite map_app. exact HE1. }
  { rewrite map_app. exact Hpre. }
  { constructor; [rewrite Ho1s; lra|].
    constructor; [rewrite Ho2s; lra|].
    eapply Forall_impl; [|exact HE2a]. intros x Hx. simpl in Hx. lra. }
  { exact used_below_0. }
  cbn [app List.length Nat.add] in Heq, Hu'.
  rewrite <- HlE in Hu'.
  assert (Helse2 : Forall (starts_elsewhere (time ma)) (o2 :: E2)).
  { constructor.
    - unfold starts_elsewhere. rewrite Ho2s. intro E. rewrite E in Hat.
      apply (Qlt_irrefl _ Hat).
    - eapply Forall_impl; [|exact HE2a].
      intros x Hx E. unfold starts_elsewhere in *. simpl in Hx.
      rewrite E in Hx. lra. }
  assert (Helse_t : Forall (starts_elsewhere (time mt)) (o2 :: E2)).
  { constructor.
    - unfold starts_elsewhere. rewrite Ho2s. exact Hne.
    - eapply Forall_impl; [|exact HE2a].
      intros x Hx E. unfold starts_elsewhere in *. simpl in Hx.
      rewrite E in Hx. lra. }
  assert (Hfinish :
            forall c used1,
              migrate_content (E1 ++ o1 :: o2 :: E2) (time ma) (time mt) used'
              = (c, used1) ->
              migrate_content (E1 ++ o1 :: o2 :: E2) (time mt) (time mb) used1
              = ("", used1) ->
              exists segs left right,
                _calculate_segments markers (E1 ++ o1 :: o2 :: E2) = Ok segs /\
                nth_error segs (List.length (map time front)) = Some left /\
                seg_range left = (time ma, time mt) /\
                nth_error segs (S (List.length (map time front))) = Some right /\
                seg_range right = (time mt, time mb) /\
                seg_content left = c /\ seg_content right = "").
  { intros c used1 Hmig1 Hmig2.
    destruct (build_segments_total _ Hsm2 (S (S (List.length front)))
                (E1 ++ o1 :: o2 :: E2)%list used1)
      as (segsT & u & Hb' & _).
    unfold _calculate_segments, calculate_segments_used.
    rewrite Hsorted.
    replace (List.length (front ++ ma :: mt :: mb :: back) <? 2)%nat with false
      by (symmetry; apply Nat.ltb_ge; rewrite length_app; simpl; lia).
    rewrite Heq.
    rewrite (build_step _ _ _ _ _ _ _ _ Hmig1) by lra.
    rewrite (build_step _ _ _ _ _ _ _ _ Hmig2) by lra.
    rewrite Hb'.
    eexists. eexists. eexists.
    split; [reflexivity|].
    split; [apply nth_error_middle; congruence|].
    split; [reflexivity|].
    split.
    { change (segsF ++ ?x :: ?y :: segsT)%list
        with (segsF ++ [x] ++ y :: segsT)%list.
      rewrite app_assoc. apply nth_error_middle.
      rewrite length_app. simpl. rewrite Nat.add_1_r. congruence. }
    split; [reflexivity|]. split; reflexivity. }
  assert (Hold : nth_error (E1 ++ o1 :: o2 :: E2) (List.length (map time front))
                 = Some o1 /\
                 nth_error (E1 ++ o1 :: o2 :: E2) (S (List.length (map time front)))
                 = Some o2).
  { split; [apply nth_error_middle; congruence|].
    change (E1 ++ o1 :: o2 :: E2)%list with (E1 ++ [o1] ++ o2 :: E2)%list.
    rewrite app_assoc. apply nth_error_middle.
    rewrite length_app. simpl. rewrite Nat.add_1_r. congruence. }
  destruct Hold as [Hold1 Hold2].
  destruct (Qltb (time mt) (end_time o1)) eqn:Edir.
  - (* moved to the left *)
    apply Qltb_lt in Edir.
    destruct (Hfinish (seg_content o1) (List.length E1 :: used'))
      as (segs & left & right & H1 & H2 & H3 & H4 & H5 & H6 & H7).
    + apply migrate_left_aligned; trivial.
      apply Qlt_le_weak, Edir.
    + change (E1 ++ o1 :: o2 :: E2)%list with (E1 ++ [o1] ++ o2 :: E2)%list.
      rewrite app_assoc. apply migrate_nothing.
      * rewrite length_app. simpl. rewrite Nat.add_1_r.
        now apply used_below_cons.
      * exact Helse_t.
    + exists segs, o1, o2, left, right.
      unfold seg_range. repeat (split; [congruence || assumption|]).
      assumption.
  - (* moved to the right *)
    apply Qltb_false in Edir.
    assert (Hlt : end_time o1 < time mt).
    { apply Qle_lteq in Edir. destruct Edir as [H|H]; [exact H|].
      exfalso. apply Hne. exact H. }
    destruct (Hfinish "" used')
      as (segs & left & right & H1 & H2 & H3 & H4 & H5 & H6 & H7).
    + apply migrate_too_short; trivial.
    + apply migrate_nothing; [exact Hu'|].
      constructor; [|exact Helse_t].
      unfold starts_elsewhere. rewrite Ho1s. intro E. rewrite E in Hat'.
      apply (Qlt_irrefl _ Hat').
    + exists segs, o1, o2, left, right.
      unfold seg_range. repeat (split; [congruence || assumption|]).
      assumption.
Qed.

Lemma X25_moved_marker_and_contents_witness :
  exists segs left right,
    _calculate_segments
      [mk 0 "Marker0"; mk 12 "Marker1"; mk 100 "Marker500"]
      [sg 0 0 10 "A"; sg 1 10 100 "B"] = Ok segs /\
    nth_error segs 0 = Some left /\ seg_content left = "" /\
    nth_error segs 1 = Some right /\ seg_content right = "".
Proof.
  destruct (X25_moved_marker_and_contents
              [mk 0 "Marker0"; mk 12 "Marker1"; mk 100 "Marker500"]
              [sg 0 0 10 "A"; sg 1 10 100 "B"]
              [] 0 10 12 100 [])
    as (segs & oldA & oldB & left & right & H1 & _ & _ & _ & _ & H2 & _ & H3
        & _ & H4 & H5).
  - reflexivity.
  - reflexivity.
  - repeat constructor; reflexivity.
  - reflexivity.
  - reflexivity.
  - intro H. discriminate H.
  - exists segs, left, right.
    split; [exact H1|]. split; [exact H2|]. split; [exact H4|].
    split; [exact H3 | exact H5].
Defined.
